(** * File batching utilities: a shallow embedding of [file-batch-utils.js]

    The development follows the source file top to bottom: the
    [FileBatcher] configuration and its constructor, the pure batcher
    [createBatches], the two runners [addFilesBatched] and
    [commitFilesBatched], and the status analyzer [analyzeGitStatus].

    Conventions of the embedding.
    - JavaScript numbers that the program uses as counters, indices and
      sizes are integers here ([Z]); NaN, infinities and fractional sizes
      are outside the model.
    - An array is a [list]; [Array.prototype.slice] is [slice] below, with
      the relative-index treatment of negative arguments written out.
    - The [for] loop of [createBatches] has a step that is read from the
      configuration and need not be positive, so the loop is modelled with
      fuel: [None] means that the loop is still running when the fuel is
      exhausted.
    - [execSync], [console.log], [console.error] and [sleep] are effects:
      the runners live in a small monad that threads the outside world,
      records the effects performed, oldest first, and stops at a thrown
      error. [async] and [await] are sequential composition.
    - [findFiles], the command line at the end of the file and
      [createDemoFiles] of [batch-demo.js] follow the runners. The file
      system they read and change is a parameter: [readdirSync],
      [statSync], [existsSync], [mkdirSync] and [writeFileSync] are
      functions of a section, as are [path.join] and [path.relative].
      The recursion of [walkDir] is bounded by fuel as well.
    - Two things the model of the runners leaves out are added where a
      property depends on them: the bound that memory puts on the array
      of [createBatches] ([createBatches_bounded]), and the [stdio]
      option under which [execSync] starts a child process
      ([stdio_of]). *)

From Stdlib Require Import ZArith List Bool Lia String Ascii DecimalString.
From Stdlib Require DecimalPos.
Import ListNotations.

Local Open Scope string_scope.
Local Open Scope list_scope.
Local Open Scope Z_scope.

(** ** Arrays *)

Section Arrays.
Context {A : Type}.

(** [arr.length] as a JavaScript number. *)
Definition len (l : list A) : Z := Z.of_nat (List.length l).

(** [arr.slice(start, end)]: a negative argument counts from the end of the
    array, both bounds are clamped to [0 .. length], and an empty range
    yields the empty array. *)
Definition slice (l : list A) (start end_ : Z) : list A :=
  let k := if start <? 0 then Z.max (len l + start) 0 else Z.min start (len l) in
  let final := if end_ <? 0 then Z.max (len l + end_) 0 else Z.min end_ (len l) in
  firstn (Z.to_nat (final - k)) (skipn (Z.to_nat k) l).

(** The half-open segment [l[lo : hi]] of the specification, on natural
    indices. *)
Definition segment (l : list A) (lo hi : nat) : list A :=
  firstn (hi - lo) (skipn lo l).
End Arrays.

(** ** The FileBatcher object *)

(** The four fields the constructor sets. *)
Record FileBatcher : Type := mkFileBatcher {
  batchSize : Z;
  verbose : bool;
  dryRun : bool;
  delay : Z
}.

(** The [options] argument of the constructor; [None] is a property that is
    absent ([undefined]). *)
Record Options : Type := mkOptions {
  opt_batchSize : option Z;
  opt_verbose : option bool;
  opt_dryRun : option bool;
  opt_delay : option Z
}.

(** [options = {}] *)
Definition no_options : Options := mkOptions None None None None.

(** [v || d] on a number: [undefined] and [0] are falsy. *)
Definition or_number (v : option Z) (d : Z) : Z :=
  match v with
  | None => d
  | Some 0 => d
  | Some n => n
  end.

(** [v || false] on a boolean. *)
Definition or_false (v : option bool) : bool :=
  match v with
  | None => false
  | Some b => b || false
  end.

Definition constructor (options : Options) : FileBatcher :=
  {| batchSize := or_number (opt_batchSize options) 50;
     verbose := or_false (opt_verbose options);
     dryRun := or_false (opt_dryRun options);
     delay := or_number (opt_delay options) 100 |}.

(** ** createBatches *)

Section CreateBatches.
Context {A : Type}.

(** The loop [for (let i = 0; i < files.length; i += this.batchSize)]
    entered with counter [i] and accumulator [batches]. *)
Fixpoint createBatches_loop (fuel : nat) (size : Z) (files : list A)
         (i : Z) (batches : list (list A)) : option (list (list A)) :=
  match fuel with
  | O => None
  | S fuel' =>
      if i <? len files
      then createBatches_loop fuel' size files (i + size)
             (batches ++ [slice files i (i + size)])
      else Some batches
  end.

Definition createBatches (fuel : nat) (this : FileBatcher) (files : list A)
  : option (list (list A)) :=
  createBatches_loop fuel (batchSize this) files 0 [].
End CreateBatches.

(** ** The partition of the specification *)

(** [ceil(n / s)] for a positive [s]. *)
Definition ceil_div (n s : nat) : nat := ((n + s - 1) / s)%nat.

(** Batch [k] as the specification words it:
    [items[k*S : min((k+1)*S, N)]]. *)
Definition spec_batch {A} (items : list A) (size k : nat) : list A :=
  segment items (k * size) (Nat.min ((k + 1) * size) (List.length items)).

(** The [ceil(N/S)] batches of the specification, in order. *)
Definition spec_batches {A} (items : list A) (size : nat) : list (list A) :=
  map (spec_batch items size) (seq 0 (ceil_div (List.length items) size)).

(** ** Strings *)

(** The decimal rendering of an integer inside a template literal. *)
Definition num (z : Z) : string := NilZero.string_of_int (Z.to_int z).

(** A template literal: its pieces, concatenated. *)
Definition template (pieces : list string) : string := String.concat EmptyString pieces.

(** The double-quote character, as a one-character string. *)
Definition dquote : string := String (ascii_of_nat 34) EmptyString.

(** The line-feed character. *)
Definition newline : ascii := ascii_of_nat 10.

(** [str.split('\n')]: the pieces between line feeds; the empty string
    yields one empty piece. *)
Fixpoint split_lines (s : string) : list string :=
  match s with
  | EmptyString => [EmptyString]
  | String c rest =>
      if Ascii.eqb c newline then EmptyString :: split_lines rest
      else match split_lines rest with
           | [] => [String c EmptyString]
           | first :: others => String c first :: others
           end
  end.

(** [str.startsWith(p)] *)
Fixpoint startsWith (s p : string) {struct p} : bool :=
  match p, s with
  | EmptyString, _ => true
  | String a p', String b s' => (Ascii.eqb a b && startsWith s' p')%bool
  | String _ _, EmptyString => false
  end.

(** [str.substring(n)] for a non-negative [n]. *)
Fixpoint substring_from (n : nat) (s : string) : string :=
  match n, s with
  | O, _ => s
  | S n', String _ rest => substring_from n' rest
  | S _, EmptyString => EmptyString
  end.

(** White space removed by [trim] (the ASCII part of it). *)
Definition is_space (c : ascii) : bool :=
  let n := nat_of_ascii c in
  (Nat.eqb n 32 || (Nat.leb 9 n && Nat.leb n 13))%bool.

(** Truthiness of [line.trim()]: some character is not white space. *)
Fixpoint trim_nonempty (s : string) : bool :=
  match s with
  | EmptyString => false
  | String c rest => (negb (is_space c) || trim_nonempty rest)%bool
  end.

(** ** Effects *)

(** The three commands handed to [execSync]. The options passed along
    ([stdio], [maxBuffer], [encoding]) do not change what the program does
    next and are left out. *)
Inductive command : Type :=
| GitAdd (batch : list string)
| GitCommit (message : string)
| GitStatus.

(** The command line [execSync] receives. *)
Definition command_line (c : command) : string :=
  match c with
  | GitAdd batch =>
      template ["git add ";
                String.concat " " (map (fun f => template [dquote; f; dquote]) batch)]
  | GitCommit commitMessage =>
      template ["git commit -m "; dquote; commitMessage; dquote]
  | GitStatus => "git status --porcelain"
  end.

(** What the child process did: it exited normally with some output, or
    [execSync] throws an error with the given message. *)
Inductive exec_result : Type :=
| Done (stdout : string)
| Failed (cause : string).

(** Thrown values: an [Error] built by this module, or the error that
    [execSync] throws for a failed command. *)
Inductive error : Type :=
| Error (message : string)
| ExecError (c : command) (message : string).

Definition error_message (e : error) : string :=
  match e with
  | Error m => m
  | ExecError _ m => m
  end.

(** One observable effect. *)
Inductive event : Type :=
| EvExec (c : command) (r : exec_result)
| EvLog (line : string)
| EvError (line : string)
| EvSleep (ms : Z).

(** How a computation ends: with a value, with a thrown error, or not within
    the fuel given to a loop. *)
Inductive outcome (T : Type) : Type :=
| Return (v : T)
| Throw (e : error)
| Running.
Arguments Return {T} v.
Arguments Throw {T} e.
Arguments Running {T}.

(** The result of [analyzeGitStatus]. *)
Record AnalysisResult : Type := mkAnalysis {
  needsBatching : bool;
  fileCount : Z;
  files : list string
}.

(** A parameter with a default value, [name = value] in a parameter list:
    the default stands in when the argument is left out. *)
Definition or_default {T} (argument : option T) (default : T) : T :=
  match argument with
  | Some v => v
  | None => default
  end.

(** ** The effect monad *)

Section Runner.
(** The world outside the program (the repository, the file system) and
    the child process that [execSync] runs in it. *)
Variable World : Type.
Variable run_process : World -> command -> exec_result * World.

(** A finished (or interrupted) computation: how it ended, the world it
    left, and the effects it performed, oldest first. *)
Record result (T : Type) : Type := mkResult {
  ending : outcome T;
  world_after : World;
  events : list event
}.
Arguments mkResult {T}.
Arguments ending {T}.
Arguments world_after {T}.
Arguments events {T}.

Definition M (T : Type) : Type := World -> result T.

Definition ret {T} (v : T) : M T := fun w => mkResult (Return v) w [].

Definition throw {T} (e : error) : M T := fun w => mkResult (Throw e) w [].

(** A loop that has not finished within its fuel. *)
Definition running {T} : M T := fun w => mkResult Running w [].

Definition bind {T U} (m : M T) (k : T -> M U) : M U :=
  fun w =>
    match m w with
    | mkResult (Return v) w1 evs =>
        match k v w1 with
        | mkResult o w2 evs' => mkResult o w2 (evs ++ evs')
        end
    | mkResult (Throw e) w1 evs => mkResult (Throw e) w1 evs
    | mkResult Running w1 evs => mkResult Running w1 evs
    end.

(** [try { body } catch (error) { handler }] *)
Definition try_catch {T} (body : M T) (handler : error -> M T) : M T :=
  fun w =>
    match body w with
    | mkResult (Throw e) w1 evs =>
        match handler e w1 with
        | mkResult o w2 evs' => mkResult o w2 (evs ++ evs')
        end
    | r => r
    end.

Definition emit (e : event) : M unit := fun w => mkResult (Return tt) w [e].

(** [console.log(line)] *)
Definition console_log (line : string) : M unit := emit (EvLog line).

(** [console.error(label, detail)]: the arguments separated by a space. *)
Definition console_error (label detail : string) : M unit :=
  emit (EvError (template [label; " "; detail])).

(** [await this.sleep(ms)] *)
Definition sleep (ms : Z) : M unit := emit (EvSleep ms).

(** [execSync(command, ...)]: returns the output of the child process, or
    throws when it fails. *)
Definition execSync (c : command) : M string :=
  fun w =>
    let (r, w') := run_process w c in
    match r with
    | Done out => mkResult (Return out) w' [EvExec c r]
    | Failed cause => mkResult (Throw (ExecError c cause)) w' [EvExec c r]
    end.

(** [if (b) { m }] *)
Definition when (b : bool) (m : M unit) : M unit := if b then m else ret tt.

Notation "x <- m ;; k" := (bind m (fun x => k))
  (at level 61, m at next level, right associativity).
Notation "m ;; k" := (bind m (fun _ => k))
  (at level 61, right associativity).

(** ** addFilesBatched *)

(** The body of the [for] loop over [batches], entered at index [i] with
    the batches from [i] on still to do; [total] is [batches.length]. *)
Fixpoint addFiles_loop (this : FileBatcher) (total i : Z)
         (rest : list (list string)) : M unit :=
  match rest with
  | [] => ret tt
  | batch :: rest' =>
      let batchNum := i + 1 in
      when (verbose this)
        (console_log (template ["Processing batch "; num batchNum; "/"; num total;
                                " ("; num (len batch); " files)"])) ;;
      try_catch
        ((if negb (dryRun this)
          then _ <- execSync (GitAdd batch) ;; ret tt
          else console_log (template ["[DRY RUN] Would add: ";
                                      String.concat ", " batch])) ;;
         when ((i <? total - 1) && (delay this >? 0))%bool (sleep (delay this)))
        (fun error =>
           console_error (template ["Error processing batch "; num batchNum; ":"])
                         (error_message error) ;;
           throw error) ;;
      addFiles_loop this total (i + 1) rest'
  end.

Definition addFilesBatched (fuel : nat) (this : FileBatcher)
           (files : list string) : M unit :=
  if len files =? 0
  then throw (Error "Files must be a non-empty array")
  else
    match createBatches fuel this files with
    | None => running
    | Some batches =>
        when (verbose this)
          (console_log (template ["Adding "; num (len files); " files in ";
                                  num (len batches); " batches of max ";
                                  num (batchSize this); " files each"])) ;;
        addFiles_loop this (len batches) 0 batches ;;
        when (verbose this && negb (dryRun this))%bool
          (console_log (template ["Successfully added "; num (len files);
                                  " files to git staging area"]))
    end.

(** ** commitFilesBatched *)

(** The message of the commit of batch [batchNum] out of [totalBatches]. *)
Definition commitMessage (baseMessage : string) (batchNum totalBatches : Z) : string :=
  if totalBatches >? 1
  then template [baseMessage; " (batch "; num batchNum; "/"; num totalBatches; ")"]
  else baseMessage.

Fixpoint commitFiles_loop (fuel : nat) (this : FileBatcher) (baseMessage : string)
         (totalBatches i : Z) (rest : list (list string)) : M unit :=
  match rest with
  | [] => ret tt
  | batch :: rest' =>
      let batchNum := i + 1 in
      addFilesBatched fuel this batch ;;
      (if negb (dryRun this)
       then _ <- execSync (GitCommit (commitMessage baseMessage batchNum totalBatches)) ;;
            ret tt
       else console_log (template ["[DRY RUN] Would commit with message: "; dquote;
                                   commitMessage baseMessage batchNum totalBatches;
                                   dquote])) ;;
      when (verbose this)
        (console_log (template ["Committed batch "; num batchNum; "/";
                                num totalBatches])) ;;
      when ((i <? totalBatches - 1) && (delay this >? 0))%bool (sleep (delay this)) ;;
      commitFiles_loop fuel this baseMessage totalBatches (i + 1) rest'
  end.

(** [baseMessage] is [None] when the caller leaves the argument out. *)
Definition commitFilesBatched (fuel : nat) (this : FileBatcher)
           (files : list string) (baseMessage : option string) : M unit :=
  let baseMessage := or_default baseMessage "Add files" in
  match createBatches fuel this files with
  | None => running
  | Some batches => commitFiles_loop fuel this baseMessage (len batches) 0 batches
  end.

(** ** analyzeGitStatus *)

(** The filter on the lines of the status report. *)
Definition unstaged_line (line : string) : bool :=
  (trim_nonempty line &&
   (startsWith line "??" || startsWith line " M" || startsWith line " A"))%bool.

Definition unstagedFiles_of (status : string) : list string :=
  map (substring_from 3) (filter unstaged_line (split_lines status)).

Definition analyzeGitStatus (this : FileBatcher) : M AnalysisResult :=
  try_catch
    (status <- execSync GitStatus ;;
     let unstagedFiles := unstagedFiles_of status in
     if len unstagedFiles >? batchSize this
     then
       console_log (template ["⚠️  Found "; num (len unstagedFiles);
                              " unstaged files."]) ;;
       console_log "💡 Consider using batched operations for better performance." ;;
       console_log (template ["   Recommended batch size: "; num (batchSize this);
                              " files"]) ;;
       ret {| needsBatching := true;
              fileCount := len unstagedFiles;
              files := unstagedFiles |}
     else
       ret {| needsBatching := false;
              fileCount := len unstagedFiles;
              files := unstagedFiles |})
    (fun error =>
       throw (Error (template ["Failed to analyze git status: ";
                               error_message error]))).
End Runner.

Arguments ending {World T}.
Arguments world_after {World T}.
Arguments events {World T}.

(** ** Observations on a trace *)

(** The commands given to [execSync], each with what became of it. *)
Fixpoint exec_events (evs : list event) : list (command * exec_result) :=
  match evs with
  | [] => []
  | EvExec c r :: rest => (c, r) :: exec_events rest
  | _ :: rest => exec_events rest
  end.

(** The stage invocations ([git add]) of a log with their results, and the
    commit invocations ([git commit]) with theirs. *)
Fixpoint stage_results (log : list (command * exec_result))
  : list (list string * exec_result) :=
  match log with
  | [] => []
  | (GitAdd batch, r) :: rest => (batch, r) :: stage_results rest
  | _ :: rest => stage_results rest
  end.

Fixpoint commit_results (log : list (command * exec_result))
  : list (string * exec_result) :=
  match log with
  | [] => []
  | (GitCommit m, r) :: rest => (m, r) :: commit_results rest
  | _ :: rest => commit_results rest
  end.

(** The batches for which the stage action was invoked, and the messages
    with which the commit action was invoked. *)
Definition staged (evs : list event) : list (list string) :=
  map fst (stage_results (exec_events evs)).

Definition committed (evs : list event) : list string :=
  map fst (commit_results (exec_events evs)).

(** The durations of the suspensions. *)
Fixpoint sleeps (evs : list event) : list Z :=
  match evs with
  | [] => []
  | EvSleep ms :: rest => ms :: sleeps rest
  | _ :: rest => sleeps rest
  end.

(** Console output only: no child process, no suspension. *)
Definition console_only (evs : list event) : Prop :=
  Forall (fun e => match e with
                   | EvLog _ | EvError _ => True
                   | _ => False
                   end) evs.

Definition succeeded (r : exec_result) : bool :=
  match r with
  | Done _ => true
  | Failed _ => false
  end.

(** The commands a commit run issues when nothing fails: stage then commit,
    batch after batch. *)
Fixpoint commit_plan (baseMessage : string) (totalBatches i : Z)
         (batches : list (list string)) : list command :=
  match batches with
  | [] => []
  | batch :: rest =>
      GitAdd batch :: GitCommit (commitMessage baseMessage (i + 1) totalBatches)
        :: commit_plan baseMessage totalBatches (i + 1) rest
  end.

(** The messages of those commits. *)
Fixpoint commit_messages (baseMessage : string) (totalBatches i : Z)
         (batches : list (list string)) : list string :=
  match batches with
  | [] => []
  | _ :: rest =>
      commitMessage baseMessage (i + 1) totalBatches
        :: commit_messages baseMessage totalBatches (i + 1) rest
  end.

(** Whether the loops pause after the batch at index [i] out of [total]. *)
Definition pauses (this : FileBatcher) (total i : Z) : bool :=
  ((i <? total - 1) && (delay this >? 0))%bool.

(** The event by which a batch is handled: its stage action in a real run,
    its preview in a dry run. *)
Definition handles (batch : list string) (e : event) : Prop :=
  match e with
  | EvExec (GitAdd b) _ => b = batch
  | EvLog line =>
      line = template ["[DRY RUN] Would add: "; String.concat ", " batch]
  | _ => False
  end.

(** The events of one batch: the batch is handled, and there is no pause
    inside. *)
Definition block_of (batch : list string) (block : list event) : Prop :=
  sleeps block = [] /\ Exists (handles batch) block.

(** Blocks of events with the same pause between consecutive blocks, and
    none after the last. *)
Fixpoint interleave_pauses (pause : list event) (blocks : list (list event))
  : list event :=
  match blocks with
  | [] => []
  | [block] => block
  | block :: rest => block ++ pause ++ interleave_pauses pause rest
  end.

(** The pause between two batches: one suspension when the delay is
    positive, nothing otherwise. *)
Definition pause_of (this : FileBatcher) : list event :=
  if delay this >? 0 then [EvSleep (delay this)] else [].

(** A batch as the nested staging call of the commit loop needs it: not
    empty, within the batch size, and shorter than the fuel. *)
Definition fits (this : FileBatcher) (fuel : nat) (batch : list string) : Prop :=
  (1 <= List.length batch <= Z.to_nat (batchSize this))%nat
  /\ (List.length batch < fuel)%nat.

Section Sequential.
Variable World : Type.
Variable run_process : World -> command -> exec_result * World.

(** A list of commands run one after the other, stopping after the first
    one that fails. *)
Fixpoint run_plan (w : World) (plan : list command) : list (command * exec_result) :=
  match plan with
  | [] => []
  | c :: rest =>
      let (r, w') := run_process w c in
      (c, r) :: (if succeeded r then run_plan w' rest else [])
  end.

(** The world that [run_plan] leaves. *)
Fixpoint plan_world (w : World) (plan : list command) : World :=
  match plan with
  | [] => w
  | c :: rest =>
      let (r, w') := run_process w c in
      if succeeded r then plan_world w' rest else w'
  end.
End Sequential.

(** An invocation that went well. *)
Definition fine {X} (x : X * exec_result) : Prop := succeeded (snd x) = true.

(** The error of the first failed command of a log, if any. *)
Fixpoint first_failure (log : list (command * exec_result)) : option error :=
  match log with
  | [] => None
  | (c, Failed cause) :: _ => Some (ExecError c cause)
  | (_, Done _) :: rest => first_failure rest
  end.

(** How a run ends whose commands went as the log says. *)
Definition ending_of (log : list (command * exec_result)) : outcome unit :=
  match first_failure log with
  | Some e => Throw e
  | None => Return tt
  end.

(** The lines printed on the console, by [console.log] or by
    [console.error], oldest first. *)
Fixpoint console_lines (evs : list event) : list string :=
  match evs with
  | [] => []
  | EvLog line :: rest => line :: console_lines rest
  | EvError line :: rest => line :: console_lines rest
  | _ :: rest => console_lines rest
  end.

(** The previews of a dry run: the line printed in place of the stage
    action of a batch, and the one printed in place of a commit. *)
Definition add_preview (batch : list string) : string :=
  template ["[DRY RUN] Would add: "; String.concat ", " batch].

Definition commit_preview (message : string) : string :=
  template ["[DRY RUN] Would commit with message: "; dquote; message; dquote].

(** The previews of a dry commit run over [batches], numbered from [i]:
    for each batch the preview of its stage action, then that of its
    commit. *)
Fixpoint dry_commit_lines (baseMessage : string) (totalBatches i : Z)
         (batches : list (list string)) : list string :=
  match batches with
  | [] => []
  | batch :: rest =>
      add_preview batch
        :: commit_preview (commitMessage baseMessage (i + 1) totalBatches)
        :: dry_commit_lines baseMessage totalBatches (i + 1) rest
  end.

(** The progress line that follows the commit of batch [batchNum] in a
    verbose run. *)
Definition committed_line (batchNum totalBatches : Z) : string :=
  template ["Committed batch "; num batchNum; "/"; num totalBatches].

(** A line of the status report that starts with one of the three
    two-character status codes the analyzer recognizes: untracked,
    modified, added. *)
Definition recognized (line : string) : bool :=
  (startsWith line "??" || startsWith line " M" || startsWith line " A")%bool.

(** ** Test doubles for the child process

    The world is the number of commands run so far. *)

(** Every command succeeds and prints nothing. *)
Definition always_ok (n : nat) (c : command) : exec_result * nat :=
  (Done EmptyString, S n).

(** Command number [bad] (counting from 0) fails; the others succeed. *)
Definition failing_at (bad : nat) (n : nat) (c : command) : exec_result * nat :=
  (if Nat.eqb n bad then Failed "fatal: Unable to create index.lock"
   else Done EmptyString,
   S n).

(** A repository whose status report is [report]. *)
Definition reporting (report : string) (n : nat) (c : command) : exec_result * nat :=
  (Done match c with
        | GitStatus => report
        | _ => EmptyString
        end,
   S n).

(** [count] copies of [line], each ended by a line feed. *)
Definition lines_of (count : nat) (line : string) : string :=
  String.concat EmptyString
    (repeat (template [line; String newline EmptyString]) count).

(** ** What a run does, its console output apart *)

(** The [stdio] option of [execSync]: whether the output of the child
    process goes where the output of the program goes, or into a buffer
    that [execSync] returns and, on failure, puts into the message of
    the error. *)
Inductive stdio : Type :=
| Inherit
| Pipe.

(** [stdio: this.verbose ? 'inherit' : 'pipe'], as both runners pass it. *)
Definition stdio_of (this : FileBatcher) : stdio :=
  if verbose this then Inherit else Pipe.

(** An error without the text that a failed command puts into it. *)
Definition error_kind (e : error) : error :=
  match e with
  | Error message => Error message
  | ExecError c _ => ExecError c EmptyString
  end.

(** How a run ended, the text of a command's failure apart. *)
Definition ending_kind {T} (o : outcome T) : outcome unit :=
  match o with
  | Return _ => Return tt
  | Throw e => Throw (error_kind e)
  | Running => Running
  end.

Section Observation.
Variable World : Type.

(** The outline of a run: how it ended, the world it left, the commands
    it executed, each with whether it succeeded, and the pauses it made. *)
Definition outline {T} (r : result World T)
  : outcome unit * World * list (command * bool) * list Z :=
  (ending_kind (ending r), world_after r,
   map (fun x => (fst x, succeeded (snd x))) (exec_events (events r)),
   sleeps (events r)).

(** Two computations with the same outline in every world. *)
Definition alike {T U} (m1 : M World T) (m2 : M World U) : Prop :=
  forall w, outline (m1 w) = outline (m2 w).

(** A computation that runs no child process and leaves the world as it
    was. *)
Definition leaves_alone {T} (m : M World T) : Prop :=
  forall w, exec_events (events (m w)) = [] /\ world_after (m w) = w.

(** The child process as [execSync] starts it under each [stdio]. *)
Variable run_child : stdio -> World -> command -> exec_result * World.

(** A child process of which [stdio] changes the text only: under
    ['inherit'] and under ['pipe'] a command succeeds or fails alike and
    leaves the same world; what it prints, what [execSync] returns and
    the text of its failure may differ. *)
Definition stdio_changes_text_only : Prop :=
  forall w c,
    snd (run_child Inherit w c) = snd (run_child Pipe w c)
    /\ succeeded (fst (run_child Inherit w c))
       = succeeded (fst (run_child Pipe w c)).
End Observation.

(** Test doubles for the child process under each [stdio]. With
    [terse_when_inherited] command number [bad] fails, with a longer text
    under ['pipe']; with [overflowing] every command prints more than
    [maxBuffer] holds, which makes [execSync] fail under ['pipe'] only. *)
Definition terse_when_inherited (bad : nat) (s : stdio) (n : nat) (c : command)
  : exec_result * nat :=
  (if Nat.eqb n bad
   then Failed match s with
               | Inherit => "Command failed: git add"
               | Pipe => "Command failed: git add; fatal: Unable to create index.lock"
               end
   else Done match s with
             | Inherit => EmptyString
             | Pipe => "add 'a.js'"
             end,
   S n).

Definition overflowing (s : stdio) (n : nat) (c : command) : exec_result * nat :=
  (match s with
   | Inherit => Done EmptyString
   | Pipe => Failed "spawnSync /bin/sh ENOBUFS"
   end,
   S n).


(** ** createBatches in a bounded memory *)

(** How the loop of [createBatches] ends on a machine whose memory holds
    an array of [capacity] batches at most: it returns the batches, or it
    runs out of memory at a [push] (and the process is aborted), or it is
    still turning when the fuel is spent. *)
Inductive loop_end (A : Type) : Type :=
| Returned (batches : list (list A))
| OutOfMemory (batches : list (list A))
| Turning.
Arguments Returned {A} batches.
Arguments OutOfMemory {A} batches.
Arguments Turning {A}.

(** The loop of [createBatches_loop], with the bound on the array that
    the unbounded list of the model leaves out. *)
Fixpoint createBatches_bounded {A} (capacity fuel : nat) (size : Z) (files : list A)
         (i : Z) (batches : list (list A)) : loop_end A :=
  match fuel with
  | O => Turning
  | S fuel' =>
      if i <? len files
      then
        if Nat.ltb (List.length batches) capacity
        then createBatches_bounded capacity fuel' size files (i + size)
               (batches ++ [slice files i (i + size)])
        else OutOfMemory batches
      else Returned batches
  end.

(** ** findFiles *)

(** [str.includes(p)]: [p] occurs somewhere in [str]. *)
Fixpoint includes (s p : string) : bool :=
  (startsWith s p
   || match s with
      | EmptyString => false
      | String _ rest => includes rest p
      end)%bool.

(** What [fs.statSync] says a path is; [isDirectory()] and [isFile()] are
    both false for the third kind (a socket, a device, ...). *)
Inductive file_kind : Type :=
| IsDirectory
| IsFile
| IsOther.

(** A call into [fs]: it returns, or it throws. *)
Inductive fs_result (T : Type) : Type :=
| FsOk (v : T)
| FsThrows (e : error).
Arguments FsOk {T} v.
Arguments FsThrows {T} e.

Definition defaultExcludes : list string :=
  [".git"; "node_modules"; ".DS_Store"; "Thumbs.db"].

(** [allExcludes.some(pattern => relativePath.includes(pattern))] *)
Definition excluded (allExcludes : list string) (relativePath : string) : bool :=
  existsb (fun pattern => includes relativePath pattern) allExcludes.

Section FindFiles.
(** The file system as it is during the walk, and the two functions of
    [path] the walk uses: [path.join(dir, item)] and
    [path.relative(process.cwd(), fullPath)]. *)
Variable join : string -> string -> string.
Variable relative : string -> string.
Variable readdirSync : string -> fs_result (list string).
Variable statSync : string -> fs_result file_kind.

(** The loop [for (const item of items)] of [walkDir(dir)], with the array
    [files] that the pushes extend; [walk] is the recursive call. *)
Fixpoint walk_items (walk : string -> list string -> outcome (list string))
         (allExcludes : list string) (dir : string)
         (items : list string) (files : list string) : outcome (list string) :=
  match items with
  | [] => Return files
  | item :: rest =>
      let fullPath := join dir item in
      let relativePath := relative fullPath in
      if excluded allExcludes relativePath
      then walk_items walk allExcludes dir rest files
      else
        match statSync fullPath with
        | FsThrows e => Throw e
        | FsOk IsDirectory =>
            match walk fullPath files with
            | Return files' => walk_items walk allExcludes dir rest files'
            | other => other
            end
        | FsOk IsFile =>
            walk_items walk allExcludes dir rest (files ++ [relativePath])
        | FsOk IsOther => walk_items walk allExcludes dir rest files
        end
  end.

(** [walkDir(dir)]; the fuel bounds the depth of the recursion. *)
Fixpoint walkDir (fuel : nat) (allExcludes : list string) (dir : string)
         (files : list string) : outcome (list string) :=
  match fuel with
  | O => Running
  | S fuel' =>
      match readdirSync dir with
      | FsThrows e => Throw e
      | FsOk items =>
          walk_items (walkDir fuel' allExcludes) allExcludes dir items files
      end
  end.

(** [excludePatterns] is [None] when the caller leaves the argument out. *)
Definition findFiles (fuel : nat) (directory : string)
           (excludePatterns : option (list string)) : outcome (list string) :=
  let allExcludes := defaultExcludes ++ or_default excludePatterns [] in
  walkDir fuel allExcludes directory [].

(** The directories the walk enters from [dir]: [dir] itself, and what is
    entered from each sub-directory of it that is not excluded. *)
Inductive walked (allExcludes : list string) : string -> string -> Prop :=
| walked_here dir : walked allExcludes dir dir
| walked_below dir items item d :
    readdirSync dir = FsOk items ->
    In item items ->
    excluded allExcludes (relative (join dir item)) = false ->
    statSync (join dir item) = FsOk IsDirectory ->
    walked allExcludes (join dir item) d ->
    walked allExcludes dir d.

(** A relative path the walk from [root] should report: that of a regular
    file, not excluded, in a directory the walk enters. *)
Definition listed (allExcludes : list string) (root : string) (p : string) : Prop :=
  exists d items item,
    walked allExcludes root d
    /\ readdirSync d = FsOk items
    /\ In item items
    /\ excluded allExcludes (relative (join d item)) = false
    /\ statSync (join d item) = FsOk IsFile
    /\ p = relative (join d item).

(** What a walk from [dir] that returns [out] has done to the array
    [files]: it has appended listed paths, and all of them. *)
Definition walk_ok (allExcludes : list string) (dir : string)
           (files out : list string) : Prop :=
  (exists new, out = files ++ new /\ Forall (listed allExcludes dir) new)
  /\ forall p, listed allExcludes dir p -> In p out.
End FindFiles.

(** A small tree for examples: a repository with its [.git] and [.github]
    directories, a file, and a [src] directory that holds two files and a
    [node_modules] directory. Paths are relative to the working
    directory, which is the directory walked. *)
Definition tree_join (dir item : string) : string :=
  if String.eqb dir "." then item else template [dir; "/"; item].

Definition tree_readdir (dir : string) : fs_result (list string) :=
  if String.eqb dir "." then FsOk [".git"; ".github"; "README.md"; "src"]
  else if String.eqb dir "src" then FsOk ["index.js"; "node_modules"; "util.js"]
  else if String.eqb dir ".github" then FsOk ["ci.yml"]
  else FsThrows (Error "ENOENT: no such file or directory").

Definition tree_stat (p : string) : fs_result file_kind :=
  if existsb (String.eqb p) [".git"; ".github"; "src"; "src/node_modules"]
  then FsOk IsDirectory
  else FsOk IsFile.

(** An empty directory. *)
Definition empty_readdir (dir : string) : fs_result (list string) := FsOk [].

(** ** The command line *)

(** [str.split(sep)] for a separator of one character. *)
Fixpoint split_at (sep : ascii) (s : string) : list string :=
  match s with
  | EmptyString => [EmptyString]
  | String c rest =>
      if Ascii.eqb c sep then EmptyString :: split_at sep rest
      else match split_at sep rest with
           | [] => [String c EmptyString]
           | first :: others => String c first :: others
           end
  end.

(** The value of a character as a digit, up to hexadecimal. *)
Definition digit_of (c : ascii) : option Z :=
  let n := nat_of_ascii c in
  if (Nat.leb 48 n && Nat.leb n 57)%bool then Some (Z.of_nat (n - 48))
  else if (Nat.leb 97 n && Nat.leb n 102)%bool then Some (Z.of_nat (n - 87))
  else if (Nat.leb 65 n && Nat.leb n 70)%bool then Some (Z.of_nat (n - 55))
  else None.

(** The number written by the longest prefix of [s] made of digits of the
    radix, after the digits already read ([acc], [None] when none was). *)
Fixpoint read_digits (radix : Z) (s : string) (acc : option Z) : option Z :=
  match s with
  | EmptyString => acc
  | String c rest =>
      match digit_of c with
      | Some v =>
          if v <? radix
          then read_digits radix rest (Some (radix * or_default acc 0 + v))
          else acc
      | None => acc
      end
  end.

(** Leading white space, skipped. *)
Fixpoint skip_spaces (s : string) : string :=
  match s with
  | String c rest => if is_space c then skip_spaces rest else s
  | EmptyString => s
  end.

(** The sign in front of the digits, and what follows it. *)
Definition read_sign (s : string) : Z * string :=
  match s with
  | String c rest =>
      if Ascii.eqb c "-" then (-1, rest)
      else if Ascii.eqb c "+" then (1, rest)
      else (1, s)
  | EmptyString => (1, s)
  end.

(** The radix: sixteen after [0x] or [0X], ten otherwise. *)
Definition read_radix (s : string) : Z * string :=
  if (startsWith s "0x" || startsWith s "0X")%bool
  then (16, substring_from 2 s)
  else (10, s).

(** [parseInt(input)] without a radix: white space, a sign, [0x] for
    hexadecimal, then digits; [None] is [NaN]. An argument that is
    [undefined] is read as the string "undefined". The result is the
    number read when that is a safe integer ([isSafeInteger]); beyond
    that JS rounds, and the model does not. *)
Definition parseInt (input : option string) : option Z :=
  let signed := read_sign (skip_spaces (or_default input "undefined")) in
  let based := read_radix (snd signed) in
  option_map (Z.mul (fst signed)) (read_digits (fst based) (snd based) None).

(** [Number.isSafeInteger(n)]: the integers a JS number holds exactly. *)
Definition isSafeInteger (n : Z) : Prop := Z.abs n <= 9007199254740991.

(** [args.find(arg => arg.startsWith(name))?.split('=')[1]] *)
Definition option_value (args : list string) (name : string) : option string :=
  match find (fun arg => startsWith arg name) args with
  | Some arg => nth_error (split_at "=" arg) 1
  | None => None
  end.

(** [args.includes(flag)] *)
Definition has_flag (args : list string) (flag : string) : bool :=
  existsb (String.eqb flag) args.

(** The [options] object the command line builds. *)
Definition cli_options (args : list string) : Options :=
  {| opt_batchSize := Some (or_number (parseInt (option_value args "--batch-size=")) 50);
     opt_verbose := Some (has_flag args "--verbose" || has_flag args "-v")%bool;
     opt_dryRun := Some (has_flag args "--dry-run");
     opt_delay := Some (or_number (parseInt (option_value args "--delay=")) 100) |}.

(** [v || d] on a string: [undefined] and the empty string are falsy. *)
Definition or_string (v : option string) (d : string) : string :=
  match v with
  | None => d
  | Some EmptyString => d
  | Some s => s
  end.

(** [command === name] *)
Definition is_command (command : option string) (name : string) : bool :=
  match command with
  | Some c => String.eqb c name
  | None => false
  end.

Definition help_text : string :=
  template ["
File Batching Utilities

Usage:
  node file-batch-utils.js <command> [options]

Commands:
  analyze                    - Analyze current git status and suggest batching
  add [directory]           - Add files from directory in batches
  commit [directory] [msg]  - Add and commit files in batches
  help                      - Show this help

Options:
  --batch-size=N            - Number of files per batch (default: 50)
  --delay=N                 - Delay between batches in ms (default: 100)
  --verbose, -v             - Verbose output
  --dry-run                 - Show what would be done without executing

Examples:
  node file-batch-utils.js analyze
  node file-batch-utils.js add src --batch-size=25 --verbose
  node file-batch-utils.js commit . "; dquote; "Add new features"; dquote; " --dry-run
                    "].

Section CommandLine.
Variable World : Type.
Variable run_process : World -> command -> exec_result * World.
Variable join : string -> string -> string.
Variable relative : string -> string.
Variable readdirSync : string -> fs_result (list string).
Variable statSync : string -> fs_result file_kind.
(** [JSON.stringify(analysis, null, 2)] *)
Variable stringify : AnalysisResult -> string.

(** A computation without effects, such as [findFiles], inside a run. *)
Definition lift {T} (o : outcome T) : M World T := fun w => mkResult World T o w [].

(** The [switch (command)] statement inside the [try] block of
    [runCommand()]. The walk of [findFiles] and the loops of the runners
    have their own fuel. *)
Definition switch_command (depth fuel : nat) (args : list string)
           (batcher : FileBatcher) : M World unit :=
  let command := nth_error args 0 in
  if is_command command "analyze" then
    bind World (analyzeGitStatus World run_process batcher)
      (fun analysis => console_log World (stringify analysis))
  else if is_command command "add" then
    let directory := or_string (nth_error args 1) "." in
    bind World
      (lift (findFiles join relative readdirSync statSync depth directory None))
      (fun files => addFilesBatched World run_process fuel batcher files)
  else if is_command command "commit" then
    let commitDir := or_string (nth_error args 1) "." in
    let message := or_string (nth_error args 2) "Add files in batches" in
    bind World
      (lift (findFiles join relative readdirSync statSync depth commitDir None))
      (fun commitFiles =>
         commitFilesBatched World run_process fuel batcher commitFiles
           (Some message))
  else console_log World help_text.

(** [runCommand()] for the arguments [args] and the object [batcher] built
    from them; the value returned is the exit code of the process: [1]
    after [process.exit(1)], [0] when the function simply ends. *)
Definition runCommand (depth fuel : nat) (args : list string) (batcher : FileBatcher)
  : M World Z :=
  try_catch World
    (bind World (switch_command depth fuel args batcher) (fun _ => ret World 0))
    (fun error =>
       bind World (console_error World "Error:" (error_message error))
         (fun _ => ret World 1)).

(** The script run as a program with the arguments [args]
    ([process.argv.slice(2)]). *)
Definition main (depth fuel : nat) (args : list string) : M World Z :=
  runCommand depth fuel args (constructor (cli_options args)).
End CommandLine.


(** ** The demonstration script: createDemoFiles *)

(** [str.padStart(targetLength, pad)] for a pad of one character: a string
    that is long enough already is returned as it is. *)
Definition padStart (targetLength : nat) (pad : ascii) (s : string) : string :=
  (string_of_list_ascii (repeat pad (targetLength - String.length s)) ++ s)%string.

(** [Math.ceil(a / b)] for an integer [a] and a positive integer [b]. *)
Definition Math_ceil (a b : Z) : Z := - ((- a) / b).

Definition subdirs : list string :=
  ["components"; "utils"; "services"; "assets"; "tests"].

(** [`file${fileNum.toString().padStart(3, '0')}.js`] *)
Definition demo_fileName (fileNum : Z) : string :=
  template ["file"; padStart 3 "0" (num fileNum); ".js"].

(** The text of a demo file; [created] is [new Date().toISOString()]. *)
Definition demo_content (fileNum : Z) (subdir fileName created : string) : string :=
  template ["// Demo file "; num fileNum; "
// Created for batching demonstration
// Directory: "; subdir; "

export function demoFunction"; num fileNum; "() {
    return "; dquote; "This is demo file "; num fileNum; " in "; subdir; dquote; ";
}

export default {
    id: "; num fileNum; ",
    name: "; dquote; fileName; dquote; ",
    directory: "; dquote; subdir; dquote; ",
    created: "; dquote; created; dquote; "
};
"].

(** A call into [fs] that changes the file system. *)
Inductive fs_call : Type :=
| Mkdir (path : string) (recursive : bool)
| WriteFile (path content : string).

(** The paths given to [fs.writeFileSync], oldest first. *)
Definition written_paths (calls : list fs_call) : list string :=
  flat_map (fun c => match c with
                     | WriteFile path _ => [path]
                     | Mkdir _ _ => []
                     end) calls.

(** The directories given to [fs.mkdirSync], oldest first. *)
Definition made_dirs (calls : list fs_call) : list string :=
  flat_map (fun c => match c with
                     | Mkdir path _ => [path]
                     | WriteFile _ _ => []
                     end) calls.

(** [n] consecutive integers from [a] on. *)
Definition numbers_from (a : Z) (n : nat) : list Z :=
  map (fun t => a + Z.of_nat t) (seq 0 n).

Section DemoFiles.
(** The machine the script runs on (its file system and its clock), the
    directory of the script ([__dirname]), and the functions of [path] and
    [fs] it calls. A call that changes the file system leaves a new state
    and may throw. *)
Variable Machine : Type.
Variable join : string -> string -> string.
Variable dirname : string.
Variable existsSync : Machine -> string -> bool.
Variable mkdirSync : Machine -> string -> bool -> option error * Machine.
Variable writeFileSync : Machine -> string -> string -> option error * Machine.
Variable toISOString : Machine -> string.

(** The machine together with a journal of the calls that changed its
    file system, oldest first. *)
Record Disk : Type := mkDisk {
  machine : Machine;
  journal : list fs_call
}.

Definition fs_change (call : fs_call) (change : Machine -> option error * Machine)
  : M Disk unit :=
  fun w =>
    let (failure, after) := change (machine w) in
    let w' := {| machine := after; journal := journal w ++ [call] |} in
    match failure with
    | None => mkResult Disk unit (Return tt) w' []
    | Some e => mkResult Disk unit (Throw e) w' []
    end.

(** [fs.mkdirSync(path, { recursive })] *)
Definition fs_mkdirSync (path : string) (recursive : bool) : M Disk unit :=
  fs_change (Mkdir path recursive) (fun m => mkdirSync m path recursive).

(** [fs.writeFileSync(path, content)] *)
Definition fs_writeFileSync (path content : string) : M Disk unit :=
  fs_change (WriteFile path content) (fun m => writeFileSync m path content).

(** [fs.existsSync(path)] *)
Definition fs_existsSync (path : string) : M Disk bool :=
  fun w => mkResult Disk bool (Return (existsSync (machine w) path)) w [].

(** [new Date().toISOString()] *)
Definition date_now : M Disk string :=
  fun w => mkResult Disk string (Return (toISOString (machine w))) w [].

(** [subdirs.forEach(subdir => { ... })]: each sub-directory that does not
    exist is made. *)
Fixpoint make_subdirs (demoDir : string) (rest : list string) : M Disk unit :=
  match rest with
  | [] => ret Disk tt
  | subdir :: rest' =>
      let subdirPath := join demoDir subdir in
      bind Disk (fs_existsSync subdirPath) (fun there =>
      bind Disk (when Disk (negb there) (fs_mkdirSync subdirPath false)) (fun _ =>
      make_subdirs demoDir rest'))
  end.

(** The loop [for (let j = 0; j < filesPerDir && (i * filesPerDir + j) <
    count; j++)] entered with counter [j]. *)
Fixpoint files_loop (fuel : nat) (count filesPerDir i : Z)
         (subdir subdirPath : string) (j : Z) : M Disk unit :=
  match fuel with
  | O => running Disk
  | S fuel' =>
      if ((j <? filesPerDir) && (i * filesPerDir + j <? count))%bool
      then
        let fileNum := i * filesPerDir + j + 1 in
        let fileName := demo_fileName fileNum in
        let filePath := join subdirPath fileName in
        bind Disk date_now (fun created =>
        bind Disk (fs_writeFileSync filePath
                     (demo_content fileNum subdir fileName created)) (fun _ =>
        files_loop fuel' count filesPerDir i subdir subdirPath (j + 1)))
      else ret Disk tt
  end.

(** The loop [for (let i = 0; i < subdirs.length; i++)] entered with
    counter [i]; [rest] is [subdirs] from index [i] on. *)
Fixpoint dirs_loop (fuel : nat) (count filesPerDir : Z) (demoDir : string)
         (i : Z) (rest : list string) : M Disk unit :=
  match rest with
  | [] => ret Disk tt
  | subdir :: rest' =>
      let subdirPath := join demoDir subdir in
      bind Disk (files_loop fuel count filesPerDir i subdir subdirPath 0) (fun _ =>
      dirs_loop fuel count filesPerDir demoDir (i + 1) rest')
  end.

(** [createDemoFiles(count = 100)]; the fuel is that of the inner loop. *)
Definition createDemoFiles (fuel : nat) (count : option Z) : M Disk string :=
  let count := or_default count 100 in
  let demoDir := join dirname "demo-files" in
  bind Disk (fs_existsSync demoDir) (fun there =>
  bind Disk (when Disk (negb there) (fs_mkdirSync demoDir true)) (fun _ =>
  bind Disk (console_log Disk (template ["Creating "; num count; " demo files..."]))
    (fun _ =>
  bind Disk (make_subdirs demoDir subdirs) (fun _ =>
  let filesPerDir := Math_ceil count (len subdirs) in
  bind Disk (dirs_loop fuel count filesPerDir demoDir 0 subdirs) (fun _ =>
  bind Disk (console_log Disk
               (template ["✅ Created "; num count; " demo files in "; demoDir]))
    (fun _ =>
  ret Disk demoDir)))))).

(** The path of demo file [fileNum] among [count]: the files are dealt to
    the sub-directories in runs of [ceil(count / 5)]. *)
Definition demo_path (count fileNum : Z) : string :=
  let filesPerDir := Math_ceil count (len subdirs) in
  let subdir := nth (Z.to_nat ((fileNum - 1) / filesPerDir)) subdirs EmptyString in
  join (join (join dirname "demo-files") subdir) (demo_fileName fileNum).

(** How many files the sub-directories before index [i] receive. *)
Definition dealt (count filesPerDir i : Z) : nat :=
  Z.to_nat (Z.min (i * filesPerDir) count).

(** Calls into [fs] that never throw. *)
Definition fs_never_fails : Prop :=
  (forall m path recursive, fst (mkdirSync m path recursive) = None)
  /\ (forall m path content, fst (writeFileSync m path content) = None).
End DemoFiles.

(** A file system for examples: the list of the paths that exist. Making
    a directory or writing a file adds its path; [limited_write] fails
    once the disk holds [capacity] paths. *)
Definition list_exists (m : list string) (path : string) : bool :=
  existsb (String.eqb path) m.

Definition list_mkdir (m : list string) (path : string) (recursive : bool)
  : option error * list string :=
  (None, m ++ [path]).

Definition list_write (m : list string) (path content : string)
  : option error * list string :=
  (None, m ++ [path]).

Definition limited_write (capacity : nat) (m : list string) (path content : string)
  : option error * list string :=
  if Nat.ltb (List.length m) capacity then (None, m ++ [path])
  else (Some (Error "ENOSPC: no space left on device"), m).

Definition list_clock (m : list string) : string := "2024-01-01T00:00:00.000Z".

(** [path.join] on a directory and a simple name, as POSIX has it. *)
Definition posix_join (dir item : string) : string := template [dir; "/"; item].

(** An empty disk with an empty journal. *)
Definition empty_disk : Disk (list string) := mkDisk (list string) [] [].
(** * Properties *)

(** ** Arithmetic of the batch count *)

(** [ceil_div n s] is the ceiling of [n / s]: indices below it are exactly
    those whose batch starts inside the list. *)
Lemma ceil_div_lt (n s k : nat) :
  (0 < s)%nat -> (k < ceil_div n s)%nat <-> (k * s < n)%nat.
Proof.
  intros Hs. unfold ceil_div.
  pose proof (Nat.div_mod_eq (n + s - 1) s) as E.
  pose proof (Nat.mod_upper_bound (n + s - 1) s ltac:(lia)) as U.
  set (q := ((n + s - 1) / s)%nat) in *.
  set (r := ((n + s - 1) mod s)%nat) in *.
  split; intros H; nia.
Qed.

Lemma ceil_div_le (n s : nat) : (0 < s)%nat -> (ceil_div n s <= n)%nat.
Proof.
  intros Hs. destruct (ceil_div n s) as [|b] eqn:E; [lia|].
  assert (H : (b < ceil_div n s)%nat) by lia.
  apply ceil_div_lt in H; [nia | exact Hs].
Qed.

Lemma ceil_div_cover (n s : nat) : (0 < s)%nat -> (n <= ceil_div n s * s)%nat.
Proof.
  intros Hs.
  destruct (Nat.le_gt_cases n (ceil_div n s * s)) as [H|H]; [exact H|].
  apply (ceil_div_lt n s (ceil_div n s) Hs) in H. lia.
Qed.

(** ** Segments and slices *)

Section ArrayFacts.
Context {A : Type}.
Implicit Types l : list A.

Lemma firstn_segment l lo hi :
  (lo <= hi)%nat -> firstn lo l ++ segment l lo hi = firstn hi l.
Proof.
  unfold segment. revert l hi. induction lo as [|lo IH]; intros l hi H.
  - simpl. now rewrite Nat.sub_0_r.
  - destruct hi as [|hi]; [lia|]. destruct l as [|x l]; simpl.
    + now rewrite firstn_nil.
    + f_equal. apply IH. lia.
Qed.

Lemma firstn_min_length l n : firstn (Nat.min n (List.length l)) l = firstn n l.
Proof.
  destruct (Nat.le_gt_cases n (List.length l)) as [H|H].
  - now rewrite Nat.min_l.
  - rewrite Nat.min_r by lia. rewrite !firstn_all2; trivial; lia.
Qed.

Lemma length_segment l lo hi :
  (hi <= List.length l)%nat -> List.length (segment l lo hi) = (hi - lo)%nat.
Proof.
  intros H. unfold segment. rewrite length_firstn, length_skipn. lia.
Qed.

(** Inside the array and with a non-negative width, [slice] is the
    segment of the specification. *)
Lemma slice_is_segment l (i w : nat) :
  (i <= List.length l)%nat ->
  slice l (Z.of_nat i) (Z.of_nat i + Z.of_nat w)
  = segment l i (Nat.min (i + w) (List.length l)).
Proof.
  intros H. unfold slice, segment, len.
  destruct (Z.ltb_spec (Z.of_nat i) 0) as [?|_]; [lia|].
  destruct (Z.ltb_spec (Z.of_nat i + Z.of_nat w) 0) as [?|_]; [lia|].
  f_equal; [|f_equal]; lia.
Qed.
End ArrayFacts.

(** ** createBatches computes the partition of the specification *)

Section BatcherFacts.
Context {A : Type}.
Implicit Types files : list A.

Lemma createBatches_loop_spec files (s : nat) :
  (0 < s)%nat ->
  forall fuel k acc,
    (k <= ceil_div (List.length files) s)%nat ->
    (ceil_div (List.length files) s - k < fuel)%nat ->
    createBatches_loop fuel (Z.of_nat s) files (Z.of_nat (k * s)) acc
    = Some (acc ++ map (spec_batch files s)
                       (seq k (ceil_div (List.length files) s - k))).
Proof.
  intros Hs. induction fuel as [|fuel IH]; intros k acc Hk Hf; [lia|].
  simpl. unfold len.
  destruct (Z.ltb_spec (Z.of_nat (k * s)) (Z.of_nat (List.length files))) as [Hlt|Hge].
  - assert (Hk' : (k < ceil_div (List.length files) s)%nat)
      by (apply ceil_div_lt; lia).
    replace (Z.of_nat (k * s) + Z.of_nat s) with (Z.of_nat ((k + 1) * s)) by lia.
    replace (Z.of_nat ((k + 1) * s)) with (Z.of_nat (k * s) + Z.of_nat s) at 2 by lia.
    rewrite slice_is_segment by lia.
    rewrite IH by lia.
    replace (ceil_div (List.length files) s - k)%nat
      with (S (ceil_div (List.length files) s - (k + 1))) by lia.
    simpl. rewrite <- app_assoc. simpl.
    unfold spec_batch at 2.
    replace (k * s + s)%nat with ((k + 1) * s)%nat by lia.
    now replace (S k) with (k + 1)%nat by lia.
  - assert (Hk' : ~ (k < ceil_div (List.length files) s)%nat)
      by (rewrite ceil_div_lt; lia).
    replace (ceil_div (List.length files) s - k)%nat with O by lia.
    simpl. now rewrite app_nil_r.
Qed.

Lemma createBatches_spec (this : FileBatcher) files fuel :
  1 <= batchSize this ->
  (List.length files < fuel)%nat ->
  createBatches fuel this files
  = Some (spec_batches files (Z.to_nat (batchSize this))).
Proof.
  intros Hs Hf. unfold createBatches, spec_batches.
  set (s := Z.to_nat (batchSize this)).
  assert (Hpos : (0 < s)%nat) by lia.
  pose proof (ceil_div_le (List.length files) s Hpos) as Hle.
  replace (batchSize this) with (Z.of_nat s) by lia.
  change 0 with (Z.of_nat (0 * s)).
  rewrite createBatches_loop_spec by lia.
  now rewrite Nat.sub_0_r.
Qed.

Lemma concat_spec_batches_prefix files (s b : nat) :
  (0 < s)%nat -> (b <= ceil_div (List.length files) s)%nat ->
  List.concat (map (spec_batch files s) (seq 0 b)) = firstn (b * s) files.
Proof.
  intros Hs. induction b as [|b IH]; intros Hb; [reflexivity|].
  rewrite seq_S, map_app, concat_app, IH by lia. simpl.
  rewrite app_nil_r. unfold spec_batch.
  assert (Hlt : (b * s < List.length files)%nat) by (apply ceil_div_lt; lia).
  rewrite firstn_segment by lia.
  rewrite firstn_min_length. f_equal; lia.
Qed.

Lemma concat_spec_batches files (s : nat) :
  (0 < s)%nat -> List.concat (spec_batches files s) = files.
Proof.
  intros Hs. unfold spec_batches.
  rewrite concat_spec_batches_prefix by lia.
  apply firstn_all2, ceil_div_cover, Hs.
Qed.

Lemma length_spec_batches files (s : nat) :
  List.length (spec_batches files s) = ceil_div (List.length files) s.
Proof. unfold spec_batches. now rewrite length_map, length_seq. Qed.

Lemma nth_spec_batches files (s k : nat) :
  (k < ceil_div (List.length files) s)%nat ->
  nth_error (spec_batches files s) k = Some (spec_batch files s k).
Proof.
  intros Hk. unfold spec_batches.
  rewrite nth_error_map, nth_error_nth' with (d := O) by (rewrite length_seq; lia).
  now rewrite seq_nth by lia.
Qed.

Lemma length_spec_batch files (s k : nat) :
  List.length (spec_batch files s k)
  = (Nat.min ((k + 1) * s) (List.length files) - k * s)%nat.
Proof. unfold spec_batch. apply length_segment. lia. Qed.
End BatcherFacts.

(** ** The batcher *)

Section BatcherClaims.
Context {A : Type}.
Implicit Types F : list A.

(** C1. For every list [F] and every batch size [S >= 1], [createBatches]
    returns (given fuel beyond the length of [F]) batches whose
    concatenation in order is [F] itself, so that no item is lost,
    duplicated or moved, and batch [k] is [F[k*S : min((k+1)*S, N)]]. *)
Theorem createBatches_partition (this : FileBatcher) F (fuel : nat) :
  1 <= batchSize this ->
  (List.length F < fuel)%nat ->
  exists batches,
    createBatches fuel this F = Some batches
    /\ List.concat batches = F
    /\ forall k, (k < List.length batches)%nat ->
         nth_error batches k
         = Some (segment F (k * Z.to_nat (batchSize this))
                   (Nat.min ((k + 1) * Z.to_nat (batchSize this)) (List.length F))).
Proof.
  intros Hs Hf. exists (spec_batches F (Z.to_nat (batchSize this))).
  split; [now apply createBatches_spec|].
  split; [apply concat_spec_batches; lia|].
  intros k Hk. rewrite length_spec_batches in Hk.
  now rewrite nth_spec_batches.
Qed.

(** C6. For every list [F] of length [N] and every batch size [S >= 1],
    [createBatches] returns exactly [ceil(N/S)] batches; every batch but
    the last has [S] items; the last has [N mod S] items, or [S] when the
    remainder is zero; no batch is empty. *)
Theorem createBatches_count_and_sizes (this : FileBatcher) F (fuel : nat) :
  1 <= batchSize this ->
  (List.length F < fuel)%nat ->
  exists batches,
    createBatches fuel this F = Some batches
    /\ List.length batches = ceil_div (List.length F) (Z.to_nat (batchSize this))
    /\ (forall k b, nth_error batches k = Some b ->
          (k + 1 < List.length batches)%nat ->
          List.length b = Z.to_nat (batchSize this))
    /\ (forall b, nth_error batches (List.length batches - 1) = Some b ->
          List.length b
          = if (List.length F mod Z.to_nat (batchSize this) =? 0)%nat
            then Z.to_nat (batchSize this)
            else (List.length F mod Z.to_nat (batchSize this))%nat)
    /\ Forall (fun b => b <> []) batches.
Proof.
  intros Hs Hf. set (s := Z.to_nat (batchSize this)).
  assert (Hpos : (0 < s)%nat) by (subst s; lia).
  exists (spec_batches F s).
  split; [now apply createBatches_spec|].
  rewrite length_spec_batches.
  split; [reflexivity|]. split; [|split].
  - intros k b Hb Hk.
    rewrite nth_spec_batches in Hb by lia. injection Hb as <-.
    rewrite length_spec_batch.
    assert (H : ((k + 1) * s < List.length F)%nat) by (apply ceil_div_lt; lia).
    lia.
  - intros b Hb.
    assert (Hne : (0 < ceil_div (List.length F) s)%nat).
    { destruct (ceil_div (List.length F) s) eqn:E; [|lia].
      unfold spec_batches in Hb. rewrite E in Hb. discriminate. }
    rewrite nth_spec_batches in Hb by lia. injection Hb as <-.
    rewrite length_spec_batch.
    set (B := ceil_div (List.length F) s) in *.
    assert (Hlo : ((B - 1) * s < List.length F)%nat)
      by (apply ceil_div_lt; subst B; lia).
    pose proof (ceil_div_cover (List.length F) s Hpos) as Hhi. fold B in Hhi.
    pose proof (Nat.div_mod_eq (List.length F) s) as E.
    pose proof (Nat.mod_upper_bound (List.length F) s ltac:(lia)) as U.
    set (q := (List.length F / s)%nat) in *.
    set (r := (List.length F mod s)%nat) in *.
    replace ((B - 1 + 1) * s)%nat with (B * s)%nat by (f_equal; lia).
    rewrite Nat.min_r by lia.
    destruct (Nat.eqb_spec r 0) as [Hr|Hr].
    + assert (q = B) by nia. subst q. nia.
    + assert (q = (B - 1)%nat) by nia. nia.
  - unfold spec_batches. apply Forall_forall. intros b Hin.
    apply in_map_iff in Hin as (k & <- & Hk). apply in_seq in Hk.
    intros Hnil. apply (f_equal (@List.length A)) in Hnil.
    rewrite length_spec_batch in Hnil. simpl in Hnil.
    assert (H : (k * s < List.length F)%nat) by (apply ceil_div_lt; lia).
    nia.
Qed.

(** With a step that is zero or negative the loop counter never passes the
    length of a non-empty list: the loop is still running whatever the
    fuel. *)
Lemma createBatches_loop_runs_on (size : Z) F :
  size <= 0 -> F <> [] ->
  forall fuel i acc, i <= 0 -> createBatches_loop fuel size F i acc = None.
Proof.
  intros Hs HF. induction fuel as [|fuel IH]; intros i acc Hi; [reflexivity|].
  simpl. destruct (Z.ltb_spec i (len F)) as [_|H].
  - apply IH. lia.
  - unfold len in H. destruct F; [congruence|]. simpl in H. lia.
Qed.

(** C3, as the code has it. No batch size makes [createBatches] fail:
    a size of [0] given to the constructor has become [50] by the time a
    list is partitioned, and the partition is the one for [50]; and the
    empty list yields zero batches whatever the size, zero and negative
    sizes included. *)
Theorem createBatches_no_size_check F (fuel : nat) :
  (List.length F < fuel)%nat ->
  (forall options, opt_batchSize options = Some 0 ->
     createBatches fuel (constructor options) F = Some (spec_batches F 50))
  /\ (forall this : FileBatcher, createBatches fuel this (@nil A) = Some []).
Proof.
  intros Hf. split.
  - intros options H0.
    rewrite createBatches_spec; unfold constructor; simpl; rewrite ?H0; simpl;
      [reflexivity | lia | exact Hf].
  - intros this. destruct fuel; [lia|]. reflexivity.
Qed.
End BatcherClaims.

(** C1 at three files in batches of two. *)
Lemma createBatches_partition_witness :
  exists batches,
    createBatches 4 (mkFileBatcher 2 false false 100) ["a.js"; "b.js"; "c.js"]
    = Some batches
    /\ List.concat batches = ["a.js"; "b.js"; "c.js"]
    /\ forall k, (k < List.length batches)%nat ->
         nth_error batches k
         = Some (segment ["a.js"; "b.js"; "c.js"] (k * 2) (Nat.min ((k + 1) * 2) 3)).
Proof.
  apply (createBatches_partition (mkFileBatcher 2 false false 100)
           ["a.js"; "b.js"; "c.js"] 4); simpl; lia.
Defined.

(** C6 at three files in batches of two. *)
Lemma createBatches_count_and_sizes_witness :
  exists batches,
    createBatches 4 (mkFileBatcher 2 false false 100) ["a.js"; "b.js"; "c.js"]
    = Some batches
    /\ List.length batches = ceil_div 3 2
    /\ (forall k b, nth_error batches k = Some b ->
          (k + 1 < List.length batches)%nat -> List.length b = 2%nat)
    /\ (forall b, nth_error batches (List.length batches - 1) = Some b ->
          List.length b = 1%nat)
    /\ Forall (fun b => b <> []) batches.
Proof.
  apply (createBatches_count_and_sizes (mkFileBatcher 2 false false 100)
           ["a.js"; "b.js"; "c.js"] 4); simpl; lia.
Defined.

(** C3 as stated fails: a batch size of [0] given to the constructor
    partitions a list (with the default size), and a negative size returns
    zero batches for the empty list; neither is an error. *)
Lemma invalid_size_counterexample :
  createBatches 2 (constructor (mkOptions (Some 0) None None None)) ["a.js"; "b.js"]
  = Some [["a.js"; "b.js"]]
  /\ createBatches 1 (constructor (mkOptions (Some (-3)) None None None)) (@nil string)
     = Some [].
Proof. split; reflexivity. Qed.

Lemma createBatches_no_size_check_witness :
  (forall options, opt_batchSize options = Some 0 ->
     createBatches 3 (constructor options) ["a.js"; "b.js"]
     = Some (spec_batches ["a.js"; "b.js"] 50))
  /\ (forall this : FileBatcher, createBatches 3 this (@nil string) = Some []).
Proof.
  apply (createBatches_no_size_check ["a.js"; "b.js"] 3). simpl. lia.
Defined.

(** ** The constructor *)

(** C10. The constructor replaces a supplied batch size of [0] by [50] and a
    supplied delay of [0] by [100]; negative values are kept; so neither
    field of a constructed object is ever [0]; and [verbose] and [dryRun]
    are [false] when left out. *)
Theorem constructor_defaults :
  (forall options, opt_batchSize options = Some 0 ->
     batchSize (constructor options) = 50)
  /\ (forall options, opt_delay options = Some 0 ->
        delay (constructor options) = 100)
  /\ (forall options n, n < 0 -> opt_batchSize options = Some n ->
        batchSize (constructor options) = n)
  /\ (forall options n, n < 0 -> opt_delay options = Some n ->
        delay (constructor options) = n)
  /\ (forall options,
        batchSize (constructor options) <> 0 /\ delay (constructor options) <> 0)
  /\ (forall options, opt_verbose options = None ->
        verbose (constructor options) = false)
  /\ (forall options, opt_dryRun options = None ->
        dryRun (constructor options) = false).
Proof.
  unfold constructor; simpl.
  repeat split; intros.
  - now rewrite H.
  - now rewrite H.
  - rewrite H0. destruct n; simpl; trivial; lia.
  - rewrite H0. destruct n; simpl; trivial; lia.
  - destruct (opt_batchSize options) as [[| |]|]; simpl; lia.
  - destruct (opt_delay options) as [[| |]|]; simpl; lia.
  - now rewrite H.
  - now rewrite H.
Qed.

Lemma constructor_defaults_witness :
  batchSize (constructor (mkOptions (Some 0) None None (Some 0))) = 50
  /\ delay (constructor (mkOptions (Some 0) None None (Some 0))) = 100
  /\ batchSize (constructor (mkOptions (Some (-7)) None None (Some (-1)))) = -7
  /\ delay (constructor (mkOptions (Some (-7)) None None (Some (-1)))) = -1
  /\ verbose (constructor (mkOptions (Some 0) None None (Some 0))) = false
  /\ dryRun (constructor (mkOptions (Some 0) None None (Some 0))) = false.
Proof.
  destruct constructor_defaults as (H1 & H2 & H3 & H4 & _ & H6 & H7).
  split; [apply H1; reflexivity|].
  split; [apply H2; reflexivity|].
  split; [apply (H3 _ (-7)); [lia | reflexivity]|].
  split; [apply (H4 _ (-1)); [lia | reflexivity]|].
  split; [apply H6; reflexivity | apply H7; reflexivity].
Defined.

(** ** Traces *)

Section TraceFacts.
Local Ltac by_cases_on_events a :=
  induction a as [|[[]| | |] a IH]; simpl; intros; rewrite ?IH; reflexivity.

Lemma exec_events_app a b : exec_events (a ++ b) = exec_events a ++ exec_events b.
Proof. by_cases_on_events a. Qed.

Lemma sleeps_app a b : sleeps (a ++ b) = sleeps a ++ sleeps b.
Proof. by_cases_on_events a. Qed.

Lemma console_only_silent evs :
  console_only evs ->
  exec_events evs = [] /\ sleeps evs = [].
Proof.
  induction 1 as [|e evs He _ IH]; [split; reflexivity|].
  destruct e; simpl; try contradiction; exact IH.
Qed.

Lemma console_only_app a b : console_only a -> console_only b -> console_only (a ++ b).
Proof. unfold console_only. intros. apply Forall_app. now split. Qed.

Lemma console_only_when_log (b : bool) line :
  console_only (if b then [EvLog line] else []).
Proof. destruct b; repeat constructor. Qed.
End TraceFacts.

Create HintDb trace.
#[local] Hint Resolve console_only_app console_only_when_log : trace.

(** ** Sequential execution *)

(** Open the monad operations, leaving the loops and the strings closed. *)
Ltac unfold_monad :=
  unfold bind, try_catch, when, execSync, console_log, console_error, sleep,
    emit, ret, throw, running, pauses.

Ltac split_result :=
  repeat split; try (repeat constructor); simpl; rewrite ?app_nil_r; reflexivity.

Section RunnerFacts.
Variable World : Type.
Variable run_process : World -> command -> exec_result * World.

(** Inside this section the runners are those of the section's world. *)
Abbreviation addFiles_loop := (addFiles_loop World run_process).
Abbreviation addFilesBatched := (addFilesBatched World run_process).
Abbreviation commitFiles_loop := (commitFiles_loop World run_process).
Abbreviation commitFilesBatched := (commitFilesBatched World run_process).
Abbreviation run_plan := (run_plan World run_process).
Abbreviation plan_world := (plan_world World run_process).

#[local] Arguments num : simpl never.
#[local] Arguments template : simpl never.
#[local] Arguments len : simpl never.


(** *** One iteration of the staging loop *)

Lemma addFiles_loop_cons_real this total i batch rest w r w1 :
  dryRun this = false ->
  run_process w (GitAdd batch) = (r, w1) ->
  let now_ := addFiles_loop this total i (batch :: rest) w in
  let next := addFiles_loop this total (i + 1) rest w1 in
  exists pre post, console_only pre /\ console_only post /\
    match r with
    | Done _ =>
        ending now_ = ending next
        /\ world_after now_ = world_after next
        /\ events now_
           = pre ++ EvExec (GitAdd batch) r
                 :: (if pauses this total i then [EvSleep (delay this)] else [])
                 ++ events next
    | Failed cause =>
        ending now_ = Throw (ExecError (GitAdd batch) cause)
        /\ world_after now_ = w1
        /\ events now_ = pre ++ EvExec (GitAdd batch) r :: post
    end.
Proof.
  intros Hdry Hrun now_ next. subst now_ next.
  destruct r as [out|cause]; destruct (verbose this) eqn:V;
    [eexists [EvLog _] | exists [] | eexists [EvLog _] | exists []].
  1,2: exists [].
  3,4: eexists [EvError _].
  all: split; [repeat constructor|]; split; [repeat constructor|].
  all: simpl; unfold_monad; rewrite Hdry, V; simpl; rewrite Hrun; simpl.
  1,2: destruct ((i <? total - 1) && (delay this >? 0))%bool; simpl.
  1-4: destruct (addFiles_loop this total (i + 1) rest w1); simpl.
  all: repeat split; reflexivity.
Qed.

Lemma addFiles_loop_cons_dry this total i batch rest w :
  dryRun this = true ->
  let now_ := addFiles_loop this total i (batch :: rest) w in
  let next := addFiles_loop this total (i + 1) rest w in
  exists pre, console_only pre /\ Exists (handles batch) pre
    /\ ending now_ = ending next
    /\ world_after now_ = world_after next
    /\ events now_
       = pre ++ (if pauses this total i then [EvSleep (delay this)] else [])
             ++ events next.
Proof.
  intros Hdry now_ next. subst now_ next.
  destruct (verbose this) eqn:V;
    [exists [EvLog (template ["Processing batch "; num (i + 1); "/"; num total;
                              " ("; num (len batch); " files)"]);
             EvLog (template ["[DRY RUN] Would add: "; String.concat ", " batch])]
    |exists [EvLog (template ["[DRY RUN] Would add: "; String.concat ", " batch])]].
  all: split; [repeat constructor|].
  all: split; [repeat first [left; reflexivity | right]|].
  all: simpl; unfold_monad; rewrite Hdry, V; simpl.
  all: destruct ((i <? total - 1) && (delay this >? 0))%bool; simpl.
  all: destruct (addFiles_loop this total (i + 1) rest w); simpl.
  all: repeat split; reflexivity.
Qed.

(** *** The staging loop runs its commands in order and stops at the first
    failure *)

Lemma addFiles_loop_real this total :
  dryRun this = false ->
  forall rest i w,
    let r := addFiles_loop this total i rest w in
    exec_events (events r) = run_plan w (map GitAdd rest)
    /\ ending r = ending_of (run_plan w (map GitAdd rest))
    /\ world_after r = plan_world w (map GitAdd rest).
Proof.
  intros Hdry. induction rest as [|batch rest IH]; intros i w; [repeat split|].
  destruct (run_process w (GitAdd batch)) as [r1 w1] eqn:Hrun.
  destruct (addFiles_loop_cons_real this total i batch rest w r1 w1 Hdry Hrun)
    as (pre & post & Hpre & Hpost & H).
  apply console_only_silent in Hpre as [Hpre _].
  apply console_only_silent in Hpost as [Hpost _].
  cbn zeta. simpl map. simpl run_plan. simpl plan_world. rewrite Hrun.
  destruct r1 as [out|cause]; destruct H as (He & Hw & Hev);
    rewrite He, Hw, Hev, exec_events_app, Hpre; simpl.
  - destruct (pauses this total i); simpl;
      destruct (IH (i + 1) w1) as (IH1 & IH2 & IH3);
      rewrite IH1, IH2, IH3; repeat split; reflexivity.
  - rewrite Hpost. repeat split; reflexivity.
Qed.

Lemma addFiles_loop_dry this total :
  dryRun this = true ->
  forall rest i w,
    let r := addFiles_loop this total i rest w in
    exec_events (events r) = [] /\ ending r = Return tt /\ world_after r = w.
Proof.
  intros Hdry. induction rest as [|batch rest IH]; intros i w; [repeat split|].
  destruct (addFiles_loop_cons_dry this total i batch rest w Hdry)
    as (pre & Hpre & _ & He & Hw & Hev).
  apply console_only_silent in Hpre as [Hpre _].
  cbn zeta. rewrite He, Hw, Hev, !exec_events_app, Hpre.
  destruct (IH (i + 1) w) as (IH1 & IH2 & IH3). rewrite IH1, IH2, IH3.
  destruct (pauses this total i); repeat split; reflexivity.
Qed.

(** The pauses of a staging loop that ends normally: one after each batch
    but the last, when the delay is positive. *)
Lemma addFiles_loop_sleeps this total :
  forall rest i w,
    total = i + len rest ->
    ending (addFiles_loop this total i rest w) = Return tt ->
    sleeps (events (addFiles_loop this total i rest w))
    = if delay this >? 0 then repeat (delay this) (List.length rest - 1) else [].
Proof.
  induction rest as [|batch rest IH]; intros i w Ht Hend.
  - simpl. now destruct (delay this >? 0).
  - assert (Hp : pauses this total i
                 = (negb (Nat.eqb (List.length rest) 0) && (delay this >? 0))%bool).
    { unfold pauses. f_equal. unfold len in Ht.
      destruct rest; cbn [List.length Nat.eqb negb] in *;
        [apply Z.ltb_ge | apply Z.ltb_lt]; lia. }
    assert (Hr : forall d : Z, (if negb (Nat.eqb (List.length rest) 0) && (delay this >? 0)
                            then [d] else [])
                           ++ (if delay this >? 0
                               then repeat d (List.length rest - 1) else [])
                           = if delay this >? 0
                             then repeat d (List.length (batch :: rest) - 1) else []).
    { intros d. destruct rest, (delay this >? 0); simpl; trivial.
      now rewrite Nat.sub_0_r. }
    assert (Ht' : total = i + 1 + len rest)
      by (unfold len in *; simpl List.length in Ht; lia).
    destruct (dryRun this) eqn:Hdry.
    + destruct (addFiles_loop_cons_dry this total i batch rest w Hdry)
        as (pre & Hpre & _ & He & Hw & Hev).
      apply console_only_silent in Hpre as [_ Hpre].
      rewrite Hev, !sleeps_app, Hpre, IH by congruence.
      rewrite Hp, <- Hr.
      now destruct (negb (Nat.eqb (List.length rest) 0) && (delay this >? 0))%bool.
    + destruct (run_process w (GitAdd batch)) as [r1 w1] eqn:Hrun.
      destruct (addFiles_loop_cons_real this total i batch rest w r1 w1 Hdry Hrun)
        as (pre & post & Hpre & Hpost & H).
      apply console_only_silent in Hpre as [_ Hpre].
      destruct r1 as [out|cause]; destruct H as (He & Hw & Hev); [|congruence].
      rewrite Hev, sleeps_app, Hpre. simpl. rewrite sleeps_app, IH by congruence.
      rewrite Hp, <- Hr.
      now destruct (negb (Nat.eqb (List.length rest) 0) && (delay this >? 0))%bool.
Qed.

(** *** addFilesBatched around its loop *)

Lemma spec_batches_single {A} (batch : list A) (s : nat) :
  (1 <= List.length batch <= s)%nat -> spec_batches batch s = [batch].
Proof.
  intros [H1 H2]. unfold spec_batches.
  assert (E : ceil_div (List.length batch) s = 1%nat).
  { assert (Hs : (0 < s)%nat) by lia.
    pose proof (ceil_div_lt (List.length batch) s 0 Hs) as H0.
    pose proof (ceil_div_lt (List.length batch) s 1 Hs) as H3. lia. }
  rewrite E. simpl. unfold spec_batch, segment. simpl.
  rewrite Nat.add_0_r, Nat.min_r, Nat.sub_0_r, firstn_all by lia. reflexivity.
Qed.

Lemma addFilesBatched_events this files fuel w :
  1 <= batchSize this -> files <> [] -> (List.length files < fuel)%nat ->
  let batches := spec_batches files (Z.to_nat (batchSize this)) in
  let r := addFilesBatched fuel this files w in
  let l := addFiles_loop this (len batches) 0 batches w in
  exists pre post, console_only pre /\ console_only post
    /\ ending r = ending l /\ world_after r = world_after l
    /\ events r = pre ++ events l ++ post.
Proof.
  intros Hs Hne Hf batches r l. subst r l. unfold addFilesBatched.
  assert (E : (len files =? 0) = false).
  { apply Z.eqb_neq. unfold len. destruct files; [congruence | simpl; lia]. }
  rewrite E, createBatches_spec by assumption. fold batches.
  destruct (verbose this), (dryRun this); unfold_monad; simpl;
    destruct (addFiles_loop this (len batches) 0 batches w) as [[[]| |] w2 e];
    simpl.
  all: first [ exists [], []; split_result
             | eexists [EvLog _], []; split_result
             | exists []; eexists [EvLog _]; split_result
             | eexists [EvLog _], [EvLog _]; split_result ].
Qed.

Lemma addFilesBatched_single_real this batch fuel w r1 w1 :
  dryRun this = false ->
  (1 <= List.length batch <= Z.to_nat (batchSize this))%nat ->
  (List.length batch < fuel)%nat ->
  run_process w (GitAdd batch) = (r1, w1) ->
  let r := addFilesBatched fuel this batch w in
  exists pre post, console_only pre /\ console_only post
    /\ events r = pre ++ EvExec (GitAdd batch) r1 :: post
    /\ world_after r = w1
    /\ ending r = match r1 with
                  | Done _ => Return tt
                  | Failed cause => Throw (ExecError (GitAdd batch) cause)
                  end.
Proof.
  intros Hdry Hb Hf Hrun r.
  destruct (addFilesBatched_events this batch fuel w) as
    (pre & post & Hpre & Hpost & He & Hw & Hev);
    [lia | destruct batch; [simpl in Hb; lia | congruence] | exact Hf |].
  rewrite spec_batches_single in He, Hw, Hev by exact Hb.
  destruct (addFiles_loop_cons_real this (len [batch]) 0 batch [] w r1 w1 Hdry Hrun)
    as (pre' & post' & Hpre' & Hpost' & H).
  subst r. rewrite He, Hw, Hev.
  destruct r1 as [out|cause]; destruct H as (He' & Hw' & Hev');
    rewrite He', Hw', Hev'.
  - exists (pre ++ pre'), post. unfold pauses. simpl.
    rewrite <- !app_assoc. repeat split; auto with trace.
  - exists (pre ++ pre'), (post' ++ post).
    rewrite <- !app_assoc. repeat split; auto with trace.
Qed.

(** In a dry run nothing is executed, whatever the fuel and the batch
    size. *)
Lemma addFilesBatched_dry this files fuel w :
  dryRun this = true ->
  let r := addFilesBatched fuel this files w in
  exec_events (events r) = [] /\ world_after r = w
  /\ (ending r = Return tt
      \/ ending r = Throw (Error "Files must be a non-empty array")
      \/ ending r = Running).
Proof.
  intros Hdry r. subst r. unfold addFilesBatched.
  destruct (len files =? 0); [repeat split; auto|].
  destruct (createBatches fuel this files) as [batches|]; [|repeat split; auto].
  pose proof (addFiles_loop_dry this (len batches) Hdry batches 0 w) as H.
  cbn zeta in H. rewrite Hdry, andb_false_r.
  destruct (verbose this); unfold_monad; simpl;
    destruct (addFiles_loop this (len batches) 0 batches w) as [o w2 e];
    simpl in H; destruct H as (H1 & -> & ->); simpl;
    rewrite ?exec_events_app, H1; simpl; repeat split; auto.
Qed.

Lemma addFilesBatched_single_dry this batch fuel w :
  dryRun this = true ->
  fits this fuel batch ->
  let r := addFilesBatched fuel this batch w in
  console_only (events r) /\ Exists (handles batch) (events r)
  /\ world_after r = w /\ ending r = Return tt.
Proof.
  intros Hdry [Hb Hf] r.
  destruct (addFilesBatched_events this batch fuel w) as
    (pre & post & Hpre & Hpost & He & Hw & Hev);
    [lia | destruct batch; [simpl in Hb; lia | congruence] | exact Hf |].
  rewrite spec_batches_single in He, Hw, Hev by exact Hb.
  destruct (addFiles_loop_cons_dry this (len [batch]) 0 batch [] w Hdry)
    as (pre' & Hpre' & HM & He' & Hw' & Hev').
  subst r. rewrite He, Hw, Hev, He', Hw', Hev'.
  replace (pauses this (len [batch]) 0) with false by reflexivity.
  simpl. rewrite app_nil_r.
  repeat split; auto with trace.
  apply Exists_app. right. apply Exists_app. now left.
Qed.

(** *** One iteration of the commit loop *)

Lemma commitFiles_loop_cons_real fuel this m total i batch rest w r1 w1 r2 w2 :
  dryRun this = false ->
  fits this fuel batch ->
  run_process w (GitAdd batch) = (r1, w1) ->
  run_process w1 (GitCommit (commitMessage m (i + 1) total)) = (r2, w2) ->
  let now_ := commitFiles_loop fuel this m total i (batch :: rest) w in
  let next := commitFiles_loop fuel this m total (i + 1) rest w2 in
  let add := EvExec (GitAdd batch) r1 in
  let commit := EvExec (GitCommit (commitMessage m (i + 1) total)) r2 in
  exists pre mid post, console_only pre /\ console_only mid /\ console_only post /\
    match r1, r2 with
    | Failed cause, _ =>
        ending now_ = Throw (ExecError (GitAdd batch) cause)
        /\ world_after now_ = w1
        /\ events now_ = pre ++ add :: post
    | Done _, Failed cause =>
        ending now_
        = Throw (ExecError (GitCommit (commitMessage m (i + 1) total)) cause)
        /\ world_after now_ = w2
        /\ events now_ = pre ++ add :: mid ++ [commit]
    | Done _, Done _ =>
        ending now_ = ending next
        /\ world_after now_ = world_after next
        /\ events now_
           = pre ++ add :: mid ++ commit :: post
                 ++ (if pauses this total i then [EvSleep (delay this)] else [])
                 ++ events next
    end.
Proof.
  intros Hdry [Hb Hf] Hrun1 Hrun2 now_ next add commit. subst now_ next add commit.
  destruct (addFilesBatched_single_real this batch fuel w r1 w1 Hdry Hb Hf Hrun1)
    as (pre & mid & Hpre & Hmid & Hev & Hw & He).
  simpl. unfold_monad.
  destruct (addFilesBatched fuel this batch w) as [oA wA eA].
  simpl in Hev, Hw, He. subst oA wA eA.
  destruct r1 as [out1|cause1].
  2: { exists pre, [], mid. repeat split; try assumption. constructor. }
  rewrite Hdry. simpl. rewrite Hrun2.
  destruct r2 as [out2|cause2]; simpl.
  - exists pre, mid.
    destruct (verbose this); [eexists [EvLog _] | exists []];
      (repeat split; [assumption | assumption | repeat constructor | ..]);
      destruct ((i <? total - 1) && (delay this >? 0))%bool; simpl;
      destruct (commitFiles_loop fuel this m total (i + 1) rest w2); simpl;
      rewrite <- ?app_assoc; reflexivity.
  - exists pre, mid, []. repeat split; try assumption; try constructor.
    now rewrite <- app_assoc.
Qed.

Lemma commitFiles_loop_cons_dry fuel this m total i batch rest w :
  dryRun this = true ->
  fits this fuel batch ->
  let now_ := commitFiles_loop fuel this m total i (batch :: rest) w in
  let next := commitFiles_loop fuel this m total (i + 1) rest w in
  exists pre, console_only pre /\ Exists (handles batch) pre
    /\ ending now_ = ending next
    /\ world_after now_ = world_after next
    /\ events now_
       = pre ++ (if pauses this total i then [EvSleep (delay this)] else [])
             ++ events next.
Proof.
  intros Hdry Hfit now_ next. subst now_ next.
  destruct (addFilesBatched_single_dry this batch fuel w Hdry Hfit)
    as (Hc & HM & Hw & He).
  simpl. unfold_monad.
  destruct (addFilesBatched fuel this batch w) as [oA wA eA].
  simpl in Hc, HM, Hw, He. subst oA wA.
  rewrite Hdry. simpl.
  destruct (verbose this);
    [eexists (eA ++ [EvLog _; EvLog _]) | eexists (eA ++ [EvLog _])];
    (split; [apply console_only_app; [assumption | repeat constructor]|]);
    (split; [apply Exists_app; now left|]); simpl;
    destruct ((i <? total - 1) && (delay this >? 0))%bool; simpl;
    destruct (commitFiles_loop fuel this m total (i + 1) rest w); simpl;
    rewrite <- ?app_assoc; repeat split; reflexivity.
Qed.

(** *** The commit loop *)

Lemma commitFiles_loop_real fuel this m total :
  dryRun this = false ->
  forall rest i w,
    Forall (fits this fuel) rest ->
    let r := commitFiles_loop fuel this m total i rest w in
    exec_events (events r) = run_plan w (commit_plan m total i rest)
    /\ ending r = ending_of (run_plan w (commit_plan m total i rest))
    /\ world_after r = plan_world w (commit_plan m total i rest).
Proof.
  intros Hdry. induction rest as [|batch rest IH]; intros i w Hfit; [repeat split|].
  inversion Hfit as [|? ? Hb Hrest]; subst.
  destruct (run_process w (GitAdd batch)) as [r1 w1] eqn:Hrun1.
  destruct (run_process w1 (GitCommit (commitMessage m (i + 1) total)))
    as [r2 w2] eqn:Hrun2.
  destruct (commitFiles_loop_cons_real fuel this m total i batch rest w
              r1 w1 r2 w2 Hdry Hb Hrun1 Hrun2)
    as (pre & mid & post & Hpre & Hmid & Hpost & H).
  apply console_only_silent in Hpre as [Hpre _].
  apply console_only_silent in Hmid as [Hmid _].
  apply console_only_silent in Hpost as [Hpost _].
  assert (Eplan : run_plan w (commit_plan m total i (batch :: rest))
                  = (GitAdd batch, r1)
                    :: (if succeeded r1
                        then (GitCommit (commitMessage m (i + 1) total), r2)
                             :: (if succeeded r2
                                 then run_plan w2 (commit_plan m total (i + 1) rest)
                                 else [])
                        else [])).
  { simpl. rewrite Hrun1. destruct (succeeded r1); [rewrite Hrun2|]; reflexivity. }
  assert (Eworld : plan_world w (commit_plan m total i (batch :: rest))
                   = if succeeded r1
                     then if succeeded r2
                          then plan_world w2 (commit_plan m total (i + 1) rest)
                          else w2
                     else w1).
  { simpl. rewrite Hrun1. destruct (succeeded r1); [rewrite Hrun2|]; reflexivity. }
  cbn zeta. rewrite Eplan, Eworld. clear Eplan Eworld.
  destruct (IH (i + 1) w2 Hrest) as (IH1 & IH2 & IH3).
  destruct r1 as [out1|cause1]; [destruct r2 as [out2|cause2]|];
    destruct H as (He & Hw & Hev); rewrite He, Hw, Hev; cbn [succeeded];
    rewrite ?exec_events_app; cbn [exec_events];
    rewrite ?exec_events_app; cbn [exec_events];
    rewrite ?exec_events_app, ?Hpre, ?Hmid, ?Hpost, ?IH1, ?IH2, ?IH3;
    try destruct (pauses this total i); repeat split; reflexivity.
Qed.

(** In a dry run the commit loop executes nothing, whatever the batches
    and the fuel. *)
Lemma commitFiles_loop_dry fuel this m total :
  dryRun this = true ->
  forall rest i w,
    let r := commitFiles_loop fuel this m total i rest w in
    exec_events (events r) = [] /\ world_after r = w
    /\ (ending r = Return tt
        \/ ending r = Throw (Error "Files must be a non-empty array")
        \/ ending r = Running).
Proof.
  intros Hdry. induction rest as [|batch rest IH]; intros i w; [repeat split; auto|].
  destruct (addFilesBatched_dry this batch fuel w Hdry) as (Hx & Hw & He).
  specialize (IH (i + 1) w). cbn zeta in IH.
  cbn zeta. simpl. unfold_monad.
  destruct (addFilesBatched fuel this batch w) as [oA wA eA].
  simpl in Hx, Hw, He. subst wA.
  destruct He as [->|[->| ->]]; simpl; [|repeat split; auto ..].
  rewrite Hdry. simpl.
  destruct (verbose this); simpl;
    destruct ((i <? total - 1) && (delay this >? 0))%bool; simpl;
    destruct (commitFiles_loop fuel this m total (i + 1) rest w) as [o w3 e];
    simpl in *; destruct IH as (IH1 & -> & IH3);
    rewrite ?exec_events_app, Hx; simpl; rewrite ?exec_events_app, ?IH1;
    repeat split; auto.
Qed.

Lemma commitFiles_loop_sleeps fuel this m total :
  forall rest i w,
    total = i + len rest ->
    Forall (fits this fuel) rest ->
    ending (commitFiles_loop fuel this m total i rest w) = Return tt ->
    sleeps (events (commitFiles_loop fuel this m total i rest w))
    = if delay this >? 0 then repeat (delay this) (List.length rest - 1) else [].
Proof.
  induction rest as [|batch rest IH]; intros i w Ht Hfit Hend.
  - simpl. now destruct (delay this >? 0).
  - inversion Hfit as [|? ? Hb Hrest]; subst.
    assert (Hp : pauses this (i + len (batch :: rest)) i
                 = (negb (Nat.eqb (List.length rest) 0) && (delay this >? 0))%bool).
    { unfold pauses. f_equal. unfold len.
      destruct rest; cbn [List.length Nat.eqb negb] in *;
        [apply Z.ltb_ge | apply Z.ltb_lt]; lia. }
    assert (Hr : forall d : Z,
               (if negb (Nat.eqb (List.length rest) 0) && (delay this >? 0)
                then [d] else [])
               ++ (if delay this >? 0
                   then repeat d (List.length rest - 1) else [])
               = if delay this >? 0
                 then repeat d (List.length (batch :: rest) - 1) else []).
    { intros d. destruct rest, (delay this >? 0); simpl; trivial.
      now rewrite Nat.sub_0_r. }
    assert (Ht' : i + len (batch :: rest) = i + 1 + len rest)
      by (unfold len; cbn [List.length]; lia).
    destruct (dryRun this) eqn:Hdry.
    + destruct (commitFiles_loop_cons_dry fuel this m (i + len (batch :: rest))
                  i batch rest w Hdry Hb)
        as (pre & Hpre & _ & He & Hw & Hev).
      apply console_only_silent in Hpre as [_ Hpre].
      rewrite Hev, !sleeps_app, Hpre, IH by congruence.
      rewrite Hp, <- Hr.
      now destruct (negb (Nat.eqb (List.length rest) 0) && (delay this >? 0))%bool.
    + destruct (run_process w (GitAdd batch)) as [r1 w1] eqn:Hrun1.
      destruct (run_process w1 (GitCommit (commitMessage m (i + 1)
                                             (i + len (batch :: rest)))))
        as [r2 w2] eqn:Hrun2.
      destruct (commitFiles_loop_cons_real fuel this m (i + len (batch :: rest))
                  i batch rest w r1 w1 r2 w2 Hdry Hb Hrun1 Hrun2)
        as (pre & mid & post & Hpre & Hmid & Hpost & H).
      apply console_only_silent in Hpre as [_ Hpre].
      apply console_only_silent in Hmid as [_ Hmid].
      apply console_only_silent in Hpost as [_ Hpost].
      destruct r1 as [out1|cause1]; [destruct r2 as [out2|cause2]|];
        destruct H as (He & Hw & Hev); [|congruence|congruence].
      rewrite Hev, sleeps_app, Hpre. cbn [sleeps].
      rewrite sleeps_app, Hmid. cbn [sleeps app].
      rewrite !sleeps_app, Hpost, IH by congruence.
      rewrite Hp, <- Hr.
      now destruct (negb (Nat.eqb (List.length rest) 0) && (delay this >? 0))%bool.
Qed.

(** *** The pauses fall between the batches *)

Lemma pause_between this total i (rest : list (list string)) :
  total = i + 1 + len rest ->
  (if pauses this total i then [EvSleep (delay this)] else [])
  = match rest with
    | [] => []
    | _ :: _ => pause_of this
    end.
Proof.
  intros ->. unfold pauses, pause_of, len. destruct rest as [|b rest].
  - replace (i <? i + 1 + Z.of_nat (List.length (@nil (list string))) - 1) with false;
      [reflexivity | symmetry; apply Z.ltb_ge; simpl; lia].
  - replace (i <? i + 1 + Z.of_nat (List.length (b :: rest)) - 1) with true;
      [reflexivity | symmetry; apply Z.ltb_lt; cbn [List.length]; lia].
Qed.

Lemma interleave_step P rest blocks block :
  Forall2 block_of rest blocks ->
  block ++ match rest with
           | [] => []
           | _ :: _ => P
           end ++ interleave_pauses P blocks
  = interleave_pauses P (block :: blocks).
Proof.
  intros H. destruct H; simpl; [now rewrite app_nil_r | reflexivity].
Qed.

Lemma addFiles_loop_blocks this total :
  forall rest i w,
    total = i + len rest ->
    ending (addFiles_loop this total i rest w) = Return tt ->
    exists blocks,
      Forall2 block_of rest blocks
      /\ events (addFiles_loop this total i rest w)
         = interleave_pauses (pause_of this) blocks.
Proof.
  induction rest as [|batch rest IH]; intros i w Ht Hend.
  - exists []. split; [constructor | reflexivity].
  - assert (Ht' : total = i + 1 + len rest)
      by (unfold len in *; cbn [List.length] in Ht; lia).
    destruct (dryRun this) eqn:Hdry.
    + destruct (addFiles_loop_cons_dry this total i batch rest w Hdry)
        as (pre & Hpre & HM & He & Hw & Hev).
      destruct (IH (i + 1) w Ht') as (blocks & HB & Hevs); [congruence|].
      exists (pre :: blocks). split.
      * constructor; [|exact HB]. split; [|exact HM].
        now apply console_only_silent in Hpre.
      * rewrite Hev, Hevs, (pause_between this _ i rest Ht').
        now apply (interleave_step _ rest).
    + destruct (run_process w (GitAdd batch)) as [r1 w1] eqn:Hrun.
      destruct (addFiles_loop_cons_real this total i batch rest w r1 w1 Hdry Hrun)
        as (pre & post & Hpre & Hpost & H).
      destruct r1 as [out|cause]; destruct H as (He & Hw & Hev); [|congruence].
      destruct (IH (i + 1) w1 Ht') as (blocks & HB & Hevs); [congruence|].
      exists ((pre ++ [EvExec (GitAdd batch) (Done out)]) :: blocks). split.
      * constructor; [|exact HB]. split.
        -- rewrite sleeps_app. apply console_only_silent in Hpre as [_ ->].
           reflexivity.
        -- apply Exists_app. right. now left.
      * rewrite Hev, Hevs, (pause_between this _ i rest Ht').
        rewrite <- interleave_step with (rest := rest) by exact HB.
        now rewrite <- app_assoc.
Qed.

Lemma commitFiles_loop_blocks fuel this m total :
  forall rest i w,
    total = i + len rest ->
    Forall (fits this fuel) rest ->
    ending (commitFiles_loop fuel this m total i rest w) = Return tt ->
    exists blocks,
      Forall2 block_of rest blocks
      /\ events (commitFiles_loop fuel this m total i rest w)
         = interleave_pauses (pause_of this) blocks.
Proof.
  induction rest as [|batch rest IH]; intros i w Ht Hfit Hend.
  - exists []. split; [constructor | reflexivity].
  - inversion Hfit as [|? ? Hb Hrest]; subst.
    assert (Ht' : i + len (batch :: rest) = i + 1 + len rest)
      by (unfold len; cbn [List.length]; lia).
    destruct (dryRun this) eqn:Hdry.
    + destruct (commitFiles_loop_cons_dry fuel this m (i + len (batch :: rest))
                  i batch rest w Hdry Hb)
        as (pre & Hpre & HM & He & Hw & Hev).
      destruct (IH (i + 1) w Ht' Hrest) as (blocks & HB & Hevs); [congruence|].
      exists (pre :: blocks). split.
      * constructor; [|exact HB]. split; [|exact HM].
        now apply console_only_silent in Hpre.
      * rewrite Hev, Hevs, (pause_between this _ i rest Ht').
        now apply (interleave_step _ rest).
    + destruct (run_process w (GitAdd batch)) as [r1 w1] eqn:Hrun1.
      destruct (run_process w1 (GitCommit (commitMessage m (i + 1)
                                             (i + len (batch :: rest)))))
        as [r2 w2] eqn:Hrun2.
      destruct (commitFiles_loop_cons_real fuel this m (i + len (batch :: rest))
                  i batch rest w r1 w1 r2 w2 Hdry Hb Hrun1 Hrun2)
        as (pre & mid & post & Hpre & Hmid & Hpost & H).
      destruct r1 as [out1|cause1]; [destruct r2 as [out2|cause2]|];
        destruct H as (He & Hw & Hev); [|congruence|congruence].
      destruct (IH (i + 1) w2 Ht' Hrest) as (blocks & HB & Hevs); [congruence|].
      eexists ((pre ++ EvExec (GitAdd batch) (Done out1)
                    :: mid ++ EvExec _ (Done out2) :: post) :: blocks).
      split.
      * constructor; [|exact HB]. split.
        -- apply console_only_silent in Hpre as [_ Hpre].
           apply console_only_silent in Hmid as [_ Hmid].
           apply console_only_silent in Hpost as [_ Hpost].
           rewrite sleeps_app, Hpre. cbn [sleeps].
           rewrite sleeps_app, Hmid. cbn [sleeps]. exact Hpost.
        -- apply Exists_app. right. now left.
      * rewrite Hev, Hevs, (pause_between this _ i rest Ht').
        rewrite <- interleave_step with (rest := rest) by exact HB.
        rewrite <- !app_assoc. cbn [app]. rewrite <- !app_assoc. reflexivity.
Qed.

(** *** What a dry run prints *)

Lemma console_lines_app a b : console_lines (a ++ b) = console_lines a ++ console_lines b.
Proof.
  induction a as [|[c r|line|line|ms] a IH]; simpl; rewrite ?IH; reflexivity.
Qed.

(** A quiet dry staging loop prints the preview of each batch and nothing
    else. *)
Lemma addFiles_loop_dry_quiet this total :
  dryRun this = true -> verbose this = false ->
  forall rest i w,
    console_lines (events (addFiles_loop this total i rest w)) = map add_preview rest.
Proof.
  intros Hdry V. induction rest as [|batch rest IH]; intros i w; [reflexivity|].
  specialize (IH (i + 1) w).
  simpl. unfold_monad. rewrite Hdry, V. simpl.
  destruct ((i <? total - 1) && (delay this >? 0))%bool; simpl;
    destruct (addFiles_loop this total (i + 1) rest w) as [o w2 e];
    simpl in *; rewrite IH; reflexivity.
Qed.

Lemma addFilesBatched_dry_quiet this files fuel w :
  dryRun this = true -> verbose this = false ->
  1 <= batchSize this -> files <> [] -> (List.length files < fuel)%nat ->
  console_lines (events (addFilesBatched fuel this files w))
  = map add_preview (spec_batches files (Z.to_nat (batchSize this))).
Proof.
  intros Hdry V Hs Hne Hf. destruct files as [|f files]; [congruence|].
  - unfold addFilesBatched.
    assert (E : (len (f :: files) =? 0) = false)
      by (apply Z.eqb_neq; unfold len; simpl; lia).
    rewrite E, createBatches_spec by assumption.
    pose proof (addFiles_loop_dry_quiet this
                  (len (spec_batches (f :: files) (Z.to_nat (batchSize this))))
                  Hdry V (spec_batches (f :: files) (Z.to_nat (batchSize this))) 0 w)
      as H.
    rewrite V, Hdry. unfold_monad. simpl.
    destruct (addFiles_loop this _ 0 _ w) as [[[]|e|] w2 evs]; simpl in *;
      rewrite ?app_nil_r; exact H.
Qed.

(** A quiet dry commit loop prints, for each batch, the preview of its
    stage action and the preview of its commit, and nothing else. *)
Lemma commitFiles_loop_dry_quiet fuel this m total :
  dryRun this = true -> verbose this = false ->
  forall rest i w,
    Forall (fits this fuel) rest ->
    console_lines (events (commitFiles_loop fuel this m total i rest w))
    = dry_commit_lines m total i rest.
Proof.
  intros Hdry V. induction rest as [|batch rest IH]; intros i w Hfit; [reflexivity|].
  inversion Hfit as [|? ? Hb Hrest]; subst.
  destruct (addFilesBatched_single_dry this batch fuel w Hdry Hb)
    as (_ & _ & Hw & He).
  pose proof Hb as [Hlen Hfuel].
  assert (Hne : batch <> []) by (destruct batch; [simpl in Hlen; lia | congruence]).
  pose proof (addFilesBatched_dry_quiet this batch fuel w Hdry V ltac:(lia) Hne Hfuel)
    as Hlines.
  rewrite spec_batches_single in Hlines by exact Hlen.
  specialize (IH (i + 1) w Hrest).
  simpl. unfold_monad.
  destruct (addFilesBatched fuel this batch w) as [oA wA eA].
  simpl in Hw, He, Hlines. subst oA wA.
  rewrite Hdry, V. simpl.
  destruct ((i <? total - 1) && (delay this >? 0))%bool; simpl;
    destruct (commitFiles_loop fuel this m total (i + 1) rest w) as [o w3 e];
    simpl in *; rewrite !console_lines_app, Hlines; simpl; rewrite IH; reflexivity.
Qed.

(** A verbose dry commit loop prints a line that reports each batch as
    committed. *)
Lemma commitFiles_loop_dry_verbose fuel this m total :
  dryRun this = true -> verbose this = true ->
  forall rest i w,
    Forall (fits this fuel) rest ->
    forall k, (k < List.length rest)%nat ->
      In (EvLog (committed_line (i + Z.of_nat k + 1) total))
         (events (commitFiles_loop fuel this m total i rest w)).
Proof.
  intros Hdry V. induction rest as [|batch rest IH]; intros i w Hfit k Hk;
    [simpl in Hk; lia|].
  inversion Hfit as [|? ? Hb Hrest]; subst.
  destruct (addFilesBatched_single_dry this batch fuel w Hdry Hb)
    as (_ & _ & Hw & He).
  specialize (IH (i + 1) w Hrest).
  simpl. unfold_monad.
  destruct (addFilesBatched fuel this batch w) as [oA wA eA].
  simpl in Hw, He. subst oA wA.
  rewrite Hdry, V. simpl.
  assert (Hnext : forall k', S k' = k ->
             In (EvLog (committed_line (i + Z.of_nat k + 1) total))
                (events (commitFiles_loop fuel this m total (i + 1) rest w))).
  { intros k' <-.
    replace (i + Z.of_nat (S k') + 1) with (i + 1 + Z.of_nat k' + 1) by lia.
    apply IH. simpl in Hk. lia. }
  destruct ((i <? total - 1) && (delay this >? 0))%bool; simpl;
    destruct (commitFiles_loop fuel this m total (i + 1) rest w) as [o w3 e];
    simpl in *; rewrite ?in_app_iff; simpl; rewrite ?in_app_iff; simpl;
    (destruct k as [|k];
     [ rewrite Z.add_0_r; unfold committed_line; intuition auto
     | specialize (Hnext k eq_refl); intuition auto ]).
Qed.
End RunnerFacts.

(** ** Plans that stop at the first failure *)

Section PlanFacts.
Variable World : Type.
Variable run_process : World -> command -> exec_result * World.

Abbreviation plan_log := (run_plan World run_process).

Lemma run_plan_prefix plan w :
  map fst (plan_log w plan) = firstn (List.length (plan_log w plan)) plan.
Proof.
  revert w. induction plan as [|c plan IH]; intros w; [reflexivity|].
  simpl. destruct (run_process w c) as [r w1]. simpl. f_equal.
  destruct (succeeded r); [apply IH | reflexivity].
Qed.

(** The staging plan: one [git add] per batch. *)
Lemma stage_plan_halts batches :
  forall w,
    let log := plan_log w (map GitAdd batches) in
    map fst (stage_results log) = firstn (List.length (stage_results log)) batches
    /\ commit_results log = []
    /\ (first_failure log = None ->
        List.length (stage_results log) = List.length batches)
    /\ (forall k b cause,
          nth_error (stage_results log) k = Some (b, Failed cause) ->
          first_failure log = Some (ExecError (GitAdd b) cause)
          /\ List.length (stage_results log) = S k
          /\ Forall fine (firstn k (stage_results log))).
Proof.
  induction batches as [|batch batches IH]; intros w.
  - repeat (split; [reflexivity|]). intros [|k] b cause H; discriminate H.
  - cbn zeta. simpl map. simpl plan_log.
    destruct (run_process w (GitAdd batch)) as [r w1].
    destruct (IH w1) as (IH1 & IH2 & IH3 & IH4).
    destruct r as [out|cause0]; simpl.
    + rewrite IH1 at 1. rewrite IH2.
      split; [reflexivity|]. split; [reflexivity|].
      split; [intros H; f_equal; auto|].
      intros [|k] b cause H; [discriminate H|]. simpl in H.
      destruct (IH4 k b cause H) as (H1 & H2 & H3).
      repeat split; [assumption | now f_equal | constructor; [reflexivity | assumption]].
    + split; [reflexivity|]. split; [reflexivity|]. split; [discriminate|].
      intros [|k] b cause H; simpl in H; [|destruct k; discriminate H].
      injection H as <- <-. repeat split. constructor.
Qed.

(** The commit plan: [git add] then [git commit], batch after batch. *)
Lemma commit_plan_halts m total batches :
  forall i w,
    let log := plan_log w (commit_plan m total i batches) in
    map fst (stage_results log) = firstn (List.length (stage_results log)) batches
    /\ map fst (commit_results log)
       = firstn (List.length (commit_results log)) (commit_messages m total i batches)
    /\ (first_failure log = None ->
        List.length (stage_results log) = List.length batches
        /\ List.length (commit_results log) = List.length batches)
    /\ (forall k b cause,
          nth_error (stage_results log) k = Some (b, Failed cause) ->
          first_failure log = Some (ExecError (GitAdd b) cause)
          /\ List.length (stage_results log) = S k
          /\ List.length (commit_results log) = k
          /\ Forall fine (firstn k (stage_results log))
          /\ Forall fine (commit_results log))
    /\ (forall k msg cause,
          nth_error (commit_results log) k = Some (msg, Failed cause) ->
          first_failure log = Some (ExecError (GitCommit msg) cause)
          /\ List.length (stage_results log) = S k
          /\ List.length (commit_results log) = S k
          /\ Forall fine (stage_results log)
          /\ Forall fine (firstn k (commit_results log))).
Proof.
  induction batches as [|batch batches IH]; intros i w.
  - split; [reflexivity|]. split; [reflexivity|]. split; [split; reflexivity|].
    split; intros [|k] b cause H; discriminate H.
  - cbn zeta. simpl commit_plan. simpl commit_messages. simpl plan_log.
    destruct (run_process w (GitAdd batch)) as [r1 w1].
    destruct r1 as [out1|cause1]; simpl.
    + destruct (run_process w1 (GitCommit (commitMessage m (i + 1) total)))
        as [r2 w2].
      destruct (IH (i + 1) w2) as (IH1 & IH2 & IH3 & IH4 & IH5).
      destruct r2 as [out2|cause2]; simpl.
      * rewrite IH1 at 1. rewrite IH2 at 1.
        split; [reflexivity|]. split; [reflexivity|].
        split; [intros H; destruct (IH3 H); split; f_equal; assumption|].
        split.
        -- intros [|k] b cause H; [discriminate H|]. simpl in H.
           destruct (IH4 k b cause H) as (H1 & H2 & H3 & H4 & H5).
           repeat split; try assumption; try (now f_equal);
             constructor; (reflexivity || assumption).
        -- intros [|k] msg cause H; [discriminate H|]. simpl in H.
           destruct (IH5 k msg cause H) as (H1 & H2 & H3 & H4 & H5).
           repeat split; try assumption; try (now f_equal);
             constructor; (reflexivity || assumption).
      * split; [reflexivity|]. split; [reflexivity|]. split; [discriminate|].
        split.
        -- intros [|k] b cause H; simpl in H; [discriminate H|].
           destruct k; discriminate H.
        -- intros [|k] msg cause H; simpl in H; [|destruct k; discriminate H].
           injection H as <- <-.
           repeat split; repeat constructor.
    + split; [reflexivity|]. split; [reflexivity|]. split; [discriminate|].
      split.
      * intros [|k] b cause H; simpl in H; [|destruct k; discriminate H].
        injection H as <- <-. repeat split; constructor.
      * intros [|k] msg cause H; discriminate H.
Qed.

Lemma nth_commit_messages m total batches :
  forall i k msg,
    nth_error (commit_messages m total i batches) k = Some msg ->
    msg = commitMessage m (i + Z.of_nat k + 1) total.
Proof.
  induction batches as [|batch batches IH]; intros i [|k] msg H; try discriminate H.
  - simpl in H. injection H as <-. f_equal. lia.
  - simpl in H. apply IH in H. subst msg. f_equal. lia.
Qed.

Lemma length_commit_messages m total batches i :
  List.length (commit_messages m total i batches) = List.length batches.
Proof. revert i. induction batches; intros i; simpl; [|rewrite IHbatches]; reflexivity. Qed.
End PlanFacts.

Lemma spec_batches_nil {A} (s : nat) : (0 < s)%nat -> spec_batches (@nil A) s = [].
Proof.
  intros Hs. apply length_zero_iff_nil. rewrite length_spec_batches.
  pose proof (ceil_div_le 0 s Hs). simpl in *. lia.
Qed.

(** The batches of the partition fit the nested staging call. *)
Lemma spec_batches_fit (this : FileBatcher) (F : list string) (fuel : nat) :
  1 <= batchSize this -> (List.length F < fuel)%nat ->
  Forall (fits this fuel) (spec_batches F (Z.to_nat (batchSize this))).
Proof.
  intros Hs Hf. set (s := Z.to_nat (batchSize this)).
  assert (Hpos : (0 < s)%nat) by (subst s; lia).
  unfold spec_batches. apply Forall_forall. intros b Hin.
  apply in_map_iff in Hin as (k & <- & Hk). apply in_seq in Hk.
  assert (H : (k * s < List.length F)%nat) by (apply ceil_div_lt; lia).
  unfold fits. rewrite length_spec_batch. fold s. nia.
Qed.

(** ** The runners *)

Section RunnerClaims.
Variable World : Type.
Variable run_process : World -> command -> exec_result * World.


Abbreviation base baseMessage := (or_default baseMessage "Add files").

(** The staging run executes the staging plan of the partition and stops
    at the first failure. *)
Lemma addFilesBatched_real this F fuel w :
  dryRun this = false -> 1 <= batchSize this -> (List.length F < fuel)%nat ->
  let batches := spec_batches F (Z.to_nat (batchSize this)) in
  let r := addFilesBatched World run_process fuel this F w in
  exec_events (events r) = run_plan World run_process w (map GitAdd batches)
  /\ world_after r = plan_world World run_process w (map GitAdd batches)
  /\ (F <> [] ->
      ending r = ending_of (run_plan World run_process w (map GitAdd batches))).
Proof.
  intros Hdry Hs Hf batches r. destruct F as [|f F].
  - subst batches. rewrite spec_batches_nil by lia.
    split; [reflexivity|]. split; [reflexivity | congruence].
  - destruct (addFilesBatched_events World run_process this (f :: F) fuel w)
      as (pre & post & Hpre & Hpost & He & Hw & Hev); [assumption|congruence|assumption|].
    destruct (addFiles_loop_real World run_process this
                (len batches) Hdry batches 0 w) as (H1 & H2 & H3).
    apply console_only_silent in Hpre as [Hpre _].
    apply console_only_silent in Hpost as [Hpost _].
    subst r. fold batches in He, Hw, Hev.
    rewrite He, Hw, Hev, !exec_events_app, Hpre, Hpost, H1, H2, H3, app_nil_r.
    repeat split; trivial.
Qed.

(** The commit run executes the commit plan of the partition and stops at
    the first failure. *)
Lemma commitFilesBatched_real this F fuel baseMessage w :
  dryRun this = false -> 1 <= batchSize this -> (List.length F < fuel)%nat ->
  let batches := spec_batches F (Z.to_nat (batchSize this)) in
  let plan := commit_plan (base baseMessage) (len batches) 0 batches in
  let r := commitFilesBatched World run_process fuel this F baseMessage w in
  exec_events (events r) = run_plan World run_process w plan
  /\ ending r = ending_of (run_plan World run_process w plan)
  /\ world_after r = plan_world World run_process w plan.
Proof.
  intros Hdry Hs Hf batches plan r. subst r plan.
  unfold commitFilesBatched. rewrite createBatches_spec by assumption.
  fold batches.
  apply (commitFiles_loop_real World run_process fuel this (base baseMessage)
           (len batches) Hdry batches 0 w).
  now apply spec_batches_fit.
Qed.

(** C2. In a real (not dry) run with batch size [S >= 1]: the stage action
    is invoked on the batches in order; if the stage action fails on batch
    [k], the run ends by throwing that failure, the stage action has been
    invoked for batches [0..k] only and the commit action for batches
    [0..k-1] only; if the commit action fails on batch [k], the run ends by
    throwing that failure, and both actions have been invoked for batches
    [0..k] only, the failing commit being the last invocation. Every
    earlier invocation succeeded; the commands executed are a prefix of the
    plan (stage, commit, stage, commit, ...) and the world the run leaves is
    the one these commands left: nothing is undone. *)
Theorem halt_on_failure this F fuel baseMessage w :
  dryRun this = false -> 1 <= batchSize this -> (List.length F < fuel)%nat ->
  let batches := spec_batches F (Z.to_nat (batchSize this)) in
  let plan := commit_plan (base baseMessage) (len batches) 0 batches in
  let staging := addFilesBatched World run_process fuel this F w in
  let run := commitFilesBatched World run_process fuel this F baseMessage w in
  let slog := exec_events (events staging) in
  let log := exec_events (events run) in
  (* the staging run *)
  (map fst slog = firstn (List.length slog) (map GitAdd batches)
   /\ world_after staging = plan_world World run_process w (map GitAdd batches)
   /\ staged (events staging) = firstn (List.length (staged (events staging))) batches
   /\ forall k b cause,
        nth_error (stage_results slog) k = Some (b, Failed cause) ->
        ending staging = Throw (ExecError (GitAdd b) cause)
        /\ List.length (stage_results slog) = S k
        /\ commit_results slog = []
        /\ Forall fine (firstn k (stage_results slog)))
  (* the commit run *)
  /\ (map fst log = firstn (List.length log) plan
      /\ world_after run = plan_world World run_process w plan
      /\ staged (events run) = firstn (List.length (staged (events run))) batches
      /\ (forall k b cause,
            nth_error (stage_results log) k = Some (b, Failed cause) ->
            ending run = Throw (ExecError (GitAdd b) cause)
            /\ List.length (stage_results log) = S k
            /\ List.length (commit_results log) = k
            /\ Forall fine (firstn k (stage_results log))
            /\ Forall fine (commit_results log))
      /\ (forall k msg cause,
            nth_error (commit_results log) k = Some (msg, Failed cause) ->
            ending run = Throw (ExecError (GitCommit msg) cause)
            /\ List.length (stage_results log) = S k
            /\ List.length (commit_results log) = S k
            /\ Forall fine (stage_results log)
            /\ Forall fine (firstn k (commit_results log)))).
Proof.
  intros Hdry Hs Hf batches plan staging run slog log.
  destruct (addFilesBatched_real this F fuel w Hdry Hs Hf) as (Ha1 & Ha3 & Ha2).
  destruct (commitFilesBatched_real this F fuel baseMessage w Hdry Hs Hf)
    as (Hc1 & Hc2 & Hc3).
  fold batches in Ha1, Ha2, Hc1, Hc2. fold plan in Hc1, Hc2.
  fold staging in Ha1, Ha2. fold run in Hc1, Hc2. fold slog in Ha1. fold log in Hc1.
  split.
  - destruct (stage_plan_halts World run_process batches w) as (S1 & S2 & _ & S4).
    unfold staged. fold slog. rewrite Ha1, length_map.
    split; [apply run_plan_prefix|]. split; [exact Ha3|]. split; [exact S1|].
    intros k b cause H. destruct (S4 k b cause H) as (H1 & H2 & H3).
    repeat split; try assumption.
    assert (HF : F <> []).
    { intros ->. subst batches. rewrite spec_batches_nil in H by lia.
      destruct k; discriminate H. }
    rewrite (Ha2 HF). unfold ending_of. now rewrite H1.
  - destruct (commit_plan_halts World run_process (base baseMessage) (len batches)
                batches 0 w) as (C1 & _ & _ & C4 & C5).
    fold plan in C1, C4, C5.
    unfold staged. fold log. rewrite Hc1, length_map.
    split; [apply run_plan_prefix|]. split; [exact Hc3|]. split; [exact C1|]. split.
    + intros k b cause H. destruct (C4 k b cause H) as (H1 & H2 & H3 & H4 & H5).
      repeat split; try assumption.
      rewrite Hc2. unfold ending_of. now rewrite H1.
    + intros k msg cause H. destruct (C5 k msg cause H) as (H1 & H2 & H3 & H4 & H5).
      repeat split; try assumption.
      rewrite Hc2. unfold ending_of. now rewrite H1.
Qed.

Lemma commitFiles_loop_dry_returns fuel this m total :
  dryRun this = true ->
  forall rest i w,
    Forall (fits this fuel) rest ->
    ending (commitFiles_loop World run_process fuel this m total i rest w) = Return tt.
Proof.
  intros Hdry. induction rest as [|batch rest IH]; intros i w Hfit; [reflexivity|].
  inversion Hfit as [|? ? Hb Hrest]; subst.
  destruct (commitFiles_loop_cons_dry World run_process fuel this m total i
              batch rest w Hdry Hb) as (pre & _ & _ & He & _).
  rewrite He. now apply IH.
Qed.


Lemma nth_error_firstn_Some {X} (l : list X) n i x :
  nth_error (firstn n l) i = Some x -> nth_error l i = Some x.
Proof.
  revert n i. induction l as [|y l IH]; intros [|n] [|i] H; simpl in *;
    try discriminate; trivial. now apply IH in H.
Qed.

(** C7. In a real commit run with base message [m] over [N] batches, the
    commit of batch [i + 1] (the [i]-th commit, counting from 0) is given
    [m] followed by [" (batch i+1/N)"] when [N > 1], and [m] itself when
    [N = 1]; a run that ends normally has made all [N] commits. *)
Theorem commit_messages_numbered this F fuel m w :
  dryRun this = false -> 1 <= batchSize this -> (List.length F < fuel)%nat ->
  let run := commitFilesBatched World run_process fuel this F (Some m) w in
  let N := ceil_div (List.length F) (Z.to_nat (batchSize this)) in
  (forall i msg,
     nth_error (committed (events run)) i = Some msg ->
     msg = if (1 <? N)%nat
           then (m ++ " (batch " ++ num (Z.of_nat i + 1) ++ "/"
                   ++ num (Z.of_nat N) ++ ")")%string
           else m)
  /\ (ending run = Return tt -> List.length (committed (events run)) = N).
Proof.
  intros Hdry Hs Hf run N.
  destruct (commitFilesBatched_real this F fuel (Some m) w Hdry Hs Hf)
    as (H1 & H2 & _).
  fold run in H1, H2. cbn [or_default] in H1, H2.
  set (batches := spec_batches F (Z.to_nat (batchSize this))) in *.
  destruct (commit_plan_halts World run_process m (len batches) batches 0 w)
    as (_ & C2 & C3 & _).
  assert (HN : len batches = Z.of_nat N)
    by (unfold len; subst batches N; now rewrite length_spec_batches).
  unfold committed. rewrite H1. split.
  - intros i msg H. rewrite C2 in H. apply nth_error_firstn_Some in H.
    apply nth_commit_messages in H. subst msg.
    unfold commitMessage. rewrite HN.
    replace (Z.of_nat N >? 1) with (1 <? N)%nat.
    + now replace (0 + Z.of_nat i + 1) with (Z.of_nat i + 1) by lia.
    + destruct (Nat.ltb_spec 1 N); symmetry;
        [apply Z.gtb_lt | rewrite Z.gtb_ltb; apply Z.ltb_ge]; lia.
  - intros He. rewrite H2 in He. unfold ending_of in He.
    destruct (first_failure _) eqn:E in He; [discriminate|].
    destruct (C3 E) as (_ & HL). rewrite length_map, HL.
    subst batches N. apply length_spec_batches.
Qed.


(** The staging run on the empty list: [addFilesBatched] throws its
    input error at once: nothing is partitioned (no fuel is consumed),
    nothing is executed, nothing is printed. *)
Lemma addFilesBatched_empty_input this fuel w :
  addFilesBatched World run_process fuel this [] w
  = mkResult World unit (Throw (Error "Files must be a non-empty array")) w [].
Proof. reflexivity. Qed.

(** C4, as the code has it for the commit run. On the empty list
    [commitFilesBatched] computes zero batches, runs its loop zero times
    and returns normally: no error is raised, unlike in the staging run
    above. *)
Theorem commitFilesBatched_empty_input this fuel baseMessage w :
  commitFilesBatched World run_process (S fuel) this [] baseMessage w
  = mkResult World unit (Return tt) w [].
Proof. reflexivity. Qed.
End RunnerClaims.

(** ** The status analyzer *)

Lemma recognized_not_blank line : recognized line = true -> trim_nonempty line = true.
Proof.
  unfold recognized.
  destruct line as [|c1 [|c2 rest]]; cbn [startsWith trim_nonempty].
  - discriminate.
  - rewrite !andb_false_r. discriminate.
  - rewrite !andb_true_r.
    destruct (Ascii.eqb_spec "?" c1) as [<-|_]; [reflexivity|].
    destruct (Ascii.eqb_spec " " c1) as [<-|_]; [|discriminate].
    destruct (Ascii.eqb_spec "M" c2) as [<-|_]; [reflexivity|].
    destruct (Ascii.eqb_spec "A" c2) as [<-|_]; [reflexivity | discriminate].
Qed.

(** The test on [line.trim()] changes nothing: a line with a recognized
    status code is not blank. *)
Lemma unstaged_line_recognized line : unstaged_line line = recognized line.
Proof.
  unfold unstaged_line. fold (recognized line).
  destruct (recognized line) eqn:E; [|apply andb_false_r].
  now rewrite recognized_not_blank.
Qed.

Section AnalyzerClaims.
Variable World : Type.
Variable run_process : World -> command -> exec_result * World.

(** C9. When the status query succeeds with some report,
    [analyzeGitStatus] returns a result whose [files] are the recognized
    lines of the report (those that start with [??], [ M] or [ A]), in
    order and without their three-character prefix, whose [fileCount] is
    their number, and whose [needsBatching] is [true] exactly when
    [fileCount] is strictly greater than [batchSize]. *)
Theorem analyzeGitStatus_result this w report w1 :
  run_process w GitStatus = (Done report, w1) ->
  let r := analyzeGitStatus World run_process this w in
  exists analysis,
    ending r = Return analysis
    /\ files analysis
       = map (substring_from 3) (filter recognized (split_lines report))
    /\ fileCount analysis = len (files analysis)
    /\ fileCount analysis
       = Z.of_nat (List.length (filter recognized (split_lines report)))
    /\ (needsBatching analysis = true <-> fileCount analysis > batchSize this)
    /\ world_after r = w1
    /\ exec_events (events r) = [(GitStatus, Done report)].
Proof.
  intros Hrun r. subst r.
  assert (E : unstagedFiles_of report
              = map (substring_from 3) (filter recognized (split_lines report))).
  { unfold unstagedFiles_of. f_equal. apply filter_ext.
    exact unstaged_line_recognized. }
  unfold analyzeGitStatus. unfold_monad. rewrite Hrun. simpl.
  rewrite E.
  set (found := map (substring_from 3) (filter recognized (split_lines report))).
  assert (L : len found
              = Z.of_nat (List.length (filter recognized (split_lines report))))
    by (unfold len, found; now rewrite length_map).
  destruct (len found >? batchSize this) eqn:G; simpl;
    eexists; (split; [reflexivity|]); simpl;
    repeat split; trivial; try discriminate.
  - intros _. now apply Z.gtb_gt.
  - intros H. apply Z.gtb_gt in H. congruence.
Qed.

(** When the status query fails, so does the analysis, with its own
    message in front of the cause. *)
Lemma analyzeGitStatus_failure this w cause w1 :
  run_process w GitStatus = (Failed cause, w1) ->
  ending (analyzeGitStatus World run_process this w)
  = Throw (Error (template ["Failed to analyze git status: "; cause])).
Proof.
  intros Hrun. unfold analyzeGitStatus. unfold_monad. now rewrite Hrun.
Qed.
End AnalyzerClaims.

(** ** The claims at concrete inputs *)

(** C2 at three files in batches of one, where the third command (the stage
    action of the second batch) fails: the run throws that failure, the
    stage action was invoked for the first two batches only, and the commit
    action for the first batch only. *)
Lemma halt_on_failure_witness :
  let this := mkFileBatcher 1 false false 100 in
  let run := commitFilesBatched nat (failing_at 2) 4 this
               ["a.js"; "b.js"; "c.js"] (Some "Add X") 0%nat in
  ending run = Throw (ExecError (GitAdd ["b.js"]) "fatal: Unable to create index.lock")
  /\ List.length (stage_results (exec_events (events run))) = 2%nat
  /\ List.length (commit_results (exec_events (events run))) = 1%nat
  /\ staged (events run) = [["a.js"]; ["b.js"]]
  /\ committed (events run) = ["Add X (batch 1/3)"].
Proof.
  intros this run.
  destruct (halt_on_failure nat (failing_at 2) this ["a.js"; "b.js"; "c.js"] 4
              (Some "Add X") 0%nat) as (_ & _ & _ & _ & H & _).
  - reflexivity.
  - unfold this. simpl. lia.
  - simpl. lia.
  - destruct (H 1%nat ["b.js"] "fatal: Unable to create index.lock")
      as (H1 & H2 & H3 & _).
    + reflexivity.
    + split; [exact H1|]. split; [exact H2|]. split; [exact H3|].
      split; reflexivity.
Defined.

(** C2 again, where the commit of the second batch fails: both actions were
    invoked for the first two batches only. *)
Example halt_on_commit_failure :
  let this := mkFileBatcher 1 false false 100 in
  let run := commitFilesBatched nat (failing_at 3) 4 this
               ["a.js"; "b.js"; "c.js"] (Some "Add X") 0%nat in
  ending run
  = Throw (ExecError (GitCommit "Add X (batch 2/3)") "fatal: Unable to create index.lock")
  /\ staged (events run) = [["a.js"]; ["b.js"]]
  /\ committed (events run) = ["Add X (batch 1/3)"; "Add X (batch 2/3)"]
  /\ sleeps (events run) = [100].
Proof. repeat split. Qed.

(** The whole trace of a staging run whose second batch fails: the first
    batch is staged, the loop pauses, the second [git add] fails, the error
    is printed and thrown again; the third batch is never touched. *)
Example staging_trace_with_failure :
  let run := addFilesBatched nat (failing_at 1) 4 (mkFileBatcher 1 false false 100)
               ["a.js"; "b.js"; "c.js"] 0%nat in
  events run
  = [EvExec (GitAdd ["a.js"]) (Done EmptyString);
     EvSleep 100;
     EvExec (GitAdd ["b.js"]) (Failed "fatal: Unable to create index.lock");
     EvError "Error processing batch 2: fatal: Unable to create index.lock"]
  /\ ending run
     = Throw (ExecError (GitAdd ["b.js"]) "fatal: Unable to create index.lock")
  /\ world_after run = 2%nat.
Proof. repeat split. Qed.

(** The whole trace of a dry staging run: previews and pauses only. *)
Example dry_staging_trace :
  events (addFilesBatched nat (failing_at 0) 4 (mkFileBatcher 2 false true 100)
            ["a.js"; "b.js"; "c.js"] 0%nat)
  = [EvLog "[DRY RUN] Would add: a.js, b.js";
     EvSleep 100;
     EvLog "[DRY RUN] Would add: c.js"].
Proof. reflexivity. Qed.

(** C4 at the default configuration: the staging run throws, the commit run
    returns. *)
Example empty_input_runs :
  ending (addFilesBatched nat always_ok 1 (constructor no_options) [] 0%nat)
  = Throw (Error "Files must be a non-empty array")
  /\ commitFilesBatched nat always_ok 1 (constructor no_options) [] (Some "Add X") 0%nat
     = mkResult nat unit (Return tt) 0%nat [].
Proof. split; reflexivity. Qed.



(** C7 at "Add X" over three batches: the second commit carries
    "Add X (batch 2/3)", and the run makes three commits. *)
Lemma commit_messages_numbered_witness :
  let this := mkFileBatcher 2 false false 100 in
  let run := commitFilesBatched nat always_ok 6 this
               ["a.js"; "b.js"; "c.js"; "d.js"; "e.js"] (Some "Add X") 0%nat in
  nth_error (committed (events run)) 1 = Some "Add X (batch 2/3)"
  /\ "Add X (batch 2/3)"
     = ("Add X" ++ " (batch " ++ num (Z.of_nat 1 + 1) ++ "/" ++ num 3 ++ ")")%string
  /\ List.length (committed (events run)) = 3%nat.
Proof.
  intros this run.
  destruct (commit_messages_numbered nat always_ok this
              ["a.js"; "b.js"; "c.js"; "d.js"; "e.js"] 6 "Add X" 0%nat) as (H & HN).
  - reflexivity.
  - unfold this. simpl. lia.
  - simpl. lia.
  - split; [reflexivity|].
    split; [exact (H 1%nat "Add X (batch 2/3)" eq_refl) | exact (HN eq_refl)].
Defined.

Example commit_messages_three_batches :
  committed (events (commitFilesBatched nat always_ok 6
                       (mkFileBatcher 2 false false 100)
                       ["a.js"; "b.js"; "c.js"; "d.js"; "e.js"] (Some "Add X") 0%nat))
  = ["Add X (batch 1/3)"; "Add X (batch 2/3)"; "Add X (batch 3/3)"].
Proof. reflexivity. Qed.

Example commit_message_one_batch :
  committed (events (commitFilesBatched nat always_ok 6
                       (mkFileBatcher 50 false false 100)
                       ["a.js"; "b.js"; "c.js"; "d.js"; "e.js"] (Some "Add X") 0%nat))
  = ["Add X"].
Proof. reflexivity. Qed.


Example batches_of_107_by_25 :
  option_map (map (@List.length string))
    (createBatches 108 (mkFileBatcher 25 false false 100) (repeat "src/file.js" 107))
  = Some [25; 25; 25; 25; 7]%nat.
Proof. vm_compute. reflexivity. Qed.

(** With a delay of zero there is no suspension. *)
Example no_delay_no_pause :
  sleeps (events (addFilesBatched nat always_ok 108 (mkFileBatcher 25 false false 0)
                    (repeat "src/file.js" 107) 0%nat)) = [].
Proof. vm_compute. reflexivity. Qed.

(** C9 at a report of 60 untracked paths and a batch size of 50. *)
Lemma analyzeGitStatus_result_witness :
  let this := mkFileBatcher 50 false false 100 in
  let report := lines_of 60 "?? src/file.js" in
  exists analysis,
    ending (analyzeGitStatus nat (reporting report) this 0%nat) = Return analysis
    /\ fileCount analysis = 60
    /\ needsBatching analysis = true.
Proof.
  intros this report.
  destruct (analyzeGitStatus_result nat (reporting report) this 0%nat report 1%nat
              eq_refl) as (analysis & H1 & H2 & H3 & H4 & H5 & _).
  exists analysis. split; [exact H1|].
  assert (E : fileCount analysis = 60) by (rewrite H4; vm_compute; reflexivity).
  split; [exact E|]. apply H5. rewrite E. reflexivity.
Defined.

Example analyzeGitStatus_mixed_report :
  ending (analyzeGitStatus nat
            (reporting (template ["?? new.js"; String newline EmptyString;
                                  "M  staged.js"; String newline EmptyString;
                                  " M changed.js"; String newline EmptyString;
                                  " D gone.js"; String newline EmptyString]))
            (mkFileBatcher 50 false false 100) 0%nat)
  = Return {| needsBatching := false;
              fileCount := 2;
              files := ["new.js"; "changed.js"] |}.
Proof. vm_compute. reflexivity. Qed.

(** * Further properties *)

(** ** Runs that end normally *)

Lemma first_failure_none log : first_failure log = None -> Forall fine log.
Proof.
  induction log as [|[c [out|cause]] log IH]; intros H; simpl in H;
    [constructor | constructor; [reflexivity | auto] | discriminate].
Qed.

Lemma stage_results_fine log : Forall fine log -> Forall fine (stage_results log).
Proof.
  induction 1 as [|[c r] log H _ IH]; [constructor|].
  destruct c; simpl; trivial. constructor; assumption.
Qed.

Lemma commit_results_fine log : Forall fine log -> Forall fine (commit_results log).
Proof.
  induction 1 as [|[c r] log H _ IH]; [constructor|].
  destruct c; simpl; trivial. constructor; assumption.
Qed.

Lemma run_plan_complete World run_process plan :
  forall w, first_failure (run_plan World run_process w plan) = None ->
            map fst (run_plan World run_process w plan) = plan.
Proof.
  induction plan as [|c plan IH]; intros w H; [reflexivity|].
  simpl in *. destruct (run_process w c) as [[out|cause] w1]; simpl in *;
    [f_equal; auto | discriminate].
Qed.

Section SuccessfulRuns.
Variable World : Type.
Variable run_process : World -> command -> exec_result * World.

(** The log of a real staging run that ends normally: the whole staging
    plan, without a failure. *)
Lemma staging_log_on_success this F fuel w :
  dryRun this = false -> 1 <= batchSize this -> (List.length F < fuel)%nat ->
  let run := addFilesBatched World run_process fuel this F w in
  let plan := map GitAdd (spec_batches F (Z.to_nat (batchSize this))) in
  ending run = Return tt ->
  exec_events (events run) = run_plan World run_process w plan
  /\ first_failure (run_plan World run_process w plan) = None.
Proof.
  intros Hdry Hs Hf run plan He.
  destruct (addFilesBatched_real World run_process this F fuel w Hdry Hs Hf)
    as (H1 & _ & H2).
  fold run in H1, H2. fold plan in H1, H2. split; [exact H1|].
  assert (HF : F <> []) by (intros ->; discriminate He).
  rewrite (H2 HF) in He. unfold ending_of in He.
  now destruct (first_failure _).
Qed.

Lemma staged_all_on_success this F fuel w :
  dryRun this = false -> 1 <= batchSize this -> (List.length F < fuel)%nat ->
  let run := addFilesBatched World run_process fuel this F w in
  ending run = Return tt ->
  staged (events run) = spec_batches F (Z.to_nat (batchSize this)).
Proof.
  intros Hdry Hs Hf run He.
  destruct (staging_log_on_success this F fuel w Hdry Hs Hf He) as (H1 & E).
  destruct (stage_plan_halts World run_process
              (spec_batches F (Z.to_nat (batchSize this))) w) as (S1 & _ & S3 & _).
  unfold staged. fold run in H1. rewrite H1, S1, (S3 E). apply firstn_all.
Qed.

(** A real staging run that ends normally has invoked the stage action on
    every batch of the partition, in order and once each, every invocation
    succeeded, and nothing else was executed: the files staged, read in
    order, are the input list. *)
Theorem staging_complete_on_success this F fuel w :
  dryRun this = false -> 1 <= batchSize this -> (List.length F < fuel)%nat ->
  let run := addFilesBatched World run_process fuel this F w in
  ending run = Return tt ->
  map fst (exec_events (events run))
  = map GitAdd (spec_batches F (Z.to_nat (batchSize this)))
  /\ staged (events run) = spec_batches F (Z.to_nat (batchSize this))
  /\ List.concat (staged (events run)) = F
  /\ committed (events run) = []
  /\ Forall fine (exec_events (events run)).
Proof.
  intros Hdry Hs Hf run He.
  destruct (staging_log_on_success this F fuel w Hdry Hs Hf He) as (H1 & E).
  pose proof (staged_all_on_success this F fuel w Hdry Hs Hf He) as Hst.
  fold run in H1, Hst.
  destruct (stage_plan_halts World run_process
              (spec_batches F (Z.to_nat (batchSize this))) w) as (_ & S2 & _).
  split; [rewrite H1; now apply run_plan_complete|].
  split; [exact Hst|]. split; [rewrite Hst; apply concat_spec_batches; lia|].
  split; [unfold committed; now rewrite H1, S2|].
  rewrite H1. now apply first_failure_none.
Qed.

(** A real commit run that ends normally has executed the whole plan: stage
    then commit for every batch of the partition, in order, every command
    succeeding; the files staged, read in order, are the input list, and
    there is one commit per batch. *)
Theorem commit_complete_on_success this F fuel baseMessage w :
  dryRun this = false -> 1 <= batchSize this -> (List.length F < fuel)%nat ->
  let batches := spec_batches F (Z.to_nat (batchSize this)) in
  let run := commitFilesBatched World run_process fuel this F baseMessage w in
  ending run = Return tt ->
  map fst (exec_events (events run))
  = commit_plan (or_default baseMessage "Add files") (len batches) 0 batches
  /\ staged (events run) = batches
  /\ List.concat (staged (events run)) = F
  /\ committed (events run)
     = commit_messages (or_default baseMessage "Add files") (len batches) 0 batches
  /\ List.length (committed (events run)) = List.length batches
  /\ Forall fine (exec_events (events run)).
Proof.
  intros Hdry Hs Hf batches run He.
  destruct (commitFilesBatched_real World run_process this F fuel baseMessage w
              Hdry Hs Hf) as (H1 & H2 & _).
  fold batches in H1, H2. fold run in H1, H2.
  rewrite H2 in He. unfold ending_of in He.
  destruct (first_failure _) eqn:E in He; [discriminate|].
  destruct (commit_plan_halts World run_process (or_default baseMessage "Add files")
              (len batches) batches 0 w) as (C1 & C2 & C3 & _).
  destruct (C3 E) as (L1 & L2).
  assert (Hst : staged (events run) = batches).
  { unfold staged. rewrite H1, C1, L1. apply firstn_all. }
  assert (Hco : committed (events run)
                = commit_messages (or_default baseMessage "Add files")
                    (len batches) 0 batches).
  { unfold committed. rewrite H1, C2, L2.
    rewrite <- (length_commit_messages (or_default baseMessage "Add files")
                  (len batches) batches 0).
    apply firstn_all. }
  split; [rewrite H1; now apply run_plan_complete|].
  split; [exact Hst|]. split; [rewrite Hst; apply concat_spec_batches; lia|].
  split; [exact Hco|].
  split; [rewrite Hco; apply length_commit_messages|].
  rewrite H1. now apply first_failure_none.
Qed.
End SuccessfulRuns.

(** ** Edge cases of the batch size *)

Section BatchSizeEdges.
Variable World : Type.
Variable run_process : World -> command -> exec_result * World.

(** From a negative counter, or with a step of zero, a step that is not
    positive makes [slice] take nothing. *)
Lemma slice_nonpositive {A} (files : list A) i size :
  i <= 0 -> size <= 0 -> i < 0 \/ size = 0 -> slice files i (i + size) = [].
Proof.
  intros Hi Hs Hcase. unfold slice.
  assert (H : 0 <= len files) by (unfold len; lia).
  cbv zeta.
  destruct (Z.ltb_spec i 0), (Z.ltb_spec (i + size) 0);
    match goal with
    | |- firstn (Z.to_nat ?d) _ = [] => replace (Z.to_nat d) with O by lia
    end; reflexivity.
Qed.

(** Where the memory suffices, the bounded loop is the loop of the
    model: it returns the same batches. *)
Lemma createBatches_bounded_agrees {A} capacity size (files : list A) :
  forall fuel i acc r,
    createBatches_loop fuel size files i acc = Some r ->
    (List.length acc <= List.length r)%nat
    /\ ((List.length r <= capacity)%nat ->
        createBatches_bounded capacity fuel size files i acc = Returned r).
Proof.
  induction fuel as [|fuel IH]; intros i acc r H; [discriminate|].
  cbn [createBatches_loop createBatches_bounded] in *.
  destruct (i <? len files).
  - destruct (IH _ _ _ H) as [Hlen Hret]. rewrite length_app in Hlen.
    cbn [List.length] in Hlen. split; [lia|]. intros Hcap.
    replace (Nat.ltb (List.length acc) capacity) with true
      by (symmetry; apply Nat.ltb_lt; lia).
    now apply Hret.
  - injection H as <-. split; [lia | reflexivity].
Qed.

(** With a step that is zero or negative the test of the loop never
    fails, and once the counter is negative (or when the step is zero)
    every turn pushes an empty batch, until the array is full. *)
Lemma createBatches_bounded_fills {A} capacity size (files : list A) :
  size <= 0 -> files <> [] ->
  forall fuel i acc,
    i <= 0 -> i < 0 \/ size = 0 ->
    (List.length acc <= capacity)%nat ->
    (capacity - List.length acc < fuel)%nat ->
    createBatches_bounded capacity fuel size files i acc
    = OutOfMemory (acc ++ repeat [] (capacity - List.length acc)).
Proof.
  intros Hs HF. induction fuel as [|fuel IH]; intros i acc Hi Hcase Hacc Hfuel; [lia|].
  cbn [createBatches_bounded].
  replace (i <? len files) with true.
  2: { symmetry. apply Z.ltb_lt. unfold len.
       destruct files; [congruence | cbn [List.length]; lia]. }
  destruct (Nat.ltb_spec (List.length acc) capacity) as [Hroom|Hfull].
  - rewrite slice_nonpositive by assumption.
    rewrite IH; rewrite ?length_app; cbn [List.length]; try lia.
    replace (capacity - List.length acc)%nat
      with (S (capacity - (List.length acc + 1))) by lia.
    cbn [repeat]. now rewrite <- app_assoc.
  - replace (capacity - List.length acc)%nat with O by lia.
    now rewrite app_nil_r.
Qed.

(** With a batch size that is zero or negative on the object (a negative
    one passes the constructor) and a list that is not empty,
    [createBatches] does not return: whatever the memory of the machine,
    the loop fills it and runs out of it. The first turn pushes
    [files.slice(0, batchSize)], the list without its last [|batchSize|]
    elements, and every later turn an empty batch. The runners call
    [createBatches] before anything else, so they have executed and
    printed nothing by then. *)
Theorem nonpositive_size_exhausts_memory this (F : list string) capacity fuel
        turns baseMessage w :
  batchSize this <= 0 -> F <> [] -> (1 <= capacity < fuel)%nat ->
  createBatches_bounded capacity fuel (batchSize this) F 0 []
  = OutOfMemory (slice F 0 (batchSize this) :: repeat [] (capacity - 1))
  /\ events (addFilesBatched World run_process turns this F w) = []
  /\ events (commitFilesBatched World run_process turns this F baseMessage w) = [].
Proof.
  intros Hs HF Hfuel. split.
  - destruct fuel as [|fuel]; [lia|]. cbn [createBatches_bounded].
    replace (0 <? len F) with true.
    2: { symmetry. apply Z.ltb_lt. unfold len.
         destruct F; [congruence | cbn [List.length]; lia]. }
    replace (Nat.ltb (List.length (@nil (list string))) capacity) with true
      by (symmetry; apply Nat.ltb_lt; cbn [List.length]; lia).
    rewrite (createBatches_bounded_fills capacity (batchSize this) F Hs HF);
      cbn [List.length app]; try lia.
    reflexivity.
  - assert (E : createBatches turns this F = None)
      by (apply createBatches_loop_runs_on; [assumption | assumption | lia]).
    unfold addFilesBatched, commitFilesBatched. rewrite E.
    replace (len F =? 0) with false; [split; reflexivity|].
    symmetry. apply Z.eqb_neq. unfold len. destruct F; [congruence | simpl; lia].
Qed.

(** A list that is not empty and no longer than the batch size makes one
    batch, the list itself; a real staging run then issues a single
    [git add] with all the files and never pauses. *)
Theorem single_batch_run this F fuel w r1 w1 :
  dryRun this = false ->
  (1 <= List.length F <= Z.to_nat (batchSize this))%nat ->
  (List.length F < fuel)%nat ->
  run_process w (GitAdd F) = (r1, w1) ->
  let run := addFilesBatched World run_process fuel this F w in
  createBatches fuel this F = Some [F]
  /\ exec_events (events run) = [(GitAdd F, r1)]
  /\ sleeps (events run) = []
  /\ world_after run = w1
  /\ ending run = match r1 with
                  | Done _ => Return tt
                  | Failed cause => Throw (ExecError (GitAdd F) cause)
                  end.
Proof.
  intros Hdry Hb Hf Hrun run.
  destruct (addFilesBatched_single_real World run_process this F fuel w r1 w1
              Hdry Hb Hf Hrun) as (pre & post & Hpre & Hpost & Hev & Hw & He).
  fold run in Hev, Hw, He.
  apply console_only_silent in Hpre as [Hx1 Hs1].
  apply console_only_silent in Hpost as [Hx2 Hs2].
  split; [rewrite createBatches_spec by lia; now rewrite spec_batches_single|].
  rewrite Hev, exec_events_app, sleeps_app. simpl.
  rewrite Hx1, Hx2, Hs1, Hs2. repeat split; assumption.
Qed.
End BatchSizeEdges.

(** ** The verbose flag reaches the child process through [stdio] only *)

Section VerboseOnly.
Variable World : Type.
Variable run_child : stdio -> World -> command -> exec_result * World.
Hypothesis text_only : stdio_changes_text_only World run_child.

Lemma outline_eq {T U} (r1 : result World T) (r2 : result World U) :
  outline World r1 = outline World r2 <->
  ending_kind (ending r1) = ending_kind (ending r2)
  /\ world_after r1 = world_after r2
  /\ map (fun x => (fst x, succeeded (snd x))) (exec_events (events r1))
     = map (fun x => (fst x, succeeded (snd x))) (exec_events (events r2))
  /\ sleeps (events r1) = sleeps (events r2).
Proof.
  unfold outline. split.
  - intros H. injection H as -> -> -> ->. auto.
  - intros (-> & -> & -> & ->). reflexivity.
Qed.

Lemma alike_refl {T} (m : M World T) : alike World m m.
Proof. intros w. reflexivity. Qed.

Lemma alike_bind {T T' U U'} (m1 : M World T) (m2 : M World T')
      (k1 : T -> M World U) (k2 : T' -> M World U') :
  alike World m1 m2 ->
  (forall v1 v2, alike World (k1 v1) (k2 v2)) ->
  alike World (bind World m1 k1) (bind World m2 k2).
Proof.
  intros Hm Hk w. specialize (Hm w). apply outline_eq in Hm. unfold bind.
  destruct (m1 w) as [o1 w1 e1], (m2 w) as [o2 w2 e2]. simpl in Hm.
  destruct Hm as (Ho & -> & Hx & Hs).
  destruct o1 as [v1|x1|], o2 as [v2|x2|]; simpl in Ho; try discriminate;
    [|apply outline_eq; auto ..].
  specialize (Hk v1 v2 w2). apply outline_eq in Hk.
  destruct (k1 v1 w2) as [o3 w3 e3], (k2 v2 w2) as [o4 w4 e4]. simpl in Hk.
  destruct Hk as (Ho' & -> & Hx' & Hs').
  apply outline_eq. simpl. rewrite !exec_events_app, !map_app, !sleeps_app.
  repeat split; congruence.
Qed.

Lemma alike_try_catch {T U} (b1 : M World T) (b2 : M World U)
      (h1 : error -> M World T) (h2 : error -> M World U) :
  alike World b1 b2 ->
  (forall e1 e2, error_kind e1 = error_kind e2 -> alike World (h1 e1) (h2 e2)) ->
  alike World (try_catch World b1 h1) (try_catch World b2 h2).
Proof.
  intros Hb Hh w. specialize (Hb w). apply outline_eq in Hb. unfold try_catch.
  destruct (b1 w) as [o1 w1 e1], (b2 w) as [o2 w2 e2]. simpl in Hb.
  destruct Hb as (Ho & -> & Hx & Hs).
  destruct o1 as [v1|x1|], o2 as [v2|x2|]; simpl in Ho; try discriminate;
    [apply outline_eq; auto | | apply outline_eq; auto].
  assert (Hk : error_kind x1 = error_kind x2) by congruence.
  specialize (Hh x1 x2 Hk w2). apply outline_eq in Hh.
  destruct (h1 x1 w2) as [o3 w3 e3], (h2 x2 w2) as [o4 w4 e4]. simpl in Hh.
  destruct Hh as (Ho' & -> & Hx' & Hs').
  apply outline_eq. simpl. rewrite !exec_events_app, !map_app, !sleeps_app.
  repeat split; congruence.
Qed.

(** Printing or not printing makes no difference to the outline. *)
Lemma alike_log (b1 b2 : bool) line1 line2 :
  alike World (when World b1 (console_log World line1))
              (when World b2 (console_log World line2)).
Proof. intros w. destruct b1, b2; reflexivity. Qed.

(** The handler of the staging loop throws again what it caught. *)
Lemma alike_rethrow label1 label2 e1 e2 :
  error_kind e1 = error_kind e2 ->
  alike World
    (bind World (console_error World label1 (error_message e1))
       (fun _ => throw World (T := unit) e1))
    (bind World (console_error World label2 (error_message e2))
       (fun _ => throw World (T := unit) e2)).
Proof. intros H w. unfold outline. simpl. now rewrite H. Qed.

(** A command started under one [stdio] or the other. *)
Lemma alike_execSync s1 s2 c :
  alike World (execSync World (run_child s1) c) (execSync World (run_child s2) c).
Proof.
  intros w. unfold execSync.
  assert (H : snd (run_child s1 w c) = snd (run_child s2 w c)
              /\ succeeded (fst (run_child s1 w c))
                 = succeeded (fst (run_child s2 w c)))
    by (destruct (text_only w c); destruct s1, s2; split; congruence).
  destruct (run_child s1 w c) as [r1 w1], (run_child s2 w c) as [r2 w2].
  simpl in H. destruct H as [-> Hr].
  destruct r1, r2; simpl in Hr; try discriminate; reflexivity.
Qed.

Lemma addFiles_loop_alike s1 s2 this1 this2 total :
  dryRun this1 = dryRun this2 -> delay this1 = delay this2 ->
  forall rest i,
    alike World (addFiles_loop World (run_child s1) this1 total i rest)
                (addFiles_loop World (run_child s2) this2 total i rest).
Proof.
  intros Hd Hdel. induction rest as [|batch rest IH]; intros i.
  - apply alike_refl.
  - cbn [addFiles_loop]. rewrite Hd, Hdel.
    apply alike_bind; [apply alike_log|]. intros _ _.
    apply alike_bind; [|intros _ _; apply IH].
    apply alike_try_catch.
    + apply alike_bind; [|intros _ _; apply alike_refl].
      destruct (negb (dryRun this2)); [|apply alike_refl].
      apply alike_bind; [apply alike_execSync|]. intros _ _. apply alike_refl.
    + intros e1 e2 He. now apply alike_rethrow.
Qed.

Lemma addFilesBatched_alike s1 s2 this1 this2 fuel F :
  batchSize this1 = batchSize this2 ->
  dryRun this1 = dryRun this2 -> delay this1 = delay this2 ->
  alike World (addFilesBatched World (run_child s1) fuel this1 F)
              (addFilesBatched World (run_child s2) fuel this2 F).
Proof.
  intros Hs Hd Hdel. unfold addFilesBatched, createBatches. rewrite Hs, Hd.
  destruct (len F =? 0); [apply alike_refl|].
  destruct (createBatches_loop fuel (batchSize this2) F 0 []) as [batches|];
    [|apply alike_refl].
  apply alike_bind; [apply alike_log|]. intros _ _.
  apply alike_bind; [now apply addFiles_loop_alike|]. intros _ _.
  apply alike_log.
Qed.

Lemma commitFiles_loop_alike s1 s2 this1 this2 fuel m total :
  batchSize this1 = batchSize this2 ->
  dryRun this1 = dryRun this2 -> delay this1 = delay this2 ->
  forall rest i,
    alike World (commitFiles_loop World (run_child s1) fuel this1 m total i rest)
                (commitFiles_loop World (run_child s2) fuel this2 m total i rest).
Proof.
  intros Hs Hd Hdel. induction rest as [|batch rest IH]; intros i.
  - apply alike_refl.
  - cbn [commitFiles_loop]. rewrite Hd, Hdel.
    apply alike_bind; [now apply addFilesBatched_alike|]. intros _ _.
    apply alike_bind.
    { destruct (negb (dryRun this2)); [|apply alike_refl].
      apply alike_bind; [apply alike_execSync|]. intros _ _. apply alike_refl. }
    intros _ _.
    apply alike_bind; [apply alike_log|]. intros _ _.
    apply alike_bind; [apply alike_refl|]. intros _ _. apply IH.
Qed.

(** The [verbose] flag reaches a run through two channels: the lines the
    program prints, and the [stdio] under which each child process is
    started. When [stdio] changes the text only, two objects that differ
    in [verbose] at most run with the same outline: for every list, every
    fuel and every world, the staging runs execute the same commands with
    the same success, leave the same world, make the same pauses and end
    alike, by returning or by throwing the failure of the same command;
    and so do the commit runs. *)
Theorem verbose_changes_output_only this1 this2 fuel F baseMessage w :
  batchSize this1 = batchSize this2 ->
  dryRun this1 = dryRun this2 -> delay this1 = delay this2 ->
  outline World (addFilesBatched World (run_child (stdio_of this1)) fuel this1 F w)
  = outline World (addFilesBatched World (run_child (stdio_of this2)) fuel this2 F w)
  /\ outline World (commitFilesBatched World (run_child (stdio_of this1)) fuel this1
                      F baseMessage w)
     = outline World (commitFilesBatched World (run_child (stdio_of this2)) fuel this2
                        F baseMessage w).
Proof.
  intros Hs Hd Hdel. split; [now apply addFilesBatched_alike|].
  unfold commitFilesBatched, createBatches. rewrite Hs.
  destruct (createBatches_loop fuel (batchSize this2) F 0 []) as [batches|];
    [|reflexivity].
  now apply commitFiles_loop_alike.
Qed.
End VerboseOnly.

(** ** What the analyzer does besides returning *)

Section AnalyzerEffects.
Variable World : Type.
Variable run_process : World -> command -> exec_result * World.

(** [analyzeGitStatus] runs one command, the status query, and never a
    stage or commit action. When the query succeeds it prints its three
    lines of advice exactly when the result says [needsBatching], and
    nothing otherwise. When the query fails it prints nothing and returns no
    result: it throws an [Error] whose message is the cause behind the
    words "Failed to analyze git status: ". *)
Theorem analyzeGitStatus_effects this w :
  let run := analyzeGitStatus World run_process this w in
  map fst (exec_events (events run)) = [GitStatus]
  /\ staged (events run) = [] /\ committed (events run) = []
  /\ sleeps (events run) = []
  /\ world_after run = snd (run_process w GitStatus)
  /\ match fst (run_process w GitStatus) with
     | Done report =>
         exists analysis logs,
           ending run = Return analysis
           /\ events run = EvExec GitStatus (Done report) :: logs
           /\ console_only logs
           /\ List.length logs = if needsBatching analysis then 3%nat else 0%nat
     | Failed cause =>
         ending run
         = Throw (Error (template ["Failed to analyze git status: "; cause]))
         /\ events run = [EvExec GitStatus (Failed cause)]
     end.
Proof.
  intros run. subst run. unfold analyzeGitStatus. unfold_monad.
  destruct (run_process w GitStatus) as [[report|cause] w1]; simpl.
  - destruct (len (unstagedFiles_of report) >? batchSize this); simpl;
      (repeat (split; [reflexivity|])); eexists; eexists;
      (split; [reflexivity|]); (split; [reflexivity|]);
      (split; [repeat constructor | reflexivity]).
  - repeat split; reflexivity.
Qed.
End AnalyzerEffects.

(** ** findFiles *)

Section FindFilesFacts.
Variable join : string -> string -> string.
Variable relative : string -> string.
Variable readdirSync : string -> fs_result (list string).
Variable statSync : string -> fs_result file_kind.

Abbreviation walk_items' := (walk_items join relative statSync).
Abbreviation walkDir' := (walkDir join relative readdirSync statSync).
Abbreviation walked' := (walked join relative readdirSync statSync).
Abbreviation listed' := (listed join relative readdirSync statSync).
Abbreviation walk_ok' := (walk_ok join relative readdirSync statSync).

Lemma listed_below ex dir items item p :
  readdirSync dir = FsOk items ->
  In item items ->
  excluded ex (relative (join dir item)) = false ->
  statSync (join dir item) = FsOk IsDirectory ->
  listed' ex (join dir item) p -> listed' ex dir p.
Proof.
  intros H1 H2 H3 H4 (d & its & it & W & R). exists d, its, it.
  split; [|exact R]. eapply walked_below; eassumption.
Qed.

Lemma walk_items_ok ex dir all walk :
  readdirSync dir = FsOk all ->
  (forall sub files out, walk sub files = Return out -> walk_ok' ex sub files out) ->
  forall items files out,
    incl items all ->
    walk_items' walk ex dir items files = Return out ->
    (exists new, out = files ++ new /\ Forall (listed' ex dir) new)
    /\ forall item, In item items ->
         excluded ex (relative (join dir item)) = false ->
         match statSync (join dir item) with
         | FsOk IsFile => In (relative (join dir item)) out
         | FsOk IsDirectory => forall p, listed' ex (join dir item) p -> In p out
         | FsOk IsOther => True
         | FsThrows _ => False
         end.
Proof.
  intros Hall Hwalk. induction items as [|item items IH]; intros files out Hin H.
  - simpl in H. injection H as <-. split.
    + exists []. now rewrite app_nil_r.
    + intros item [].
  - assert (Hitem : In item all) by (apply Hin; now left).
    assert (Hrest : incl items all) by (intros x Hx; apply Hin; now right).
    cbn [walk_items] in H. cbv zeta in H.
    destruct (excluded ex (relative (join dir item))) eqn:Ex.
    + destruct (IH files out Hrest H) as (Hnew & Hcov). split; [exact Hnew|].
      intros it [<-|Hit] Hex; [congruence | now apply Hcov].
    + destruct (statSync (join dir item)) as [[| |]|e] eqn:St; [| | |discriminate H].
      * (* a directory *)
        destruct (walk (join dir item) files) as [files'| |] eqn:W;
          [|discriminate H ..].
        destruct (Hwalk _ _ _ W) as ((new1 & -> & Hnew1) & Hcov1).
        destruct (IH _ out Hrest H) as ((new2 & -> & Hnew2) & Hcov2).
        split.
        -- exists (new1 ++ new2). rewrite app_assoc. split; [reflexivity|].
           apply Forall_app. split; [|exact Hnew2].
           eapply Forall_impl; [|exact Hnew1].
           intros p Hp. eapply listed_below; eassumption.
        -- intros it [<-|Hit] Hex; [|now apply Hcov2].
           rewrite St. intros p Hp. apply in_or_app. left. now apply Hcov1.
      * (* a regular file *)
        destruct (IH _ out Hrest H) as ((new2 & -> & Hnew2) & Hcov2).
        split.
        -- exists (relative (join dir item) :: new2).
           rewrite <- app_assoc. split; [reflexivity|].
           constructor; [|exact Hnew2].
           exists dir, all, item. repeat split; try assumption. constructor.
        -- intros it [<-|Hit] Hex; [|now apply Hcov2].
           rewrite St. apply in_or_app. left. apply in_or_app. right. now left.
      * (* neither *)
        destruct (IH files out Hrest H) as (Hnew & Hcov). split; [exact Hnew|].
        intros it [<-|Hit] Hex; [now rewrite St | now apply Hcov].
Qed.

Lemma walkDir_ok ex :
  forall fuel dir files out,
    walkDir' fuel ex dir files = Return out -> walk_ok' ex dir files out.
Proof.
  induction fuel as [|fuel IH]; intros dir files out H; [discriminate H|].
  cbn [walkDir] in H.
  destruct (readdirSync dir) as [all|e] eqn:Rd; [|discriminate H].
  destruct (walk_items_ok ex dir all _ Rd (IH) all files out (incl_refl _) H)
    as (Hnew & Hcov).
  split; [exact Hnew|].
  intros p (d & its & it & W & R1 & R2 & R3 & R4 & ->).
  inversion W as [|? items item ? I1 I2 I3 I4 I5]; subst.
  - rewrite Rd in R1. injection R1 as <-.
    specialize (Hcov it R2 R3). now rewrite R4 in Hcov.
  - rewrite Rd in I1. injection I1 as <-.
    specialize (Hcov item I2 I3). rewrite I4 in Hcov.
    apply Hcov. exists d, its, it. repeat split; assumption.
Qed.

(** When [findFiles] returns, its result holds exactly the listed paths:
    a path is in the result if and only if it is the relative path of a
    regular file that is not excluded, found in the directory walked or in
    a sub-directory reached through directories that are not excluded.
    Nothing else is returned and no such file is left out. *)
Theorem findFiles_exact fuel directory excludePatterns out :
  findFiles join relative readdirSync statSync fuel directory excludePatterns
  = Return out ->
  forall p,
    In p out
    <-> listed' (defaultExcludes ++ or_default excludePatterns []) directory p.
Proof.
  unfold findFiles. intros H p.
  destruct (walkDir_ok _ _ _ _ _ H) as ((new & -> & Hnew) & Hcov).
  split; [|apply Hcov].
  simpl. intros Hp. rewrite Forall_forall in Hnew. now apply Hnew.
Qed.

(** No path that [findFiles] returns contains one of the exclusion
    patterns as a substring, be it a default one or one of the caller's.
    In particular nothing is returned whose relative path contains [.git]:
    not the repository's own directory, and not [.github] or [.gitignore]
    either. *)
Theorem findFiles_excludes fuel directory excludePatterns out :
  findFiles join relative readdirSync statSync fuel directory excludePatterns
  = Return out ->
  forall p, In p out ->
    (forall pattern,
       In pattern (defaultExcludes ++ or_default excludePatterns []) ->
       includes p pattern = false)
    /\ includes p ".git" = false
    /\ includes p "node_modules" = false.
Proof.
  unfold findFiles. intros H p Hp.
  destruct (walkDir_ok _ _ _ _ _ H) as ((new & -> & Hnew) & _).
  rewrite Forall_forall in Hnew.
  destruct (Hnew p Hp) as (d & its & it & _ & _ & _ & Hex & _ & ->).
  unfold excluded in Hex.
  assert (Hall : forall pattern,
             In pattern (defaultExcludes ++ or_default excludePatterns []) ->
             includes (relative (join d it)) pattern = false).
  { intros pattern Hin.
    destruct (includes (relative (join d it)) pattern) eqn:E; [|reflexivity].
    rewrite <- Hex. symmetry. apply existsb_exists. now exists pattern. }
  split; [exact Hall|].
  split; apply Hall; apply in_or_app; left; simpl; auto.
Qed.

(** A walk that returns has read every directory it entered and looked at
    every entry that is not excluded: had one of these calls into [fs]
    thrown, [findFiles] would not have returned a list. *)
Theorem findFiles_reads_everything fuel directory excludePatterns out :
  findFiles join relative readdirSync statSync fuel directory excludePatterns
  = Return out ->
  forall d,
    walked' (defaultExcludes ++ or_default excludePatterns []) directory d ->
    exists items,
      readdirSync d = FsOk items
      /\ forall item, In item items ->
           excluded (defaultExcludes ++ or_default excludePatterns [])
             (relative (join d item)) = false ->
           exists kind, statSync (join d item) = FsOk kind.
Proof.
  unfold findFiles.
  set (ex := defaultExcludes ++ or_default excludePatterns []).
  generalize (@nil string) as files. intros files H d W. revert fuel files out H.
  induction W as [dir|dir items item d I1 I2 I3 I4 W IH]; intros fuel files out H.
  - destruct fuel as [|fuel]; [discriminate H|]. cbn [walkDir] in H.
    destruct (readdirSync dir) as [all|e] eqn:Rd; [|discriminate H].
    exists all. split; [reflexivity|].
    destruct (walk_items_ok ex dir all _ Rd (walkDir_ok ex fuel) all files out
                (incl_refl _) H) as (_ & Hcov).
    intros it Hit Hex. specialize (Hcov it Hit Hex).
    destruct (statSync (join dir it)) as [kind|e]; [now exists kind | contradiction].
  - destruct fuel as [|fuel]; [discriminate H|]. cbn [walkDir] in H.
    rewrite I1 in H.
    (* the walk of [items] reaches [item] and enters it *)
    assert (Hsub : forall its fs o,
               In item its ->
               walk_items' (walkDir' fuel ex) ex dir its fs = Return o ->
               exists fs' o', walkDir' fuel ex (join dir item) fs' = Return o').
    { induction its as [|it its IHits]; intros fs o Hit Hw; [contradiction|].
      cbn [walk_items] in Hw. cbv zeta in Hw.
      destruct (excluded ex (relative (join dir it))) eqn:Ex.
      - destruct Hit as [->|Hit]; [congruence | eauto].
      - destruct (statSync (join dir it)) as [[| |]|e] eqn:St; [| | |discriminate Hw].
        + destruct (walkDir' fuel ex (join dir it) fs) as [fs'| |] eqn:Wd;
            [|discriminate Hw ..].
          destruct Hit as [->|Hit]; eauto.
        + destruct Hit as [->|Hit]; [congruence | eauto].
        + destruct Hit as [->|Hit]; [congruence | eauto]. }
    destruct (Hsub items files out I2 H) as (fs' & o' & Hw).
    exact (IH fuel fs' o' Hw).
Qed.
End FindFilesFacts.

Example parse_examples :
  parseInt (Some "25") = Some 25 /\ parseInt (Some "  -7px") = Some (-7)
  /\ parseInt (Some "0x1F") = Some 31 /\ parseInt (Some "abc") = None
  /\ parseInt None = None /\ parseInt (Some "") = None
  /\ option_value ["add"; "src"; "--batch-size=25"; "--verbose"] "--batch-size=" = Some "25"
  /\ option_value ["add"; "--batch-size=1=2"] "--batch-size=" = Some "1"
  /\ option_value ["add"] "--batch-size=" = None.
Proof. repeat split. Qed.

Example findFiles_tree :
  findFiles tree_join (fun p => p) tree_readdir tree_stat 3 "." None
  = Return ["README.md"; "src/index.js"; "src/util.js"].
Proof. reflexivity. Qed.

(** ** Numbers on the command line *)

Lemma read_digits_acc d acc :
  read_digits 10 (NilEmpty.string_of_uint d) (Some (Z.pos acc))
  = Some (Z.pos (Pos.of_uint_acc d acc)).
Proof.
  revert acc. induction d; intros acc; cbn [NilEmpty.string_of_uint read_digits];
    [reflexivity | change (digit_of _) with (Some 0)
     | change (digit_of _) with (Some 1) | change (digit_of _) with (Some 2)
     | change (digit_of _) with (Some 3) | change (digit_of _) with (Some 4)
     | change (digit_of _) with (Some 5) | change (digit_of _) with (Some 6)
     | change (digit_of _) with (Some 7) | change (digit_of _) with (Some 8)
     | change (digit_of _) with (Some 9)];
    cbn [Z.ltb Z.compare Pos.compare Pos.compare_cont or_default Pos.of_uint_acc];
    rewrite <- IHd; do 2 f_equal; lia.
Qed.

Lemma read_digits_from_zero d :
  read_digits 10 (NilEmpty.string_of_uint d) (Some 0)
  = Some (Z.of_N (Pos.of_uint d)).
Proof.
  induction d; cbn [NilEmpty.string_of_uint read_digits];
    [reflexivity | change (digit_of _) with (Some 0)
     | change (digit_of _) with (Some 1) | change (digit_of _) with (Some 2)
     | change (digit_of _) with (Some 3) | change (digit_of _) with (Some 4)
     | change (digit_of _) with (Some 5) | change (digit_of _) with (Some 6)
     | change (digit_of _) with (Some 7) | change (digit_of _) with (Some 8)
     | change (digit_of _) with (Some 9)];
    cbn [Z.ltb Z.compare Pos.compare Pos.compare_cont or_default Pos.of_uint];
    try exact IHd; apply (read_digits_acc d).
Qed.

Lemma read_digits_start d :
  d <> Decimal.Nil ->
  read_digits 10 (NilEmpty.string_of_uint d) None
  = read_digits 10 (NilEmpty.string_of_uint d) (Some 0).
Proof. destruct d; intros H; [congruence | reflexivity ..]. Qed.

Lemma read_radix_digits d :
  read_radix (NilEmpty.string_of_uint d) = (10, NilEmpty.string_of_uint d).
Proof.
  unfold read_radix.
  replace (startsWith (NilEmpty.string_of_uint d) "0x"
           || startsWith (NilEmpty.string_of_uint d) "0X")%bool with false;
    [reflexivity|].
  destruct d as [|d|d|d|d|d|d|d|d|d|d]; try reflexivity; destruct d; reflexivity.
Qed.

Lemma read_sign_digits d :
  read_sign (skip_spaces (NilEmpty.string_of_uint d))
  = (1, NilEmpty.string_of_uint d).
Proof. destruct d; reflexivity. Qed.

Lemma read_sign_minus s :
  read_sign (skip_spaces (String "-" s)) = (-1, s).
Proof. reflexivity. Qed.

Lemma read_number d :
  d <> Decimal.Nil ->
  read_digits (fst (read_radix (NilEmpty.string_of_uint d)))
    (snd (read_radix (NilEmpty.string_of_uint d))) None
  = Some (Z.of_N (Pos.of_uint d)).
Proof.
  intros Hd. rewrite read_radix_digits. cbn [fst snd].
  now rewrite read_digits_start, read_digits_from_zero.
Qed.

(** A number printed in decimal, as a template literal prints it, is read
    back by [parseInt] as itself. *)
Lemma parseInt_num z : parseInt (Some (num z)) = Some z.
Proof.
  unfold num. destruct z as [|p|p]; [reflexivity| |];
    unfold Z.to_int, NilZero.string_of_int, NilZero.string_of_uint;
    pose proof (DecimalPos.Unsigned.to_uint_nonnil p) as Hd;
    pose proof (DecimalPos.Unsigned.of_to p) as Hp;
    destruct (Pos.to_uint p) as [|d|d|d|d|d|d|d|d|d|d] eqn:E; try congruence;
    unfold parseInt; cbn [or_default];
    rewrite ?read_sign_digits, ?read_sign_minus; cbn [fst snd];
    rewrite read_number by discriminate; rewrite Hp; reflexivity.
Qed.

Lemma split_at_digits d :
  split_at "=" (NilEmpty.string_of_uint d) = [NilEmpty.string_of_uint d].
Proof.
  induction d; cbn [NilEmpty.string_of_uint split_at]; [reflexivity | ..];
    rewrite IHd; reflexivity.
Qed.

Lemma split_at_num z : split_at "=" (num z) = [num z].
Proof.
  unfold num. destruct z as [|p|p]; [reflexivity| |];
    unfold Z.to_int, NilZero.string_of_int, NilZero.string_of_uint;
    pose proof (DecimalPos.Unsigned.to_uint_nonnil p) as Hd;
    destruct (Pos.to_uint p) as [|d|d|d|d|d|d|d|d|d|d] eqn:E; try congruence;
    rewrite <- ?E;
    cbn [split_at]; rewrite ?E;
    match goal with
    | |- context [split_at _ (NilEmpty.string_of_uint ?u)] =>
        rewrite (split_at_digits u)
    end; reflexivity.
Qed.

Lemma split_at_option t :
  split_at "=" t = [t] ->
  nth_error (split_at "=" ("--batch-size=" ++ t)%string) 1 = Some t
  /\ nth_error (split_at "=" ("--delay=" ++ t)%string) 1 = Some t.
Proof. intros H. simpl. rewrite H. split; reflexivity. Qed.

Lemma find_none {X} (f : X -> bool) l :
  (forall x, In x l -> f x = false) -> find f l = None.
Proof.
  induction l as [|x l IH]; intros H; [reflexivity|]. simpl.
  rewrite (H x) by now left. apply IH. intros y Hy. apply H. now right.
Qed.

(** ** The options of the command line *)

(** Whatever the arguments, the object the command line builds has neither
    a batch size nor a delay of zero; without an argument that starts with
    [--batch-size=] the batch size is 50, and without one that starts with
    [--delay=] the delay is 100. *)
Theorem cli_defaults args :
  batchSize (constructor (cli_options args)) <> 0
  /\ delay (constructor (cli_options args)) <> 0
  /\ ((forall arg, In arg args -> startsWith arg "--batch-size=" = false) ->
      batchSize (constructor (cli_options args)) = 50)
  /\ ((forall arg, In arg args -> startsWith arg "--delay=" = false) ->
      delay (constructor (cli_options args)) = 100).
Proof.
  assert (Hnz : forall v d, d <> 0 -> or_number (Some (or_number v d)) d <> 0).
  { intros [[| |]|] d Hd; simpl; try assumption; try discriminate;
      destruct d; simpl; congruence. }
  unfold constructor, cli_options. cbn [batchSize delay opt_batchSize opt_delay].
  split; [apply Hnz; discriminate|]. split; [apply Hnz; discriminate|].
  split; intros H; unfold option_value; rewrite (find_none _ _ H); reflexivity.
Qed.

(** A batch size written in decimal on the command line is the batch size
    of the object, unless it is zero: when the first argument that starts
    with [--batch-size=] is [--batch-size=n] for a safe integer [n] other
    than zero, printed as a template literal prints it, the object has
    batch size [n]; and likewise for [--delay=n]. A negative number is
    taken as it is. *)
Theorem cli_numbers_round_trip args n :
  isSafeInteger n ->
  n <> 0 ->
  (find (fun arg => startsWith arg "--batch-size=") args
   = Some (template ["--batch-size="; num n]) ->
   batchSize (constructor (cli_options args)) = n)
  /\ (find (fun arg => startsWith arg "--delay=") args
      = Some (template ["--delay="; num n]) ->
      delay (constructor (cli_options args)) = n).
Proof.
  intros _ Hn.
  assert (Hor : forall d, or_number (Some (or_number (Some n) d)) d = n)
    by (intros d; destruct n; simpl; congruence).
  unfold constructor, cli_options. cbn [batchSize delay opt_batchSize opt_delay].
  destruct (split_at_option (num n) (split_at_num n)) as (Hb & Hd).
  split; intros H; unfold option_value; rewrite H;
    change (template ["--batch-size="; num n]) with ("--batch-size=" ++ num n)%string;
    change (template ["--delay="; num n]) with ("--delay=" ++ num n)%string;
    rewrite ?Hb, ?Hd, parseInt_num; apply Hor.
Qed.

(** ** Computations that execute nothing *)

Section LeavesAlone.
Variable World : Type.
Variable run_process : World -> command -> exec_result * World.

Lemma leaves_alone_bind {T U} (m : M World T) (k : T -> M World U) :
  leaves_alone World m -> (forall v, leaves_alone World (k v)) ->
  leaves_alone World (bind World m k).
Proof.
  intros Hm Hk w. specialize (Hm w). unfold bind.
  destruct (m w) as [[v|e|] w1 e1]; simpl in Hm; destruct Hm as (Hx & ->);
    [|split; [exact Hx | reflexivity] ..].
  specialize (Hk v w). destruct (k v w) as [o w2 e2]. simpl in *.
  destruct Hk as (Hx' & ->). rewrite exec_events_app, Hx, Hx'. now split.
Qed.

Lemma leaves_alone_try_catch {T} (body : M World T) (handler : error -> M World T) :
  leaves_alone World body -> (forall e, leaves_alone World (handler e)) ->
  leaves_alone World (try_catch World body handler).
Proof.
  intros Hb Hh w. specialize (Hb w). unfold try_catch.
  destruct (body w) as [[v|e|] w1 e1]; simpl in Hb; destruct Hb as (Hx & ->);
    [split; [exact Hx | reflexivity] | | split; [exact Hx | reflexivity]].
  specialize (Hh e w). destruct (handler e w) as [o w2 e2]. simpl in *.
  destruct Hh as (Hx' & ->). rewrite exec_events_app, Hx, Hx'. now split.
Qed.

Lemma leaves_alone_pure {T} (o : outcome T) evs :
  console_only evs -> leaves_alone World (fun w => mkResult World T o w evs).
Proof. intros H w. apply console_only_silent in H as [H _]. now split. Qed.

Lemma leaves_alone_ret {T} (v : T) : leaves_alone World (ret World v).
Proof. apply (leaves_alone_pure (Return v) []). constructor. Qed.

Lemma leaves_alone_lift {T} (o : outcome T) : leaves_alone World (lift World o).
Proof. apply (leaves_alone_pure o []). constructor. Qed.

Lemma leaves_alone_log line : leaves_alone World (console_log World line).
Proof. apply (leaves_alone_pure (Return tt) [EvLog line]). repeat constructor. Qed.

Lemma leaves_alone_error label detail :
  leaves_alone World (console_error World label detail).
Proof.
  apply (leaves_alone_pure (Return tt) [EvError (template [label; " "; detail])]).
  repeat constructor.
Qed.

Lemma addFilesBatched_dry_alone fuel this F :
  dryRun this = true ->
  leaves_alone World (addFilesBatched World run_process fuel this F).
Proof.
  intros Hdry w.
  destruct (addFilesBatched_dry World run_process this F fuel w Hdry) as (H1 & H2 & _).
  now split.
Qed.

Lemma commitFilesBatched_dry_alone fuel this F baseMessage :
  dryRun this = true ->
  leaves_alone World (commitFilesBatched World run_process fuel this F baseMessage).
Proof.
  intros Hdry w. unfold commitFilesBatched.
  destruct (createBatches fuel this F) as [batches|]; [|now split].
  destruct (commitFiles_loop_dry World run_process fuel this
              (or_default baseMessage "Add files") (len batches) Hdry batches 0 w)
    as (H1 & H2 & _).
  now split.
Qed.
End LeavesAlone.

(** ** The program *)

Section ProgramFacts.
Variable World : Type.
Variable run_process : World -> command -> exec_result * World.
Variable join : string -> string -> string.
Variable relative : string -> string.
Variable readdirSync : string -> fs_result (list string).
Variable statSync : string -> fs_result file_kind.
Variable stringify : AnalysisResult -> string.

Abbreviation main' :=
  (main World run_process join relative readdirSync statSync stringify).
Abbreviation findFiles' := (findFiles join relative readdirSync statSync).

(** No error escapes the program, and the exit code tells whether the
    command threw. For a batch size of at least one: when the command
    ends normally the exit code is 0 and nothing is printed after it; when
    it throws an error, the program prints one more line, the words
    "Error:" followed by the message of that very error, and the exit
    code is 1; and as long as the command has not finished, neither has
    the program. The world is the one the command left. *)
Theorem main_exit_code depth fuel args w :
  1 <= batchSize (constructor (cli_options args)) ->
  let body := switch_command World run_process join relative readdirSync statSync
                stringify depth fuel args (constructor (cli_options args)) w in
  let run := main World run_process join relative readdirSync statSync stringify
               depth fuel args w in
  world_after run = world_after body
  /\ match ending body with
     | Return _ => ending run = Return 0 /\ events run = events body
     | Throw e =>
         ending run = Return 1
         /\ events run
            = events body ++ [EvError (template ["Error:"; " "; error_message e])]
     | Running => ending run = Running /\ events run = events body
     end.
Proof.
  intros _ body run. subst run. unfold main, runCommand.
  unfold try_catch, bind, console_error, emit, ret.
  fold body. destruct body as [[[]|e|] w1 e1]; simpl;
    rewrite ?app_nil_r; repeat split; reflexivity.
Qed.

(** With [--dry-run] among the arguments, and a command other than
    [analyze], the program runs no child process at all, whatever the
    directory holds and whatever the other arguments: nothing is staged,
    nothing is committed, and the world is left as it was. *)
Theorem main_dry_run_executes_nothing depth fuel args w :
  has_flag args "--dry-run" = true ->
  is_command (nth_error args 0) "analyze" = false ->
  let run := main World run_process join relative readdirSync statSync stringify
               depth fuel args w in
  exec_events (events run) = []
  /\ staged (events run) = [] /\ committed (events run) = []
  /\ world_after run = w.
Proof.
  intros Hflag Hcmd run.
  assert (Hdry : dryRun (constructor (cli_options args)) = true)
    by (unfold constructor, cli_options; simpl; now rewrite Hflag).
  assert (H : leaves_alone World (main' depth fuel args)).
  { unfold main, runCommand, switch_command. rewrite Hcmd.
    apply leaves_alone_try_catch.
    - apply leaves_alone_bind; [|intros v; apply leaves_alone_ret].
      destruct (is_command (nth_error args 0) "add").
      + apply leaves_alone_bind; [apply leaves_alone_lift|].
        intros files. now apply addFilesBatched_dry_alone.
      + destruct (is_command (nth_error args 0) "commit").
        * apply leaves_alone_bind; [apply leaves_alone_lift|].
          intros files. now apply commitFilesBatched_dry_alone.
        * apply leaves_alone_log.
    - intros e. apply leaves_alone_bind; [|intros v; apply leaves_alone_ret].
      apply leaves_alone_error. }
  destruct (H w) as (Hx & Hw). fold run in Hx, Hw.
  unfold staged, committed. rewrite Hx. repeat split; assumption.
Qed.

(** In a directory where [findFiles] finds nothing (an empty one, or one
    whose entries are all excluded), [add] fails and [commit] does not:
    [add] prints "Error: Files must be a non-empty array" and exits with
    code 1, [commit] prints nothing and exits with code 0. Neither runs a
    child process. *)
Theorem main_nothing_found depth fuel args w :
  findFiles join relative readdirSync statSync depth
    (or_string (nth_error args 1) ".") None = Return [] ->
  (nth_error args 0 = Some "add" ->
   main World run_process join relative readdirSync statSync stringify
     depth fuel args w
   = mkResult World Z (Return 1) w [EvError "Error: Files must be a non-empty array"])
  /\ (nth_error args 0 = Some "commit" ->
      main World run_process join relative readdirSync statSync stringify
        depth (S fuel) args w
      = mkResult World Z (Return 0) w []).
Proof.
  intros Hfind. split; intros Hcmd; unfold main, runCommand, switch_command;
    rewrite Hcmd;
    cbn [is_command];
    change (String.eqb "add" "analyze") with false;
    change (String.eqb "add" "add") with true;
    change (String.eqb "commit" "analyze") with false;
    change (String.eqb "commit" "add") with false;
    change (String.eqb "commit" "commit") with true;
    cbv iota; rewrite Hfind; reflexivity.
Qed.

(** When [add] ends with exit code 0 in a real run (no [--dry-run]) with a
    batch size of at least one, every file [findFiles] found has been
    staged, once, and in the order found: the files given to the
    successive [git add] commands, put end to end, are the list found;
    every command succeeded and nothing was committed. *)
Theorem main_add_stages_what_it_finds depth fuel args files w :
  nth_error args 0 = Some "add" ->
  has_flag args "--dry-run" = false ->
  1 <= batchSize (constructor (cli_options args)) ->
  findFiles join relative readdirSync statSync depth
    (or_string (nth_error args 1) ".") None = Return files ->
  (List.length files < fuel)%nat ->
  let run := main World run_process join relative readdirSync statSync stringify
               depth fuel args w in
  ending run = Return 0 ->
  List.concat (staged (events run)) = files
  /\ committed (events run) = []
  /\ Forall fine (exec_events (events run)).
Proof.
  intros Hcmd Hflag Hs Hfind Hf run He.
  set (this := constructor (cli_options args)) in *.
  assert (Hdry : dryRun this = false)
    by (unfold this, constructor, cli_options; simpl; now rewrite Hflag).
  pose proof (staging_log_on_success World run_process this files fuel w Hdry Hs Hf)
    as Hlog.
  pose proof (staged_all_on_success World run_process this files fuel w Hdry Hs Hf)
    as Hst.
  cbv zeta in Hlog, Hst.
  assert (Hrun : ending (addFilesBatched World run_process fuel this files w)
                 = Return tt
                 /\ events run
                    = events (addFilesBatched World run_process fuel this files w)).
  { subst run. unfold main, runCommand, switch_command in *. fold this in He |- *.
    rewrite Hcmd in *. cbn [is_command] in *.
    change (String.eqb "add" "analyze") with false in *.
    change (String.eqb "add" "add") with true in *.
    cbv iota in *. rewrite Hfind in *.
    unfold try_catch, bind, lift, ret, console_error, emit in *.
    destruct (addFilesBatched World run_process fuel this files w)
      as [[[]|e|] w1 e1]; simpl in *; try discriminate.
    split; [reflexivity | now rewrite app_nil_r]. }
  destruct Hrun as (Hend & Hev).
  destruct (Hlog Hend) as (H1 & E). specialize (Hst Hend).
  destruct (stage_plan_halts World run_process
              (spec_batches files (Z.to_nat (batchSize this))) w) as (_ & S2 & _).
  unfold committed. rewrite Hev. fold (staged (events
    (addFilesBatched World run_process fuel this files w))).
  rewrite Hst, H1. split; [apply concat_spec_batches; lia|].
  split; [now rewrite S2 | now apply first_failure_none].
Qed.
End ProgramFacts.

(** ** The demonstration script *)

Lemma numbers_from_S a n : numbers_from a (S n) = a :: numbers_from (a + 1) n.
Proof.
  unfold numbers_from. cbn [seq map]. f_equal; [lia|].
  rewrite <- seq_shift, map_map. apply map_ext. intros t. lia.
Qed.

Lemma numbers_from_app a n m :
  numbers_from a (n + m) = numbers_from a n ++ numbers_from (a + Z.of_nat n) m.
Proof.
  revert a. induction n as [|n IH]; intros a.
  - simpl. f_equal. lia.
  - change (S n + m)%nat with (S (n + m)). rewrite !numbers_from_S, IH.
    simpl. do 3 f_equal. lia.
Qed.

Lemma written_paths_app a b :
  written_paths (a ++ b) = written_paths a ++ written_paths b.
Proof. apply flat_map_app. Qed.

Lemma made_dirs_app a b : made_dirs (a ++ b) = made_dirs a ++ made_dirs b.
Proof. apply flat_map_app. Qed.

(** [ceil(count / 5)] is positive exactly for a positive [count], and five
    runs of that length cover [count]. *)
Lemma Math_ceil_five count :
  let filesPerDir := Math_ceil count (len subdirs) in
  count <= 5 * filesPerDir /\ (0 < count <-> 0 < filesPerDir).
Proof.
  change (len subdirs) with 5. unfold Math_ceil.
  pose proof (Z.div_mod (- count) 5 ltac:(lia)) as H.
  pose proof (Z.mod_pos_bound (- count) 5 ltac:(lia)) as B.
  cbv zeta. lia.
Qed.

(** A computation that returns without an effect hands over to what
    follows; one that throws ends the sequence. *)
Lemma bind_returns World T U (m : M World T) (k : T -> M World U) w v w1 :
  m w = mkResult World T (Return v) w1 [] -> bind World m k w = k v w1.
Proof. intros H. unfold bind. rewrite H. now destruct (k v w1). Qed.

Lemma bind_throws World T U (m : M World T) (k : T -> M World U) w e w1 evs :
  m w = mkResult World T (Throw e) w1 evs ->
  bind World m k w = mkResult World U (Throw e) w1 evs.
Proof. intros H. unfold bind. now rewrite H. Qed.

Section DemoFacts.
Variable Machine : Type.
Variable join : string -> string -> string.
Variable dirname : string.
Variable existsSync : Machine -> string -> bool.
Variable mkdirSync : Machine -> string -> bool -> option error * Machine.
Variable writeFileSync : Machine -> string -> string -> option error * Machine.
Variable toISOString : Machine -> string.

Abbreviation Disk' := (Disk Machine).
Abbreviation files_loop' := (files_loop Machine join writeFileSync toISOString).
Abbreviation dirs_loop' := (dirs_loop Machine join writeFileSync toISOString).
Abbreviation make_subdirs' := (make_subdirs Machine join existsSync mkdirSync).
Abbreviation never_fails := (fs_never_fails Machine mkdirSync writeFileSync).

#[local] Arguments demo_content : simpl never.
#[local] Arguments demo_fileName : simpl never.
#[local] Arguments num : simpl never.
#[local] Arguments template : simpl never.
#[local] Arguments len : simpl never.

(** One turn of the inner loop. *)
Lemma files_loop_turn count filesPerDir i subdir subdirPath fuel j w :
  ((j <? filesPerDir) && (i * filesPerDir + j <? count))%bool = true ->
  let fileNum := i * filesPerDir + j + 1 in
  let call := WriteFile (join subdirPath (demo_fileName fileNum))
                (demo_content fileNum subdir (demo_fileName fileNum)
                   (toISOString (machine _ w))) in
  forall after,
    (writeFileSync (machine _ w) (join subdirPath (demo_fileName fileNum))
       (demo_content fileNum subdir (demo_fileName fileNum)
          (toISOString (machine _ w)))
     = (None, after) ->
     files_loop' (S fuel) count filesPerDir i subdir subdirPath j w
     = files_loop' fuel count filesPerDir i subdir subdirPath (j + 1)
         (mkDisk _ after (journal _ w ++ [call])))
    /\ forall e,
      writeFileSync (machine _ w) (join subdirPath (demo_fileName fileNum))
        (demo_content fileNum subdir (demo_fileName fileNum)
           (toISOString (machine _ w)))
      = (Some e, after) ->
      files_loop' (S fuel) count filesPerDir i subdir subdirPath j w
      = mkResult _ _ (Throw e) (mkDisk _ after (journal _ w ++ [call])) [].
Proof.
  intros E fileNum call after. cbn [files_loop]. rewrite E.
  unfold bind, date_now, fs_writeFileSync, fs_change.
  split; [intros W | intros e W]; fold fileNum; rewrite W; [|reflexivity].
  fold call.
  destruct (files_loop' fuel count filesPerDir i subdir subdirPath (j + 1) _);
    reflexivity.
Qed.

(** The inner loop entered at [j] writes files [i * filesPerDir + j + 1]
    and on, in order, as far as it gets; it makes no directory and prints
    nothing. *)
Lemma files_loop_run count filesPerDir i subdir subdirPath fuel :
  forall j w, 0 <= j ->
    events (files_loop' fuel count filesPerDir i subdir subdirPath j w) = []
    /\ made_dirs (journal _ (world_after
         (files_loop' fuel count filesPerDir i subdir subdirPath j w)))
       = made_dirs (journal _ w)
    /\ exists n,
        (n <= Z.to_nat (Z.min filesPerDir (count - i * filesPerDir) - j))%nat
        /\ written_paths (journal _ (world_after
             (files_loop' fuel count filesPerDir i subdir subdirPath j w)))
           = written_paths (journal _ w)
             ++ map (fun k => join subdirPath (demo_fileName k))
                    (numbers_from (i * filesPerDir + j + 1) n)
        /\ (ending (files_loop' fuel count filesPerDir i subdir subdirPath j w)
            = Return tt ->
            n = Z.to_nat (Z.min filesPerDir (count - i * filesPerDir) - j)).
Proof.
  induction fuel as [|fuel IH]; intros j w Hj.
  - cbn [files_loop]. unfold running. cbn [events world_after ending].
    split; [reflexivity|]. split; [reflexivity|].
    exists O. split; [lia|]. split; [now rewrite app_nil_r | discriminate].
  - destruct ((j <? filesPerDir) && (i * filesPerDir + j <? count))%bool eqn:E.
    + pose proof E as E'. apply andb_true_iff in E'. destruct E' as [E1 E2].
      apply Z.ltb_lt in E1, E2.
      destruct (writeFileSync (machine _ w)
                  (join subdirPath (demo_fileName (i * filesPerDir + j + 1)))
                  (demo_content (i * filesPerDir + j + 1) subdir
                     (demo_fileName (i * filesPerDir + j + 1))
                     (toISOString (machine _ w)))) as [[e|] after] eqn:W.
      * destruct (files_loop_turn count filesPerDir i subdir subdirPath fuel j w E after)
          as [_ Hfail].
        rewrite (Hfail e W). cbn [events world_after ending journal].
        split; [reflexivity|]. split.
        { rewrite made_dirs_app. simpl. now rewrite app_nil_r. }
        exists 1%nat. split; [lia|]. split; [|discriminate].
        rewrite written_paths_app, numbers_from_S. reflexivity.
      * destruct (files_loop_turn count filesPerDir i subdir subdirPath fuel j w E after)
          as [Hok _].
        rewrite (Hok W).
        match goal with
        | |- context [files_loop' fuel count filesPerDir i subdir subdirPath (j + 1) ?w'] =>
            specialize (IH (j + 1) w' ltac:(lia));
            destruct (files_loop' fuel count filesPerDir i subdir subdirPath (j + 1) w')
              as [o w2 evs]
        end.
        cbn [events world_after ending journal machine] in *.
        destruct IH as (Hev & Hdirs & n & Hn & Hw & Hret).
        split; [exact Hev|]. split.
        { rewrite Hdirs, made_dirs_app. simpl. now rewrite app_nil_r. }
        exists (S n). split; [lia|]. split.
        { rewrite Hw, written_paths_app, numbers_from_S. simpl.
          rewrite <- app_assoc. simpl. do 4 f_equal. lia. }
        intros Ho. rewrite (Hret Ho). lia.
    + cbn [files_loop]. rewrite E. apply andb_false_iff in E.
      unfold ret. cbn [events world_after ending].
      split; [reflexivity|]. split; [reflexivity|].
      exists O. split; [lia|]. split; [now rewrite app_nil_r|].
      intros _. destruct E as [E|E]; apply Z.ltb_ge in E; lia.
Qed.

Lemma in_numbers_from k a n :
  In k (numbers_from a n) -> a <= k < a + Z.of_nat n.
Proof.
  unfold numbers_from. rewrite in_map_iff. intros (t & <- & Ht).
  apply in_seq in Ht. lia.
Qed.

(** What one sub-directory adds to the files dealt so far. *)
Lemma dealt_step count i :
  0 <= i ->
  let filesPerDir := Math_ceil count (len subdirs) in
  let run := Z.to_nat (Z.min filesPerDir (count - i * filesPerDir) - 0) in
  dealt count filesPerDir (i + 1) = (dealt count filesPerDir i + run)%nat
  /\ ((0 < run)%nat ->
      0 < filesPerDir /\ Z.of_nat (dealt count filesPerDir i) = i * filesPerDir).
Proof.
  intros Hi filesPerDir run. subst run. unfold dealt.
  destruct (Math_ceil_five count) as [Hcover Hpos]. fold filesPerDir in Hcover, Hpos.
  destruct (Z.lt_ge_cases 0 filesPerDir) as [HF|HF].
  - pose proof (Z.mul_nonneg_nonneg i filesPerDir Hi ltac:(lia)). lia.
  - assert (count <= 0) by lia.
    assert (i * filesPerDir <= 0) by (apply Z.mul_nonneg_nonpos; lia). lia.
Qed.

(** The outer loop entered at [i], with the sub-directories before [i]
    done, writes the files that follow those dealt so far, at the paths
    [demo_path] gives them. *)
Lemma dirs_loop_run count fuel :
  forall rest done w,
    subdirs = done ++ rest ->
    events (dirs_loop' fuel count (Math_ceil count (len subdirs))
              (join dirname "demo-files") (len done) rest w) = []
    /\ made_dirs (journal _ (world_after
         (dirs_loop' fuel count (Math_ceil count (len subdirs))
            (join dirname "demo-files") (len done) rest w)))
       = made_dirs (journal _ w)
    /\ exists n,
        (n <= dealt count (Math_ceil count (len subdirs)) (len done + len rest)
              - dealt count (Math_ceil count (len subdirs)) (len done))%nat
        /\ written_paths (journal _ (world_after
             (dirs_loop' fuel count (Math_ceil count (len subdirs))
                (join dirname "demo-files") (len done) rest w)))
           = written_paths (journal _ w)
             ++ map (demo_path join dirname count)
                  (numbers_from
                     (Z.of_nat (dealt count (Math_ceil count (len subdirs)) (len done)) + 1)
                     n)
        /\ (ending (dirs_loop' fuel count (Math_ceil count (len subdirs))
                      (join dirname "demo-files") (len done) rest w) = Return tt ->
            n = (dealt count (Math_ceil count (len subdirs)) (len done + len rest)
                 - dealt count (Math_ceil count (len subdirs)) (len done))%nat).
Proof.
  set (filesPerDir := Math_ceil count (len subdirs)).
  set (demoDir := join dirname "demo-files").
  induction rest as [|subdir rest IH]; intros done w Hsplit.
  - cbn [dirs_loop]. unfold ret. cbn [events world_after ending].
    split; [reflexivity|]. split; [reflexivity|].
    exists O. split; [lia|]. split; [now rewrite app_nil_r|].
    intros _. unfold len. cbn [List.length]. rewrite Z.add_0_r. lia.
  - assert (Hi : 0 <= len done) by (unfold len; lia).
    destruct (dealt_step count (len done) Hi) as [Hstep Hrun].
    fold filesPerDir in Hstep, Hrun.
    assert (Hlen : len done + len (subdir :: rest) = len done + 1 + len rest)
      by (unfold len; cbn [List.length]; lia).
    assert (Hdone : len (done ++ [subdir]) = len done + 1)
      by (unfold len; rewrite length_app; cbn [List.length]; lia).
    assert (Hmono : (dealt count filesPerDir (len done + 1)
                     <= dealt count filesPerDir (len done + 1 + len rest))%nat).
    { unfold dealt. destruct (Math_ceil_five count) as [_ Hpos].
      fold filesPerDir in Hpos.
      assert (0 <= len rest) by (unfold len; lia).
      destruct (Z.lt_ge_cases 0 filesPerDir) as [HF|HF]; [nia|].
      assert (count <= 0) by lia. lia. }
    rewrite Hlen.
    (* the paths of this run are those of [demo_path] *)
    assert (Hpaths : forall n,
               (n <= Z.to_nat (Z.min filesPerDir (count - len done * filesPerDir) - 0))%nat ->
               map (fun k => join (join demoDir subdir) (demo_fileName k))
                 (numbers_from (len done * filesPerDir + 0 + 1) n)
               = map (demo_path join dirname count)
                   (numbers_from (Z.of_nat (dealt count filesPerDir (len done)) + 1) n)).
    { intros [|n] Hn; [reflexivity|].
      destruct Hrun as [HF Hdealt]; [lia|]. rewrite Hdealt, Z.add_0_r.
      apply map_ext_in. intros k Hk. apply in_numbers_from in Hk.
      unfold demo_path. fold filesPerDir. fold demoDir. do 2 f_equal.
      replace ((k - 1) / filesPerDir) with (len done)
        by (apply Z.div_unique with (r := k - 1 - len done * filesPerDir); lia).
      unfold len. rewrite Nat2Z.id, Hsplit. symmetry. apply nth_middle. }
    cbn [dirs_loop]. unfold bind.
    destruct (files_loop_run count filesPerDir (len done) subdir
                (join demoDir subdir) fuel 0 w ltac:(lia))
      as (Hev & Hdirs & n1 & Hn1 & Hw1 & Hret1).
    destruct (files_loop' fuel count filesPerDir (len done) subdir
                (join demoDir subdir) 0 w) as [[[]|e|] w1 evs1];
      cbn [events world_after ending] in *.
    + specialize (IH (done ++ [subdir]) w1).
      rewrite <- app_assoc in IH. specialize (IH Hsplit).
      rewrite Hdone in IH.
      destruct (dirs_loop' fuel count filesPerDir demoDir (len done + 1) rest w1)
        as [o w2 evs2]; cbn [events world_after ending] in *.
      destruct IH as (Hev2 & Hdirs2 & n2 & Hn2 & Hw2 & Hret2).
      specialize (Hret1 eq_refl).
      split; [now rewrite Hev, Hev2|]. split; [now rewrite Hdirs2|].
      exists (n1 + n2)%nat. split; [lia|]. split.
      * rewrite Hw2, Hw1, (Hpaths n1 Hn1), <- app_assoc, numbers_from_app, map_app.
        replace (Z.of_nat (dealt count filesPerDir (len done + 1)) + 1)
          with (Z.of_nat (dealt count filesPerDir (len done)) + 1 + Z.of_nat n1)
          by (rewrite Hstep; lia).
        reflexivity.
      * intros Ho. rewrite (Hret2 Ho). lia.
    + split; [exact Hev|]. split; [exact Hdirs|].
      exists n1. split; [lia|]. split; [|discriminate].
      now rewrite Hw1, (Hpaths n1 Hn1).
    + split; [exact Hev|]. split; [exact Hdirs|].
      exists n1. split; [lia|]. split; [|discriminate].
      now rewrite Hw1, (Hpaths n1 Hn1).
Qed.

(** Making the sub-directories writes no file and prints nothing; it ends
    by returning or by throwing, and returns when no call fails. *)
Lemma make_subdirs_run demoDir :
  forall rest w,
    events (make_subdirs' demoDir rest w) = []
    /\ written_paths (journal _ (world_after (make_subdirs' demoDir rest w)))
       = written_paths (journal _ w)
    /\ ending (make_subdirs' demoDir rest w) <> Running
    /\ (never_fails -> ending (make_subdirs' demoDir rest w) = Return tt).
Proof.
  induction rest as [|subdir rest IH]; intros w.
  - cbn [make_subdirs]. unfold ret. cbn [events world_after ending].
    repeat split; discriminate.
  - cbn [make_subdirs]. unfold bind, fs_existsSync.
    destruct (existsSync (machine _ w) (join demoDir subdir)); unfold when;
      cbn [negb].
    + unfold ret. specialize (IH w).
      destruct (make_subdirs' demoDir rest w) as [o w2 evs].
      cbn [events world_after ending] in *. exact IH.
    + unfold fs_mkdirSync, fs_change.
      destruct (mkdirSync (machine _ w) (join demoDir subdir) false)
        as [[e|] after] eqn:K.
      * cbn [events world_after ending journal].
        split; [reflexivity|]. split.
        { rewrite written_paths_app. simpl. now rewrite app_nil_r. }
        split; [discriminate|]. intros [Hmk _].
        specialize (Hmk (machine _ w) (join demoDir subdir) false).
        rewrite K in Hmk. discriminate.
      * match goal with
        | |- context [make_subdirs' demoDir rest ?w'] =>
            specialize (IH w'); destruct (make_subdirs' demoDir rest w') as [o w2 evs]
        end.
        cbn [events world_after ending journal] in *.
        destruct IH as (Hev & Hw & Hrun & Hret).
        split; [exact Hev|]. split; [|split; assumption].
        rewrite Hw, written_paths_app. simpl. now rewrite app_nil_r.
Qed.

(** With calls that never fail, the inner loop returns once the fuel
    exceeds the turns that are left. *)
Lemma files_loop_returns count filesPerDir i subdir subdirPath :
  never_fails ->
  forall fuel j w,
    (Z.to_nat (filesPerDir - j) < fuel)%nat ->
    ending (files_loop' fuel count filesPerDir i subdir subdirPath j w) = Return tt.
Proof.
  intros [_ Hwrite]. induction fuel as [|fuel IH]; intros j w Hfuel; [lia|].
  destruct ((j <? filesPerDir) && (i * filesPerDir + j <? count))%bool eqn:E.
  - pose proof E as E'. apply andb_true_iff in E'. destruct E' as [E1 _].
    apply Z.ltb_lt in E1.
    destruct (writeFileSync (machine _ w)
                (join subdirPath (demo_fileName (i * filesPerDir + j + 1)))
                (demo_content (i * filesPerDir + j + 1) subdir
                   (demo_fileName (i * filesPerDir + j + 1))
                   (toISOString (machine _ w)))) as [failure after] eqn:W.
    pose proof (Hwrite (machine _ w)
                  (join subdirPath (demo_fileName (i * filesPerDir + j + 1)))
                  (demo_content (i * filesPerDir + j + 1) subdir
                     (demo_fileName (i * filesPerDir + j + 1))
                     (toISOString (machine _ w)))) as Hnone.
    rewrite W in Hnone. cbn [fst] in Hnone. subst failure.
    destruct (files_loop_turn count filesPerDir i subdir subdirPath fuel j w E after)
      as [Hok _].
    rewrite (Hok W). apply IH. lia.
  - cbn [files_loop]. rewrite E. reflexivity.
Qed.

Lemma dirs_loop_returns count filesPerDir demoDir fuel :
  never_fails ->
  (Z.to_nat filesPerDir < fuel)%nat ->
  forall rest i w,
    ending (dirs_loop' fuel count filesPerDir demoDir i rest w) = Return tt.
Proof.
  intros Hfs Hfuel. induction rest as [|subdir rest IH]; intros i w; [reflexivity|].
  cbn [dirs_loop]. unfold bind.
  pose proof (files_loop_returns count filesPerDir i subdir (join demoDir subdir)
                Hfs fuel 0 w ltac:(lia)) as Hret.
  destruct (files_loop' fuel count filesPerDir i subdir (join demoDir subdir) 0 w)
    as [o w1 evs1]. cbn [ending] in Hret. subst o.
  specialize (IH (i + 1) w1).
  destruct (dirs_loop' fuel count filesPerDir demoDir (i + 1) rest w1) as [o w2 evs2].
  exact IH.
Qed.

(** The files dealt to no sub-directory, and to all five. *)
Lemma dealt_all count :
  dealt count (Math_ceil count (len subdirs)) (len (@nil string)) = O
  /\ dealt count (Math_ceil count (len subdirs)) (len (@nil string) + len subdirs)
     = Z.to_nat count.
Proof.
  destruct (Math_ceil_five count) as [Hcover _]. cbv zeta in Hcover.
  unfold dealt. change (len (@nil string)) with 0. change (len subdirs) with 5 in *.
  lia.
Qed.

(** createDemoFiles writes its files in the order of their numbers and
    without a gap: in every run, however it ends, the paths given to
    [writeFileSync] are those of the files numbered [1] to [n] for some
    [n] up to [count], each at the path [demo_path] gives it, in the
    sub-directory of index [floor((fileNum - 1) / ceil(count / 5))]. A run
    that returns has written all [count] of them (none when [count] is
    zero or negative) and returns the demo directory. *)
Theorem createDemoFiles_writes fuel (count : option Z) w :
  exists n,
    (n <= Z.to_nat (or_default count 100%Z))%nat
    /\ written_paths (journal _ (world_after
         (createDemoFiles Machine join dirname existsSync mkdirSync writeFileSync
            toISOString fuel count w)))
       = written_paths (journal _ w)
         ++ map (demo_path join dirname (or_default count 100)) (numbers_from 1 n)
    /\ forall d,
        ending (createDemoFiles Machine join dirname existsSync mkdirSync
                  writeFileSync toISOString fuel count w) = Return d ->
        d = join dirname "demo-files" /\ n = Z.to_nat (or_default count 100).
Proof.
  unfold createDemoFiles.
  set (total := or_default count 100). set (demoDir := join dirname "demo-files").
  assert (Hnone : exists n,
             (n <= Z.to_nat total)%nat
             /\ written_paths (journal _ w)
                = written_paths (journal _ w)
                  ++ map (demo_path join dirname total) (numbers_from 1 n))
    by (exists O; split; [lia | now rewrite app_nil_r]).
  (* the demo directory *)
  assert (Hfirst : forall w1 : Disk',
             written_paths (journal _ w1) = written_paths (journal _ w) ->
             exists n,
               (n <= Z.to_nat total)%nat
               /\ written_paths (journal _ (world_after
                    (bind _ (console_log _ (template ["Creating "; num total;
                                                      " demo files..."]))
                       (fun _ =>
                        bind _ (make_subdirs' demoDir subdirs) (fun _ =>
                        bind _ (dirs_loop' fuel total (Math_ceil total (len subdirs))
                                  demoDir 0 subdirs) (fun _ =>
                        bind _ (console_log _
                                  (template ["✅ Created "; num total;
                                             " demo files in "; demoDir]))
                          (fun _ => ret _ demoDir)))) w1)))
                  = written_paths (journal _ w)
                    ++ map (demo_path join dirname total) (numbers_from 1 n)
               /\ forall d,
                   ending (bind _ (console_log _ (template ["Creating "; num total;
                                                            " demo files..."]))
                       (fun _ =>
                        bind _ (make_subdirs' demoDir subdirs) (fun _ =>
                        bind _ (dirs_loop' fuel total (Math_ceil total (len subdirs))
                                  demoDir 0 subdirs) (fun _ =>
                        bind _ (console_log _
                                  (template ["✅ Created "; num total;
                                             " demo files in "; demoDir]))
                          (fun _ => ret _ demoDir)))) w1) = Return d ->
                   d = demoDir /\ n = Z.to_nat total).
  { intros w1 Hw1. unfold bind, console_log, emit, ret.
    destruct (make_subdirs_run demoDir subdirs w1) as (_ & Hsub & _ & _).
    destruct (make_subdirs' demoDir subdirs w1) as [[[]|e|] w2 evs2];
      cbn [events world_after ending] in *;
      [| destruct Hnone as (n & Hn & Hw); exists n; split; [exact Hn|];
         split; [now rewrite Hsub, Hw1 | discriminate] ..].
    destruct (dirs_loop_run total fuel subdirs [] w2 eq_refl)
      as (_ & _ & n & Hn & Hw & Hret).
    destruct (dealt_all total) as [H0 H5]. rewrite H0, H5 in *.
    change (len (@nil string)) with 0 in *. fold demoDir in Hw, Hret.
    destruct (dirs_loop' fuel total (Math_ceil total (len subdirs)) demoDir 0
                subdirs w2) as [[[]|e|] w3 evs3];
      cbn [events world_after ending] in *;
      (exists n; split; [lia|]; split;
       [rewrite Hw, Hsub, Hw1; reflexivity|]).
    - intros d Hd. injection Hd as <-. split; [reflexivity|].
      rewrite (Hret eq_refl). lia.
    - discriminate.
    - discriminate. }
  rewrite (bind_returns _ _ _ _ _ w (existsSync (machine _ w) demoDir) w eq_refl).
  destruct (existsSync (machine _ w) demoDir); unfold when; cbn [negb].
  - rewrite (bind_returns _ _ _ _ _ w tt w eq_refl). exact (Hfirst w eq_refl).
  - destruct (mkdirSync (machine _ w) demoDir true) as [[e|] after] eqn:K.
    + erewrite bind_throws
        by (unfold fs_mkdirSync, fs_change; rewrite K; reflexivity).
      cbn [events world_after ending journal].
      destruct Hnone as (n & Hn & Hw). exists n. split; [exact Hn|].
      split; [|discriminate].
      rewrite written_paths_app. simpl. now rewrite app_nil_r.
    + erewrite bind_returns
        by (unfold fs_mkdirSync, fs_change; rewrite K; reflexivity).
      apply Hfirst. cbn [journal]. rewrite written_paths_app. simpl.
      now rewrite app_nil_r.
Qed.

(** When no call into [fs] fails and the fuel exceeds [ceil(count / 5)],
    createDemoFiles returns the demo directory, having printed its two
    lines: the announcement and the line that reports [count] files
    created. There is no check on [count]: for a [count] of zero or less
    the second line is printed all the same. *)
Theorem createDemoFiles_returns fuel (count : option Z) w :
  fs_never_fails Machine mkdirSync writeFileSync ->
  (Z.to_nat (Math_ceil (or_default count 100%Z) (len subdirs)) < fuel)%nat ->
  ending (createDemoFiles Machine join dirname existsSync mkdirSync writeFileSync
            toISOString fuel count w)
  = Return (join dirname "demo-files")
  /\ events (createDemoFiles Machine join dirname existsSync mkdirSync writeFileSync
               toISOString fuel count w)
     = [EvLog (template ["Creating "; num (or_default count 100); " demo files..."]);
        EvLog (template ["✅ Created "; num (or_default count 100);
                         " demo files in "; join dirname "demo-files"])].
Proof.
  intros Hfs Hfuel. unfold createDemoFiles.
  set (total := or_default count 100) in *.
  set (demoDir := join dirname "demo-files").
  assert (Hfirst : forall w1 : Disk',
             ending (bind _ (console_log _ (template ["Creating "; num total;
                                                      " demo files..."]))
                       (fun _ =>
                        bind _ (make_subdirs' demoDir subdirs) (fun _ =>
                        bind _ (dirs_loop' fuel total (Math_ceil total (len subdirs))
                                  demoDir 0 subdirs) (fun _ =>
                        bind _ (console_log _
                                  (template ["✅ Created "; num total;
                                             " demo files in "; demoDir]))
                          (fun _ => ret _ demoDir)))) w1) = Return demoDir
             /\ events (bind _ (console_log _ (template ["Creating "; num total;
                                                         " demo files..."]))
                       (fun _ =>
                        bind _ (make_subdirs' demoDir subdirs) (fun _ =>
                        bind _ (dirs_loop' fuel total (Math_ceil total (len subdirs))
                                  demoDir 0 subdirs) (fun _ =>
                        bind _ (console_log _
                                  (template ["✅ Created "; num total;
                                             " demo files in "; demoDir]))
                          (fun _ => ret _ demoDir)))) w1)
                = [EvLog (template ["Creating "; num total; " demo files..."]);
                   EvLog (template ["✅ Created "; num total; " demo files in ";
                                    demoDir])]).
  { intros w1. unfold bind, console_log, emit, ret.
    destruct (make_subdirs_run demoDir subdirs w1) as (Hev2 & _ & _ & Hret2).
    specialize (Hret2 Hfs).
    destruct (make_subdirs' demoDir subdirs w1) as [o2 w2 evs2].
    cbn [events ending] in Hev2, Hret2. subst o2 evs2.
    pose proof (dirs_loop_returns total (Math_ceil total (len subdirs)) demoDir fuel
                  Hfs Hfuel subdirs 0 w2) as Hret3.
    destruct (dirs_loop_run total fuel subdirs [] w2 eq_refl) as (Hev3 & _).
    change (len (@nil string)) with 0 in Hev3. fold demoDir in Hev3.
    destruct (dirs_loop' fuel total (Math_ceil total (len subdirs)) demoDir 0
                subdirs w2) as [o3 w3 evs3].
    cbn [events ending] in Hev3, Hret3. subst o3 evs3.
    cbn [events ending]. split; reflexivity. }
  rewrite (bind_returns _ _ _ _ _ w (existsSync (machine _ w) demoDir) w eq_refl).
  destruct (existsSync (machine _ w) demoDir); unfold when; cbn [negb].
  - rewrite (bind_returns _ _ _ _ _ w tt w eq_refl). exact (Hfirst w).
  - destruct (mkdirSync (machine _ w) demoDir true) as [[e|] after] eqn:K.
    + destruct Hfs as [Hmk _]. specialize (Hmk (machine _ w) demoDir true).
      rewrite K in Hmk. discriminate.
    + erewrite bind_returns
        by (unfold fs_mkdirSync, fs_change; rewrite K; reflexivity).
      apply Hfirst.
Qed.
End DemoFacts.

(** ** The names of the demo files *)

Lemma read_digits_rest_acc rest d acc :
  read_digits 10 (NilEmpty.string_of_uint d ++ rest) (Some (Z.pos acc))
  = read_digits 10 rest (Some (Z.pos (Pos.of_uint_acc d acc))).
Proof.
  revert acc. induction d; intros acc;
    cbn [NilEmpty.string_of_uint read_digits append];
    [reflexivity | change (digit_of _) with (Some 0)
     | change (digit_of _) with (Some 1) | change (digit_of _) with (Some 2)
     | change (digit_of _) with (Some 3) | change (digit_of _) with (Some 4)
     | change (digit_of _) with (Some 5) | change (digit_of _) with (Some 6)
     | change (digit_of _) with (Some 7) | change (digit_of _) with (Some 8)
     | change (digit_of _) with (Some 9)];
    cbn [Z.ltb Z.compare Pos.compare Pos.compare_cont or_default Pos.of_uint_acc];
    rewrite <- IHd; do 2 f_equal; lia.
Qed.

Lemma read_digits_rest_zero rest d :
  read_digits 10 (NilEmpty.string_of_uint d ++ rest) (Some 0)
  = read_digits 10 rest (Some (Z.of_N (Pos.of_uint d))).
Proof.
  induction d; cbn [NilEmpty.string_of_uint read_digits append];
    [reflexivity | change (digit_of _) with (Some 0)
     | change (digit_of _) with (Some 1) | change (digit_of _) with (Some 2)
     | change (digit_of _) with (Some 3) | change (digit_of _) with (Some 4)
     | change (digit_of _) with (Some 5) | change (digit_of _) with (Some 6)
     | change (digit_of _) with (Some 7) | change (digit_of _) with (Some 8)
     | change (digit_of _) with (Some 9)];
    cbn [Z.ltb Z.compare Pos.compare Pos.compare_cont or_default Pos.of_uint];
    try exact IHd; apply (read_digits_rest_acc rest d).
Qed.

(** Zeros in front do not change the number read. *)
Lemma read_digits_zeros rest s n :
  read_digits 10 ((string_of_list_ascii (repeat "0"%char n) ++ s) ++ rest) (Some 0)
  = read_digits 10 (s ++ rest) (Some 0).
Proof.
  induction n as [|n IH]; [reflexivity|].
  cbn [repeat string_of_list_ascii append read_digits].
  change (digit_of "0") with (Some 0). exact IH.
Qed.

(** The number in a file name is read back from it: the padding of
    [padStart] is made of zeros, and the name goes on with a dot. *)
Lemma demo_number_read k :
  0 <= k -> read_digits 10 (padStart 3 "0" (num k) ++ ".js") None = Some k.
Proof.
  intros Hk. destruct k as [|p|p]; [reflexivity| |lia].
  unfold padStart, num, Z.to_int, NilZero.string_of_int, NilZero.string_of_uint.
  pose proof (DecimalPos.Unsigned.to_uint_nonnil p) as Hd.
  pose proof (DecimalPos.Unsigned.of_to p) as Hp.
  destruct (Pos.to_uint p) as [|d|d|d|d|d|d|d|d|d|d] eqn:E; try congruence;
    match goal with
    | |- context [repeat _ ?missing] => destruct missing as [|n]
    end;
    try (cbn [repeat string_of_list_ascii append read_digits];
         change (digit_of "0") with (Some 0);
         cbn [Z.ltb Z.compare Pos.compare Pos.compare_cont or_default Z.mul Z.add];
         rewrite read_digits_zeros);
    try (cbn [repeat string_of_list_ascii append];
         match goal with
         | |- read_digits 10 (NilEmpty.string_of_uint ?dd ++ _) None = _ =>
             change (read_digits 10 (NilEmpty.string_of_uint dd ++ ".js") None)
               with (read_digits 10 (NilEmpty.string_of_uint dd ++ ".js") (Some 0))
         end);
    rewrite read_digits_rest_zero, Hp; reflexivity.
Qed.

(** Two file numbers of zero or more never share a file name: the files
    of a run do not overwrite one another. *)
Theorem demo_fileName_distinct a b :
  0 <= a -> 0 <= b -> a <> b -> demo_fileName a <> demo_fileName b.
Proof.
  intros Ha Hb Hne Heq. apply Hne.
  assert (H : (padStart 3 "0" (num a) ++ ".js")%string
              = (padStart 3 "0" (num b) ++ ".js")%string).
  { unfold demo_fileName, template in Heq.
    cbn [String.concat append] in Heq. now injection Heq. }
  apply (f_equal (fun s => read_digits 10 s None)) in H.
  rewrite !demo_number_read in H by assumption. now injection H.
Qed.

(** ** The further properties at concrete inputs *)

(** Five files in batches of two, every command succeeding. *)
Lemma staging_complete_on_success_witness :
  let run := addFilesBatched nat always_ok 6 (mkFileBatcher 2 false false 100)
               ["a.js"; "b.js"; "c.js"; "d.js"; "e.js"] 0%nat in
  staged (events run) = [["a.js"; "b.js"]; ["c.js"; "d.js"]; ["e.js"]]
  /\ List.concat (staged (events run)) = ["a.js"; "b.js"; "c.js"; "d.js"; "e.js"].
Proof.
  intros run.
  destruct (staging_complete_on_success nat always_ok (mkFileBatcher 2 false false 100)
              ["a.js"; "b.js"; "c.js"; "d.js"; "e.js"] 6 0%nat)
    as (_ & H2 & H3 & _).
  - reflexivity.
  - simpl. lia.
  - simpl. lia.
  - reflexivity.
  - split; [exact H2 | exact H3].
Defined.

Lemma commit_complete_on_success_witness :
  let run := commitFilesBatched nat always_ok 6 (mkFileBatcher 2 false false 100)
               ["a.js"; "b.js"; "c.js"; "d.js"; "e.js"] (Some "Add X") 0%nat in
  map fst (exec_events (events run))
  = [GitAdd ["a.js"; "b.js"]; GitCommit "Add X (batch 1/3)";
     GitAdd ["c.js"; "d.js"]; GitCommit "Add X (batch 2/3)";
     GitAdd ["e.js"]; GitCommit "Add X (batch 3/3)"]
  /\ List.concat (staged (events run)) = ["a.js"; "b.js"; "c.js"; "d.js"; "e.js"].
Proof.
  intros run.
  destruct (commit_complete_on_success nat always_ok (mkFileBatcher 2 false false 100)
              ["a.js"; "b.js"; "c.js"; "d.js"; "e.js"] 6 (Some "Add X") 0%nat)
    as (H1 & _ & H3 & _).
  - reflexivity.
  - simpl. lia.
  - simpl. lia.
  - reflexivity.
  - split; [exact H1 | exact H3].
Defined.

(** A batch size of [-1] given to the constructor, on a machine that
    holds three batches. *)
Lemma nonpositive_size_exhausts_memory_witness :
  let this := constructor (mkOptions (Some (-1)) None None None) in
  createBatches_bounded 3 4 (batchSize this) ["a.js"; "b.js"] 0 []
  = OutOfMemory [["a.js"]; []; []]
  /\ events (addFilesBatched nat always_ok 1000 this ["a.js"; "b.js"] 0%nat) = [].
Proof.
  intros this.
  destruct (nonpositive_size_exhausts_memory nat always_ok this ["a.js"; "b.js"] 3 4
              1000 None 0%nat) as (H1 & H2 & _).
  - unfold this. simpl. lia.
  - discriminate.
  - lia.
  - split; [exact H1 | exact H2].
Defined.

(** With a batch size of two the same machine returns the two batches of
    three files, as the loop of the model does. *)
Example createBatches_bounded_returns :
  createBatches_bounded 3 4 2 ["a.js"; "b.js"; "c.js"] 0 []
  = Returned [["a.js"; "b.js"]; ["c.js"]]
  /\ createBatches 4 (mkFileBatcher 2 false false 100) ["a.js"; "b.js"; "c.js"]
     = Some [["a.js"; "b.js"]; ["c.js"]].
Proof. split; reflexivity. Qed.

Lemma single_batch_run_witness :
  let run := addFilesBatched nat always_ok 4 (mkFileBatcher 50 false false 100)
               ["a.js"; "b.js"; "c.js"] 0%nat in
  exec_events (events run) = [(GitAdd ["a.js"; "b.js"; "c.js"], Done EmptyString)]
  /\ sleeps (events run) = [].
Proof.
  intros run.
  destruct (single_batch_run nat always_ok (mkFileBatcher 50 false false 100)
              ["a.js"; "b.js"; "c.js"] 4 0%nat (Done EmptyString) 1%nat)
    as (_ & H2 & H3 & _).
  - reflexivity.
  - simpl. lia.
  - simpl. lia.
  - reflexivity.
  - split; [exact H2 | exact H3].
Defined.

(** A child whose second command fails, with a longer text under
    ['pipe']: the verbose and the quiet run have the same outline. *)
Lemma verbose_changes_output_only_witness :
  outline nat (addFilesBatched nat (terse_when_inherited 1 Inherit) 4
                 (mkFileBatcher 1 true false 100) ["a.js"; "b.js"; "c.js"] 0%nat)
  = outline nat (addFilesBatched nat (terse_when_inherited 1 Pipe) 4
                   (mkFileBatcher 1 false false 100) ["a.js"; "b.js"; "c.js"] 0%nat).
Proof.
  destruct (verbose_changes_output_only nat (terse_when_inherited 1)
              (fun w c => ltac:(unfold terse_when_inherited; simpl;
                                destruct (Nat.eqb w 1); split; reflexivity))
              (mkFileBatcher 1 true false 100) (mkFileBatcher 1 false false 100)
              4 ["a.js"; "b.js"; "c.js"] None 0%nat eq_refl eq_refl eq_refl)
    as (H & _).
  exact H.
Defined.

(** Without the hypothesis the flag can change how a run ends: when the
    child prints more than [maxBuffer] holds, the quiet run, which
    collects the output, fails at its first command, and the verbose run
    goes through. *)
Example verbose_can_change_the_ending :
  ending (addFilesBatched nat (overflowing (stdio_of (mkFileBatcher 1 true false 100)))
            4 (mkFileBatcher 1 true false 100) ["a.js"; "b.js"] 0%nat)
  = Return tt
  /\ ending (addFilesBatched nat
               (overflowing (stdio_of (mkFileBatcher 1 false false 100)))
               4 (mkFileBatcher 1 false false 100) ["a.js"; "b.js"] 0%nat)
     = Throw (ExecError (GitAdd ["a.js"]) "spawnSync /bin/sh ENOBUFS").
Proof. split; reflexivity. Qed.

(** The small tree: [src/util.js] is listed; the workflow under [.github]
    is not, because its path contains [.git]. *)
Lemma findFiles_exact_witness :
  listed tree_join (fun p => p) tree_readdir tree_stat
    (defaultExcludes ++ []) "." "src/util.js"
  /\ ~ listed tree_join (fun p => p) tree_readdir tree_stat
         (defaultExcludes ++ []) "." ".github/ci.yml".
Proof.
  pose proof (findFiles_exact tree_join (fun p => p) tree_readdir tree_stat 3 "." None
                ["README.md"; "src/index.js"; "src/util.js"] eq_refl) as H.
  split.
  - apply (H "src/util.js"). simpl. auto.
  - intros L. apply (H ".github/ci.yml") in L. simpl in L.
    repeat (destruct L as [L|L]; [discriminate L|]). exact L.
Defined.

Lemma findFiles_excludes_witness :
  includes "src/util.js" ".git" = false
  /\ includes "src/util.js" "node_modules" = false.
Proof.
  destruct (findFiles_excludes tree_join (fun p => p) tree_readdir tree_stat 3 "." None
              ["README.md"; "src/index.js"; "src/util.js"] eq_refl "src/util.js")
    as (_ & H).
  - simpl. auto.
  - exact H.
Defined.

Lemma findFiles_reads_everything_witness :
  exists items, tree_readdir "src" = FsOk items.
Proof.
  destruct (findFiles_reads_everything tree_join (fun p => p) tree_readdir tree_stat
              3 "." None ["README.md"; "src/index.js"; "src/util.js"] eq_refl "src")
    as (items & H & _).
  - apply (walked_below tree_join (fun p => p) tree_readdir tree_stat _ "."
             [".git"; ".github"; "README.md"; "src"] "src" "src");
      [reflexivity | simpl; auto | reflexivity | reflexivity | apply walked_here].
  - now exists items.
Defined.

Lemma cli_defaults_witness :
  batchSize (constructor (cli_options ["add"; "src"; "--verbose"])) = 50
  /\ delay (constructor (cli_options ["add"; "src"; "--verbose"])) = 100.
Proof.
  destruct (cli_defaults ["add"; "src"; "--verbose"]) as (_ & _ & H1 & H2).
  split; [apply H1 | apply H2]; intros arg Hin; simpl in Hin;
    repeat (destruct Hin as [<-|Hin]; [reflexivity|]); contradiction.
Defined.

Lemma cli_numbers_round_trip_witness :
  batchSize (constructor (cli_options ["add"; "src"; "--batch-size=25"; "--delay=500"]))
  = 25
  /\ delay (constructor (cli_options ["add"; "src"; "--batch-size=25"; "--delay=500"]))
     = 500.
Proof.
  split.
  - apply (cli_numbers_round_trip ["add"; "src"; "--batch-size=25"; "--delay=500"] 25);
      [unfold isSafeInteger; lia | discriminate | reflexivity].
  - apply (cli_numbers_round_trip ["add"; "src"; "--batch-size=25"; "--delay=500"] 500);
      [unfold isSafeInteger; lia | discriminate | reflexivity].
Defined.

(** [add] in the small tree, where the second [git add] fails: the line
    printed last carries the message of that failure. *)
Lemma main_exit_code_witness :
  let run := main nat (failing_at 1) tree_join (fun p => p) tree_readdir tree_stat
               (fun analysis => num (fileCount analysis))
               3 4 ["add"; "."; "--batch-size=2"] 0%nat in
  ending run = Return 1
  /\ exists before,
      events run = before ++ [EvError "Error: fatal: Unable to create index.lock"].
Proof.
  intros run.
  pose proof (main_exit_code nat (failing_at 1) tree_join (fun p => p) tree_readdir
                tree_stat (fun analysis => num (fileCount analysis))
                3 4 ["add"; "."; "--batch-size=2"] 0%nat) as H.
  destruct H as [_ H]; [now vm_compute|].
  assert (E : ending (switch_command nat (failing_at 1) tree_join (fun p => p)
                        tree_readdir tree_stat
                        (fun analysis => num (fileCount analysis)) 3 4
                        ["add"; "."; "--batch-size=2"]
                        (constructor (cli_options ["add"; "."; "--batch-size=2"]))
                        0%nat)
              = Throw (ExecError (GitAdd ["src/util.js"])
                         "fatal: Unable to create index.lock"))
    by (vm_compute; reflexivity).
  rewrite E in H. destruct H as [H1 H2].
  split; [exact H1|]. eexists. exact H2.
Defined.

Lemma main_dry_run_executes_nothing_witness :
  let run := main nat (failing_at 0) tree_join (fun p => p) tree_readdir tree_stat
               (fun analysis => num (fileCount analysis))
               3 4 ["commit"; "."; "Add X"; "--dry-run"] 0%nat in
  exec_events (events run) = [] /\ world_after run = 0%nat.
Proof.
  intros run.
  destruct (main_dry_run_executes_nothing nat (failing_at 0) tree_join (fun p => p)
              tree_readdir tree_stat (fun analysis => num (fileCount analysis))
              3 4 ["commit"; "."; "Add X"; "--dry-run"] 0%nat eq_refl eq_refl)
    as (H1 & _ & _ & H4).
  split; [exact H1 | exact H4].
Defined.

(** [add] and [commit] in an empty directory. *)
Lemma main_nothing_found_witness :
  ending (main nat always_ok tree_join (fun p => p) empty_readdir tree_stat
            (fun analysis => num (fileCount analysis)) 3 4 ["add"; "empty"] 0%nat)
  = Return 1
  /\ ending (main nat always_ok tree_join (fun p => p) empty_readdir tree_stat
               (fun analysis => num (fileCount analysis)) 3 4 ["commit"; "empty"] 0%nat)
     = Return 0.
Proof.
  split.
  - destruct (main_nothing_found nat always_ok tree_join (fun p => p) empty_readdir
                tree_stat (fun analysis => num (fileCount analysis))
                3 4 ["add"; "empty"] 0%nat eq_refl) as (H & _).
    now rewrite (H eq_refl).
  - destruct (main_nothing_found nat always_ok tree_join (fun p => p) empty_readdir
                tree_stat (fun analysis => num (fileCount analysis))
                3 3 ["commit"; "empty"] 0%nat eq_refl) as (_ & H).
    now rewrite (H eq_refl).
Defined.

Lemma main_add_stages_what_it_finds_witness :
  List.concat
    (staged (events (main nat always_ok tree_join (fun p => p) tree_readdir tree_stat
                       (fun analysis => num (fileCount analysis))
                       3 4 ["add"; "."; "--batch-size=2"] 0%nat)))
  = ["README.md"; "src/index.js"; "src/util.js"].
Proof.
  destruct (main_add_stages_what_it_finds nat always_ok tree_join (fun p => p)
              tree_readdir tree_stat (fun analysis => num (fileCount analysis))
              3 4 ["add"; "."; "--batch-size=2"]
              ["README.md"; "src/index.js"; "src/util.js"] 0%nat)
    as (H & _).
  - reflexivity.
  - reflexivity.
  - vm_compute. discriminate.
  - reflexivity.
  - simpl. lia.
  - reflexivity.
  - exact H.
Defined.

(** ** The demonstration script at concrete inputs *)

(** Seven files: [ceil(7 / 5)] is two, so the first three sub-directories
    receive two files each, the fourth one, and the last none. *)
Example createDemoFiles_seven :
  let r := createDemoFiles (list string) posix_join "/repo" list_exists list_mkdir
             list_write list_clock 10 (Some 7) empty_disk in
  ending r = Return "/repo/demo-files"
  /\ made_dirs (journal _ (world_after r))
     = ["/repo/demo-files"; "/repo/demo-files/components"; "/repo/demo-files/utils";
        "/repo/demo-files/services"; "/repo/demo-files/assets";
        "/repo/demo-files/tests"]
  /\ written_paths (journal _ (world_after r))
     = ["/repo/demo-files/components/file001.js";
        "/repo/demo-files/components/file002.js";
        "/repo/demo-files/utils/file003.js";
        "/repo/demo-files/utils/file004.js";
        "/repo/demo-files/services/file005.js";
        "/repo/demo-files/services/file006.js";
        "/repo/demo-files/assets/file007.js"].
Proof. vm_compute. repeat split. Qed.

(** A disk that is full after nine paths: the six directories and three
    files fit, the fourth write throws, and nothing is attempted after
    it. *)
Example createDemoFiles_disk_full :
  let r := createDemoFiles (list string) posix_join "/repo" list_exists list_mkdir
             (limited_write 9) list_clock 10 (Some 7) empty_disk in
  ending r = Throw (Error "ENOSPC: no space left on device")
  /\ written_paths (journal _ (world_after r))
     = ["/repo/demo-files/components/file001.js";
        "/repo/demo-files/components/file002.js";
        "/repo/demo-files/utils/file003.js";
        "/repo/demo-files/utils/file004.js"]
  /\ events r = [EvLog "Creating 7 demo files..."].
Proof. vm_compute. repeat split. Qed.

(** A thousand files and more: the number is no longer padded. *)
Example demo_fileName_examples :
  demo_fileName 7 = "file007.js"
  /\ demo_fileName 75 = "file075.js"
  /\ demo_fileName 1234 = "file1234.js".
Proof. vm_compute. repeat split. Qed.

(** The default of a hundred files on an empty disk. *)
Lemma createDemoFiles_returns_witness :
  ending (createDemoFiles (list string) posix_join "/repo" list_exists list_mkdir
            list_write list_clock 21 None empty_disk)
  = Return (posix_join "/repo" "demo-files")
  /\ events (createDemoFiles (list string) posix_join "/repo" list_exists list_mkdir
               list_write list_clock 21 None empty_disk)
     = [EvLog (template ["Creating "; num (or_default None 100); " demo files..."]);
        EvLog (template ["✅ Created "; num (or_default None 100);
                         " demo files in "; posix_join "/repo" "demo-files"])].
Proof.
  apply (createDemoFiles_returns (list string) posix_join "/repo" list_exists
           list_mkdir list_write list_clock 21 None empty_disk).
  - split; intros; reflexivity.
  - vm_compute. lia.
Defined.

Lemma demo_fileName_distinct_witness : demo_fileName 7 <> demo_fileName 70.
Proof. apply (demo_fileName_distinct 7 70); lia. Defined.
